(** * Verification of the chunked backup/restore engine (core/backup.py)

    A shallow embedding of the parts of [core/backup.py] that the
    specification talks about: the HMAC-file and backup-header parsers,
    [verify_hmac], the algorithm auto-detection and the announce/verify/enqueue
    loop of [restore_vm_dirs], [ExtractWorker], [wait_backup_feedback],
    [backup_prepare], [backup_do] and [backup_restore_do].

    Python byte strings are Rocq [string]s.  The file system is a finite map
    from absolute paths to nodes.  Child processes (tar, openssl, gzip, the
    helper VM) are not re-implemented: what the code observes of them (exit
    codes, what a read returns) is supplied by an explicit environment. *)

From Stdlib Require Import Ascii String ZArith List Bool Lia.
From Stdlib Require Import DecimalString DecimalNat.
From stdpp Require Import base option list gmap strings.

Local Open Scope Z_scope.
Local Open Scope nat_scope.
Local Open Scope stdpp_scope.

(** ** Python values the code manipulates *)

Module Py.

(** Exceptions raised by the code or by the Python runtime under it. *)
Inductive exn : Type :=
| QubesException (msg : string)
| IOError (path : string)
| OSError (path : string)
| ValueError
| TypeError
| AttributeError
| KeyError
| ZeroDivisionError
| AssertionError (msg : string).

Inductive result (A : Type) : Type :=
| Ok (a : A)
| Raise (e : exn).
Arguments Ok {A} a.
Arguments Raise {A} e.

Definition rbind {A B} (r : result A) (k : A -> result B) : result B :=
  match r with
  | Ok a => k a
  | Raise e => Raise e
  end.

(** [str] methods.  Python 2 [str] is a byte string; [string.whitespace] is
    tab, LF, VT, FF, CR and space. *)

Definition isspace (c : ascii) : bool := Ascii.is_space c.

Fixpoint lstrip_by (p : ascii -> bool) (s : string) : string :=
  match s with
  | EmptyString => EmptyString
  | String c s' => if p c then lstrip_by p s' else s
  end.

Fixpoint rstrip_by (p : ascii -> bool) (s : string) : string :=
  match s with
  | EmptyString => EmptyString
  | String c s' =>
      match rstrip_by p s' with
      | EmptyString => if p c then EmptyString else String c EmptyString
      | r => String c r
      end
  end.

Fixpoint mem_char (c : ascii) (chars : string) : bool :=
  match chars with
  | EmptyString => false
  | String d chars' => if Ascii.eqb c d then true else mem_char c chars'
  end.

(** [s.strip()] *)
Definition strip (s : string) : string := rstrip_by isspace (lstrip_by isspace s).

(** [s.rstrip(chars)]: removes trailing characters that occur in [chars]. *)
Definition rstrip (chars : string) (s : string) : string :=
  rstrip_by (fun c => mem_char c chars) s.

(** [s.count(c)] for a one-character [c]. *)
Fixpoint count (sep : ascii) (s : string) : nat :=
  match s with
  | EmptyString => 0
  | String c s' => (if Ascii.eqb c sep then 1 else 0) + count sep s'
  end.

(** [s.split(c)] for a one-character [c]: never returns the empty list. *)
Fixpoint split (sep : ascii) (s : string) : list string :=
  match s with
  | EmptyString => [EmptyString]
  | String c s' =>
      if Ascii.eqb c sep then EmptyString :: split sep s'
      else match split sep s' with
           | h :: t => String c h :: t
           | [] => [String c EmptyString]
           end
  end.

Definition lower_char (c : ascii) : ascii :=
  let n := nat_of_ascii c in
  if (65 <=? n) && (n <=? 90) then ascii_of_nat (n + 32) else c.

Fixpoint lower (s : string) : string :=
  match s with
  | EmptyString => EmptyString
  | String c s' => String (lower_char c) (lower s')
  end.

Definition startswith (s pre : string) : bool := String.prefix pre s.

(** [sub in s] *)
Fixpoint contains (sub s : string) : bool :=
  String.prefix sub s ||
  match s with
  | EmptyString => false
  | String _ s' => contains sub s'
  end.

(** [s.replace(c, "")] for a one-character [c]. *)
Fixpoint remove_char (c : ascii) (s : string) : string :=
  match s with
  | EmptyString => EmptyString
  | String d s' => if Ascii.eqb d c then remove_char c s' else String d (remove_char c s')
  end.

Definition endswith (s suf : string) : bool :=
  let n := String.length s in
  let k := String.length suf in
  (k <=? n) && String.eqb (String.substring (n - k) k s) suf.

(** [x in l] for a list of strings. *)
Definition str_in (x : string) (l : list string) : bool :=
  existsb (String.eqb x) l.

(** [f.readlines()]: the lines of a file, each with its terminating LF. *)
Fixpoint readlines (s : string) : list string :=
  match s with
  | EmptyString => []
  | String c s' =>
      if Ascii.eqb c "010"%char then String c EmptyString :: readlines s'
      else match readlines s' with
           | l :: ls => String c l :: ls
           | [] => [String c EmptyString]
           end
  end.

(** [f.readline().strip()] on a pipe whose remaining content is a list of
    lines: at end of file [readline] returns the empty string. *)
Definition readline (pipe : list string) : string * list string :=
  match pipe with
  | [] => (EmptyString, [])
  | l :: rest => (strip l, rest)
  end.

(** [os.path.join(a, b)] of posixpath. *)
Definition path_join (a b : string) : string :=
  if startswith b "/" then b
  else if String.eqb a "" || endswith a "/" then a +:+ b
  else a +:+ "/" +:+ b.

(** [posixpath.basename] and [posixpath.dirname]. *)
Fixpoint split_last_slash (p : string) : string * string :=
  match p with
  | EmptyString => (EmptyString, EmptyString)
  | String c p' =>
      let '(h, t) := split_last_slash p' in
      if negb (String.eqb h "") then (String c h, t)
      else if Ascii.eqb c "/"%char then ("/", p')
      else (EmptyString, String c p')
  end.

Definition basename (p : string) : string := snd (split_last_slash p).

Definition dirname (p : string) : string :=
  let head := fst (split_last_slash p) in
  if negb (String.eqb head "") && negb (String.eqb (rstrip "/" head) "")
  then rstrip "/" head else head.

Fixpoint join_with (sep : string) (l : list string) : string :=
  match l with
  | [] => EmptyString
  | [x] => x
  | x :: l' => x +:+ sep +:+ join_with sep l'
  end.

(** [posixpath.normpath]: the components are folded left to right, [acc]
    holds [new_comps] reversed. *)
Definition normpath_step (initial_slashes : bool) (acc : list string)
    (comp : string) : list string :=
  if String.eqb comp "" || String.eqb comp "." then acc
  else if negb (String.eqb comp "..")
          || (negb initial_slashes && match acc with [] => true | _ => false end)
          || match acc with top :: _ => String.eqb top ".." | [] => false end
       then comp :: acc
       else match acc with _ :: acc' => acc' | [] => acc end.

Definition normpath (path : string) : string :=
  if String.eqb path "" then "."
  else
    let initial := startswith path "/" in
    let two := initial && startswith path "//" && negb (startswith path "///") in
    let comps := rev (fold_left (normpath_step initial) (split "/"%char path) []) in
    let body := join_with "/" comps in
    let res := if two then "//" +:+ body else if initial then "/" +:+ body else body in
    if String.eqb res "" then "." else res.

Definition abspath (cwd path : string) : string :=
  if startswith path "/" then normpath path else normpath (path_join cwd path).

Fixpoint drop_common (a b : list string) : list string * list string :=
  match a, b with
  | x :: a', y :: b' => if String.eqb x y then drop_common a' b' else (a, b)
  | _, _ => (a, b)
  end.

Definition nonempty_comps (p : string) : list string :=
  filter (fun x => negb (String.eqb x "") = true) (split "/"%char p).

(** [posixpath.relpath(path, start)] in a process whose working directory is
    [cwd]. *)
Definition relpath (cwd path start : string) : result string :=
  if String.eqb path "" then Raise ValueError
  else
    let '(s, p) := drop_common (nonempty_comps (abspath cwd start))
                               (nonempty_comps (abspath cwd path)) in
    let rel_list := repeat ".." (List.length s) ++ p in
    match rel_list with
    | [] => Ok "."
    | x :: l => Ok (fold_left path_join l x)
    end.

(** [s.partition(sep)]: around the first occurrence of [sep], if any. *)
Fixpoint find_sep (sep s : string) : option (string * string) :=
  if String.prefix sep s
  then Some (EmptyString, String.substring (String.length sep)
                            (String.length s - String.length sep) s)
  else match s with
       | EmptyString => None
       | String c s' =>
           match find_sep sep s' with
           | Some (before, after) => Some (String c before, after)
           | None => None
           end
       end.

Definition partition (sep s : string) : string * string * string :=
  match find_sep sep s with
  | Some (before, after) => (before, sep, after)
  | None => (s, EmptyString, EmptyString)
  end.

(** ["%d" % n] *)
Definition fmt_d (n : nat) : string := NilEmpty.string_of_uint (Nat.to_uint n).

(** ["{0}".format(z)] for an exit status *)
Definition fmt_z (z : Z) : string :=
  if (z <? 0)%Z then "-" +:+ fmt_d (Z.to_nat (- z)) else fmt_d (Z.to_nat z).

(** ["%03d" % i] *)
Definition fmt_03d (i : nat) : string :=
  let d := NilEmpty.string_of_uint (Nat.to_uint i) in
  match String.length d with
  | 1 => "00" +:+ d
  | 2 => "0" +:+ d
  | _ => d
  end.

(** [str(b)] of a Python bool. *)
Definition str_of_bool (b : bool) : string := if b then "True" else "False".

End Py.
Import Py.

(** ** The HMAC-file parser *)

(** [load_hmac]: split the stripped content on every ['='] and keep the
    second field, stripped. *)
Definition load_hmac (hmac : string) : result string :=
  match split "="%char (strip hmac) with
  | _ :: h1 :: _ => Ok (strip h1)
  | _ => Raise (QubesException "ERROR: invalid hmac file content")
  end.


(** ** The backup header *)

Definition HEADER_FILENAME : string := "backup-header".
Definition DEFAULT_CRYPTO_ALGORITHM : string := "aes-256-cbc".
Definition DEFAULT_HMAC_ALGORITHM : string := "SHA1".

(** A value found in a class attribute or stored in [header_data]. *)
Inductive pyval : Type :=
| PyNone
| PyStr (s : string)
| PyBool (b : bool)
| PyList (l : list string).

(** [key == v] for a [str] key. *)
Definition str_eq_pyval (key : string) (v : pyval) : bool :=
  match v with
  | PyStr s => String.eqb key s
  | _ => false
  end.

Module BackupHeader.
Definition encrypted : string := "encrypted".
Definition compressed : string := "compressed".
Definition crypto_algorithm : string := "crypto-algorithm".
Definition hmac_algorithm : string := "hmac-algorithm".
Definition bool_options : list string := ["encrypted"; "compressed"].

(** [[getattr(BackupHeader, attr) for attr in dir(BackupHeader)]].
    [BackupHeader] is a classic Python 2 class: [dir] lists, besides the
    five attributes of the class body, the [__doc__] (here [None]) and
    [__module__] entries of its dictionary.  [module_name] is the name under
    which the file is imported. *)
Definition attr_values (module_name : string) : list pyval :=
  [ PyNone;                       (* __doc__ *)
    PyStr module_name;            (* __module__ *)
    PyList bool_options;          (* bool_options *)
    PyStr compressed;
    PyStr crypto_algorithm;
    PyStr encrypted;
    PyStr hmac_algorithm ].
End BackupHeader.

(** One iteration of the loop of [parse_backup_header]. *)
Definition parse_header_line (module_name : string) (header_data : gmap string pyval)
    (line : string) : result (gmap string pyval) :=
  if negb (count "="%char line =? 1) then
    Raise (QubesException ("Invalid backup header (line " +:+ line +:+ ")"))
  else
    match split "="%char (strip line) with
    | [key; value] =>
        if negb (existsb (str_eq_pyval key) (BackupHeader.attr_values module_name))
        then Ok header_data
        else
          let value' :=
            if str_in key BackupHeader.bool_options
            then PyBool (str_in (lower value) ["1"; "true"; "yes"])
            else PyStr value in
          Ok (<[key := value']> header_data)
    | _ => Raise ValueError
    end.

Fixpoint parse_header_lines (module_name : string) (header_data : gmap string pyval)
    (lines : list string) : result (gmap string pyval) :=
  match lines with
  | [] => Ok header_data
  | line :: rest =>
      match parse_header_line module_name header_data line with
      | Ok hd => parse_header_lines module_name hd rest
      | Raise e => Raise e
      end
  end.

(** [parse_backup_header] on the content of the header file. *)
Definition parse_backup_header_content (module_name content : string)
  : result (gmap string pyval) :=
  parse_header_lines module_name ∅ (readlines content).

(** ** The world the engine runs in *)

(** A node of the file system. *)
Inductive node : Type :=
| File (content : string)
| Dir
| Fifo.

(** What the engine does to the outside, in program order. *)
Inductive event : Type :=
| EvSpawn (argv : list string)        (* subprocess.Popen(argv) *)
| EvVMRun (command : string)          (* appvm.run(command=...) *)
| EvVMWrite (data : string)           (* vmproc.stdin.write(data) *)
| EvOpenWrite (path : string)         (* open(path, 'w') / open(path, 'wb') *)
| EvOpenRead (path : string)          (* open(path, 'rb') handed to the chain *)
| EvProgress (percent : nat)          (* progress_callback(percent) *)
| EvComputeProgress (new_size : nat)  (* compute_progress(new_size, total) *)
| EvVMClose                           (* vmproc.stdin.close() *)
| EvTempFile                          (* tempfile.NamedTemporaryFile() *)
| EvMkdtemp (path : string)
| EvMkfifo (path : string)
| EvMakedirs (path : string)
| EvPut (item : string)               (* queue.put(item) *)
| EvVerified (filename algorithm : string)   (* verify_hmac returned True *)
| EvUnlink (path : string)
| EvRmtree (path : string)
| EvStdin (proc data : string)        (* proc.stdin.write(data) *)
| EvTerminate (proc : string).

Record world : Type := World {
  w_fs : gmap string node;
  w_queue : list string;     (* the items put on the run's queue, oldest first *)
  w_log : list event
}.

(** How a call ends: it returns, it raises, or it is still waiting for a
    child process when the environment's script is exhausted. *)
Inductive outcome (A : Type) : Type :=
| Returns (a : A)
| Throws (e : exn)
| Blocks.
Arguments Returns {A} a.
Arguments Throws {A} e.
Arguments Blocks {A}.

(** State and exceptions: the world survives an exception. *)
Definition M (A : Type) : Type := world -> outcome A * world.

Definition ret {A} (a : A) : M A := fun w => (Returns a, w).
Definition throw {A} (e : exn) : M A := fun w => (Throws e, w).
Definition blocks {A} : M A := fun w => (Blocks, w).

Definition bind {A B} (m : M A) (k : A -> M B) : M B :=
  fun w =>
    match m w with
    | (Returns a, w') => k a w'
    | (Throws e, w') => (Throws e, w')
    | (Blocks, w') => (Blocks, w')
    end.

Notation "'do' x <- m ; k" := (bind m (fun x => k))
  (at level 10, x pattern, m at level 99, k at level 200).
Notation "m ;; k" := (bind m (fun _ => k))
  (at level 100, k at level 200, right associativity).

Definition lift {A} (r : result A) : M A :=
  match r with
  | Ok a => ret a
  | Raise e => throw e
  end.

Definition emit (ev : event) : M unit :=
  fun w => (Returns tt, World (w_fs w) (w_queue w) (w_log w ++ [ev])).

Definition get_fs : M (gmap string node) := fun w => (Returns (w_fs w), w).

Definition set_fs (fs : gmap string node) : M unit :=
  fun w => (Returns tt, World fs (w_queue w) (w_log w)).

(** [queue.put(item)] *)
Definition put (item : string) : M unit :=
  fun w => (Returns tt, World (w_fs w) (w_queue w ++ [item]) (w_log w ++ [EvPut item])).

Definition get_queue : M (list string) := fun w => (Returns (w_queue w), w).

(** [Queue()]: a fresh, empty queue. *)
Definition new_queue : M unit :=
  fun w => (Returns tt, World (w_fs w) [] (w_log w)).

(** [try: m except: h] *)
Definition try_except {A} (m : M A) (h : exn -> M A) : M A :=
  fun w =>
    match m w with
    | (Throws e, w') => h e w'
    | r => r
    end.

(** [open(path).read()] *)
Definition read_file (path : string) : M string :=
  do fs <- get_fs;
  match fs !! path with
  | Some (File c) => ret c
  | _ => throw (IOError path)
  end.

(** [open(path, 'w')] followed by writes of [content] and [close]. *)
Definition write_file (path content : string) : M unit :=
  do fs <- get_fs;
  emit (EvOpenWrite path);;
  set_fs (<[path := File content]> fs).

(** [os.unlink] / [os.remove] *)
Definition unlink (path : string) : M unit :=
  do fs <- get_fs;
  match fs !! path with
  | Some (File _) | Some Fifo =>
      emit (EvUnlink path);; set_fs (delete path fs)
  | _ => throw (OSError path)
  end.

Definition under (d p : string) : bool :=
  String.eqb p d || startswith p (d +:+ "/").

(** [shutil.rmtree(d)]: [d] and everything below it disappear. *)
Definition rmtree (d : string) : M unit :=
  do fs <- get_fs;
  match fs !! d with
  | Some Dir =>
      emit (EvRmtree d);;
      set_fs (filter (fun kv => under d (fst kv) = false) fs)
  | _ => throw (OSError d)
  end.

Definition mkfifo (path : string) : M unit :=
  do fs <- get_fs;
  match fs !! path with
  | Some _ => throw (OSError path)
  | None => emit (EvMkfifo path);; set_fs (<[path := Fifo]> fs)
  end.

Definition isdir (path : string) : M bool :=
  do fs <- get_fs;
  ret (match fs !! path with Some Dir => true | _ => false end).

(** [os.makedirs(path)] *)
Definition makedirs (path : string) : M unit :=
  do fs <- get_fs;
  match fs !! path with
  | Some _ => throw (OSError path)
  | None => emit (EvMakedirs path);; set_fs (<[path := Dir]> fs)
  end.

(** [tempfile.mkdtemp(prefix=...)]: the directory is new. *)
Definition mkdtemp (path : string) : M string :=
  do fs <- get_fs;
  match fs !! path with
  | Some _ => throw (OSError path)
  | None => emit (EvMkdtemp path);; set_fs (<[path := Dir]> fs);; ret path
  end.

(** ** wait_backup_feedback *)

(** What one turn of the loop of [wait_backup_feedback] sees: the block
    returned by [in_stream.read(buffer_size)] and the [poll()] of each
    monitored process ([None]: still running). *)
Record observation : Type := Observation {
  obs_read : string;
  obs_hmac : option Z;
  obs_addproc : option Z;
  obs_vmproc : option Z;
  obs_streamproc : option Z
}.

(** Which of the optional process arguments are given. *)
Record procs : Type := Procs {
  has_hmac : bool;
  has_addproc : bool;
  has_vmproc : bool;
  has_streamproc : bool
}.

(** The local variables [run_count] and [run_error] ([None] or a string). *)
Record wbf_state : Type := WbfState {
  run_count : nat;
  run_error : option string
}.

Inductive wbf_turn : Type :=
| TurnReturn (v : option string)      (* the function returns [v] *)
| TurnNext (st : wbf_state).          (* back to the [while] test *)

Definition poll_step (present : bool) (retcode : option Z) (name : string)
    (st : wbf_state) : wbf_state :=
  if present then
    match retcode with
    | Some rc => if negb (rc =? 0)%Z then WbfState (run_count st) (Some name) else st
    | None => WbfState (S (run_count st)) (run_error st)
    end
  else st.

(** [vmproc] is polled but never counted: "VM should run until the end". *)
Definition poll_vm (present : bool) (retcode : option Z) (st : wbf_state) : wbf_state :=
  if present then
    match retcode with
    | Some rc => if negb (rc =? 0)%Z then WbfState (run_count st) (Some "VM") else st
    | None => st
    end
  else st.

(** The body of the [while] loop.  The second component tells whether the
    block was written to [backup_target] (and to [hmac.stdin]). *)
Definition wbf_body (p : procs) (o : observation) : wbf_turn * bool :=
  let st0 := WbfState 0 None in
  let st1 := poll_step (has_hmac p) (obs_hmac o) "hmac" st0 in
  let st2 := poll_step (has_addproc p) (obs_addproc o) "addproc" st1 in
  let st3 := poll_vm (has_vmproc p) (obs_vmproc o) st2 in
  if has_streamproc p then
    match obs_streamproc o with
    | Some rc =>
        if negb (rc =? 0)%Z then (TurnReturn (Some "streamproc"), false)
        else if String.length (obs_read o) <=? 0 then (TurnReturn (Some ""), false)
        else (TurnNext (WbfState (S (run_count st3)) (run_error st3)), true)
    | None => (TurnNext (WbfState (S (run_count st3)) (run_error st3)), true)
    end
  else
    if String.length (obs_read o) <=? 0 then (TurnReturn (Some ""), false)
    else (TurnNext st3, true).

(** What the call has written and reported when it ends. *)
Record wbf_output : Type := WbfOutput {
  out_target : string;          (* bytes written to backup_target *)
  out_progress : list nat       (* len(buffer) passed to progress_callback *)
}.

Fixpoint wbf_loop (p : procs) (obs : list observation) (st : wbf_state)
    (out : wbf_output) : option (option string) * wbf_output :=
  if (0 <? run_count st) && match run_error st with None => true | Some _ => false end then
    match obs with
    | [] => (None, out)
    | o :: obs' =>
        let out1 := WbfOutput (out_target out)
                      (out_progress out ++ [String.length (obs_read o)]) in
        match wbf_body p o with
        | (TurnReturn v, _) => (Some v, out1)
        | (TurnNext st', written) =>
            let out2 := if written
                        then WbfOutput (out_target out1 +:+ obs_read o) (out_progress out1)
                        else out1 in
            wbf_loop p obs' st' out2
        end
    end
  else (Some (run_error st), out).

(** [wait_backup_feedback]: [None] when the call has not returned after the
    given observations, otherwise its return value ([None] or a string). *)
Definition wait_backup_feedback (p : procs) (obs : list observation)
  : option (option string) * wbf_output :=
  wbf_loop p obs (WbfState 1 None) (WbfOutput "" []).

(** ** ExtractWorker *)

(** What the extraction worker observes of its children: for a chunk, the
    turns of [wait_backup_feedback] while it is fed; for the first chunk of a
    logical file, the exit status of the inner tar started for it. *)
Record extract_env : Type := ExtractEnv {
  ee_obs : string -> list observation;
  ee_tar2_wait : string -> Z
}.

Module ExtractWorker.

Record self : Type := Self {
  base_dir : string;
  passphrase : string;
  encrypted : bool;
  compressed : bool;
  crypto_algorithm : string;
  restore_pipe : string;
  tar2_process : option string;       (* the chunk that started the running tar *)
  tar2_current_file : option string
}.

Definition set_tar2 (s : self) (p cur : option string) : self :=
  Self (base_dir s) (passphrase s) (encrypted s) (compressed s)
       (crypto_algorithm s) (restore_pipe s) p cur.

(** [ExtractWorker.__init__]: runs in the caller and creates the pipe. *)
Definition init (base_dir passphrase : string) (encrypted compressed : bool)
    (crypto_algorithm : string) : M self :=
  let restore_pipe := path_join base_dir "restore_pipe" in
  mkfifo restore_pipe;;
  ret (Self base_dir passphrase encrypted compressed crypto_algorithm
            restore_pipe None None).

(** The archive member handed to the inner tar for a chunk ending in [.000]:
    [os.path.relpath(filename.rstrip('.000'))], the process having changed
    into [base_dir]. *)
Definition tar2_member (s : self) (filename : string) : result string :=
  relpath (base_dir s) (rstrip ".000" filename) ".".

Definition tar2_cmdline (s : self) (filename : string) : result (list string) :=
  match tar2_member s filename with
  | Ok member => Ok ["tar"; "-xMkf"; restore_pipe s; member]
  | Raise e => Raise e
  end.

Definition show_opt (o : option string) : string :=
  match o with Some x => x | None => "None" end.

(** The body of the [for] loop of [__run__] for one dequeued [filename]. *)
Definition step (env : extract_env) (s : self) (filename : string) : M self :=
  do s1 <- (if endswith filename ".000" then
              do s0 <- match tar2_process s with
                       | Some started =>
                           if negb (ee_tar2_wait env started =? 0)%Z then
                             throw (QubesException
                                      ("ERROR: unable to extract files for "
                                       +:+ show_opt (tar2_current_file s) +:+ "."))
                           else ret (set_tar2 s None None)
                       | None => ret s
                       end;
              do cmdline <- lift (tar2_cmdline s0 filename);
              emit (EvSpawn cmdline);;
              ret (set_tar2 s0 (Some filename) (tar2_current_file s0))
            else
              match tar2_process s with
              | Some _ => emit (EvStdin "tar2" (String "010"%char ""));; ret s
              | None => throw AttributeError
              end);
  let s2 := set_tar2 s1 (tar2_process s1) (Some filename) in
  emit (EvOpenWrite (restore_pipe s2));;
  do _ <- read_file filename;
  emit (EvOpenRead filename);;
  (if encrypted s2 then
     emit (EvSpawn (["openssl"; "enc"; "-d"; "-" +:+ crypto_algorithm s2;
                     "-pass"; "pass:" +:+ passphrase s2]
                    ++ (if compressed s2 then ["-z"] else [])))
   else if compressed s2 then emit (EvSpawn ["gzip"; "-d"])
   else ret tt);;
  match wait_backup_feedback
          (Procs false true false (encrypted s2 || compressed s2))
          (ee_obs env filename) with
  | (None, _) => blocks
  | (Some None, _) => throw TypeError
  | (Some (Some run_error), _) =>
      if 0 <? String.length run_error then
        throw (QubesException
                 ("Error while processing '" +:+ filename +:+ "': "
                  +:+ run_error +:+ " failed"))
      else unlink filename;; ret s2
  end.

(** The [for filename in iter(self.queue.get, None)] loop over the items the
    worker receives; the second component is the last value of [filename]. *)
Fixpoint loop (env : extract_env) (s : self) (items : list string)
  : M (self * string) :=
  match items with
  | [] => blocks
  | filename :: rest =>
      if String.eqb filename "FINISHED" || String.eqb filename "ERROR"
      then ret (s, filename)
      else do s' <- step env s filename; loop env s' rest
  end.

Definition __run__ (env : extract_env) (s : self) (items : list string) : M unit :=
  do r <- loop env s items;
  let '(s', filename) := r in
  unlink (restore_pipe s');;
  match tar2_process s' with
  | Some started =>
      (if String.eqb filename "ERROR" then emit (EvTerminate "tar2") else ret tt);;
      if negb (ee_tar2_wait env started =? 0)%Z then
        throw (QubesException
                 ("ERROR: unable to extract files for "
                  +:+ show_opt (tar2_current_file s') +:+ "."
                  +:+ (if negb (encrypted s') then " Perhaps the backup is encrypted?"
                       else "")))
      else ret tt
  | None => ret tt
  end.

(** [run] as seen by [join]: the exit code of the worker process. *)
Definition run (env : extract_env) (s : self) (items : list string) : M Z :=
  try_except (__run__ env s items;; ret 0%Z) (fun _ => ret 1%Z).

End ExtractWorker.

(** ** SendWorker *)

Module SendWorker.

Definition tar_final_cmd (base_dir filename : string) : list string :=
  ["tar"; "-cO"; "--posix"; "-C"; base_dir; filename].

(** The [for filename in iter(self.queue.get, None)] loop, the process having
    changed into [base_dir]; [tar_final] is the exit status of the sending
    tar for a file. *)
Fixpoint loop (tar_final : string -> Z) (base_dir : string) (items : list string)
  : M unit :=
  match items with
  | [] => blocks
  | filename :: rest =>
      if String.eqb filename "FINISHED" then ret tt
      else
        emit (EvSpawn (tar_final_cmd base_dir filename));;
        if (2 <=? tar_final filename)%Z then
          throw (QubesException
                   ("ERROR: Failed to write the backup, out of disk space? "
                    +:+ "Check console output or ~/.xsession-errors for details."))
        else
          unlink (path_join base_dir filename);;
          loop tar_final base_dir rest
  end.

(** [run] as seen by [join]: the exit code of the worker process. *)
Definition run (tar_final : string -> Z) (base_dir : string) (items : list string)
  : M Z :=
  try_except (loop tar_final base_dir items;; ret 0%Z) (fun _ => ret 1%Z).

(** [send_proc.terminate()] when the worker has taken [n] items so far. *)
Definition terminate (tar_final : string -> Z) (base_dir : string) (n : nat) : M unit :=
  do items <- get_queue;
  (fun w => (Returns tt, snd (loop tar_final base_dir (take n items) w)));;
  emit (EvTerminate "send_proc").

End SendWorker.

(** ** Arguments and environment of a backup *)

(** An entry of the plan: [{"path": ..., "size": ..., "subdir": ...}]. *)
Record fileinfo : Type := FileInfo {
  fi_path : string;
  fi_size : nat;
  fi_subdir : string
}.

Record backup_args : Type := BackupArgs {
  ba_base_backup_dir : string;
  ba_files_to_backup : list fileinfo;
  ba_passphrase : string;
  ba_progress_callback : bool;     (* [progress_callback] is not [None] *)
  ba_encrypted : bool;
  ba_appvm : bool;                 (* [appvm != None] *)
  ba_compressed : bool;
  ba_hmac_algorithm : string;
  ba_crypto_algorithm : string
}.

(** What the chunk loop observes while one chunk is produced. *)
Record chunk_env : Type := ChunkEnv {
  ce_obs : list observation;       (* the turns of wait_backup_feedback *)
  ce_tar_alive : bool              (* tar_sparse.poll() is None afterwards *)
}.

(** What a run of [backup_do] observes of its collaborators. *)
Record backup_env : Type := BackupEnv {
  be_cwd : string;                       (* os.getcwd() *)
  be_dir_exists : bool;                  (* os.path.exists(base_backup_dir) *)
  be_time : string;                      (* time.strftime("%Y-%m-%dT%H%M%S") *)
  be_tmp_suffix : string;                (* the random part chosen by mkdtemp *)
  be_header_hmac_wait : Z;               (* hmac.wait() in prepare_backup_header *)
  be_chunks : list (list chunk_env);     (* per plan entry, per chunk *)
  be_tar_final : string -> Z;            (* final_proc.wait() in SendWorker *)
  be_sent_before_terminate : nat;        (* items the worker had taken when killed *)
  be_vm_stderr : string                  (* vmproc.stderr.read(MAX_STDERR_BYTES) *)
}.

(** ** Arguments and environment of a restore *)

Record restore_args : Type := RestoreArgs {
  ra_backup_source : string;
  ra_restore_tmpdir : string;
  ra_passphrase : string;
  ra_vms_dirs : list string;
  ra_vms_size : nat;
  ra_encrypted : bool;
  ra_appvm : bool;                 (* [appvm != None] *)
  ra_compressed : bool;
  ra_hmac_algorithm : string;
  ra_crypto_algorithm : string
}.

(** What a run of [restore_vm_dirs] observes of its collaborators. *)
Record restore_env : Type := RestoreEnv {
  re_uid : string;                 (* str(os.getuid()) *)
  re_filelist : list string;       (* the lines the demultiplexer announces *)
  re_digest_algos : list string;   (* openssl list-message-digest-algorithms *)
  re_command_wait : Z;             (* command.wait() *)
  re_vmproc_wait : Z;              (* vmproc.wait() *)
  re_stderr : string;              (* stderr.read(MAX_STDERR_BYTES) *)
  re_extract : extract_env
}.

(** The local variables of [restore_vm_dirs] that the header may change. *)
Record restore_locals : Type := RestoreLocals {
  l_hmac_algorithm : string;
  l_crypto_algorithm : string;
  l_compressed : bool;
  l_encrypted : bool;
  l_nextfile : option string;
  l_expect_tar_error : bool;
  l_header_data : option (gmap string pyval)
}.

(** ** The restore side *)

Section Engine.

(** The digest tool: [openssl dgst -<algo> -hmac <passphrase>] run on [data]
    gives what it prints on stdout and on stderr. *)
Variable openssl_dgst : string -> string -> string -> string * string.

(** The name under which the module is imported ([BackupHeader.__module__]). *)
Variable module_name : string.

Definition verify_hmac (filename hmacfile passphrase algorithm : string) : M bool :=
  if negb (String.eqb hmacfile (filename +:+ ".hmac")) then
    throw (QubesException
             ("ERROR: expected hmac for " +:+ filename +:+ ", but got " +:+ hmacfile))
  else
    do chunk <- read_file filename;
    let '(hmac_stdout, hmac_stderr) := openssl_dgst algorithm passphrase chunk in
    if 0 <? String.length hmac_stderr then
      throw (QubesException ("ERROR: verify file " +:+ filename +:+ ": " +:+ hmac_stderr))
    else
      do supplied <- read_file hmacfile;
      do hmac <- lift (load_hmac supplied);
      do ok <- (if 0 <? String.length hmac
                then do computed <- lift (load_hmac hmac_stdout);
                     ret (String.eqb computed hmac)
                else ret false);
      if ok : bool then
        unlink hmacfile;;
        emit (EvVerified filename algorithm);;
        ret true
      else
        do computed <- lift (load_hmac hmac_stdout);
        throw (QubesException
                 ("ERROR: invalid hmac for file " +:+ filename +:+ ": " +:+ computed
                  +:+ ". Is the passphrase correct?")).

(** [get_supported_hmac_algo]: the values the generator yields, in order.
    [tool_lines] is the output of [openssl list-message-digest-algorithms]. *)
Definition get_supported_hmac_algo (hmac_algorithm : string)
    (tool_lines : list string) : list string :=
  (if String.eqb hmac_algorithm "" then [] else [hmac_algorithm]) ++
  map strip (filter (fun algo => contains "=>" algo = false) tool_lines).

(** [parse_backup_header(filename)] *)
Definition parse_backup_header (filename : string) : M (gmap string pyval) :=
  do content <- read_file filename;
  lift (parse_backup_header_content module_name content).


(** *** restore_vm_dirs *)

Definition is_end (name : string) : bool :=
  String.eqb name "" || String.eqb name "EOF".

(** The [for hmac_algo in get_supported_hmac_algo(...)] loop: the algorithm
    under which [verify_hmac] first returns [True], a [QubesException] moving
    on to the next candidate. *)
Fixpoint verify_header (filename hmacfile passphrase : string)
    (algos : list string) : M (option string) :=
  match algos with
  | [] => ret None
  | hmac_algo :: rest =>
      fun w =>
        match verify_hmac filename hmacfile passphrase hmac_algo w with
        | (Returns true, w') => (Returns (Some hmac_algo), w')
        | (Returns false, w') => verify_header filename hmacfile passphrase rest w'
        | (Throws (QubesException _), w') =>
            verify_header filename hmacfile passphrase rest w'
        | (Throws e, w') => (Throws e, w')
        | (Blocks, w') => (Blocks, w')
        end
  end.

Definition override_str (hd : gmap string pyval) (key cur : string) : string :=
  match hd !! key with
  | Some (PyStr s) => s
  | _ => cur
  end.

Definition override_bool (hd : gmap string pyval) (key : string) (cur : bool) : bool :=
  match hd !! key with
  | Some (PyBool b) => b
  | _ => cur
  end.

(** The block under "If want to analyze backup header, do it now". *)
Definition restore_header (args : restore_args) (env : restore_env)
  : M (restore_locals * list string) :=
  let '(filename, pipe1) := readline (re_filelist env) in
  let '(hmacfile, pipe2) := readline pipe1 in
  let '(nextfile, pipe3) := readline pipe2 in
  if is_end filename || is_end hmacfile then
    throw (QubesException
             ("Premature end of archive while receiving backup header. "
              +:+ "Process output:" +:+ String "010"%char (re_stderr env)))
  else
    let filename := path_join (ra_restore_tmpdir args) filename in
    let hmacfile := path_join (ra_restore_tmpdir args) hmacfile in
    do found <- verify_header filename hmacfile (ra_passphrase args)
                  (get_supported_hmac_algo (ra_hmac_algorithm args)
                                           (re_digest_algos env));
    match found with
    | None =>
        throw (QubesException "Corrupted backup header (hmac verification failed)")
    | Some hmac_algorithm =>
        if String.eqb (basename filename) HEADER_FILENAME then
          do hd <- parse_backup_header filename;
          unlink filename;;
          ret (RestoreLocals
                 (override_str hd BackupHeader.hmac_algorithm hmac_algorithm)
                 (override_str hd BackupHeader.crypto_algorithm (ra_crypto_algorithm args))
                 (override_bool hd BackupHeader.compressed (ra_compressed args))
                 (override_bool hd BackupHeader.encrypted (ra_encrypted args))
                 (Some nextfile) false (Some hd),
               pipe3)
        else
          put filename;;
          ret (RestoreLocals hmac_algorithm (ra_crypto_algorithm args)
                 (ra_compressed args) (ra_encrypted args)
                 (Some nextfile) (negb (ra_appvm args)) None,
               pipe3)
    end.

(** The [while True] loop reading the announced names; it returns the last
    value of [filename].  Every turn that does not leave the loop consumes at
    least one line of the pipe, so [fuel] above its length is never used up. *)
Fixpoint restore_loop (fuel : nat) (args : restore_args) (hmac_algorithm : string)
    (nextfile : option string) (pipe : list string) : M string :=
  match fuel with
  | 0 => blocks
  | S fuel' =>
      let '(filename, pipe1) :=
        match nextfile with
        | Some n => (n, pipe)
        | None => readline pipe
        end in
      if is_end filename then ret filename
      else
        let '(hmacfile, pipe2) := readline pipe1 in
        let '(nextfile', pipe3) :=
          if negb (ra_appvm args)
          then (Some (fst (readline pipe2)), snd (readline pipe2))
          else (nextfile, pipe2) in
        if is_end hmacfile then ret filename
        else if negb (existsb (fun x => startswith filename x) (ra_vms_dirs args)) then
          unlink (path_join (ra_restore_tmpdir args) filename);;
          unlink (path_join (ra_restore_tmpdir args) hmacfile);;
          restore_loop fuel' args hmac_algorithm nextfile' pipe3
        else
          do ok <- verify_hmac (path_join (ra_restore_tmpdir args) filename)
                               (path_join (ra_restore_tmpdir args) hmacfile)
                               (ra_passphrase args) hmac_algorithm;
          (if ok : bool then put (path_join (ra_restore_tmpdir args) filename)
           else ret tt);;
          restore_loop fuel' args hmac_algorithm nextfile' pipe3
  end.

Definition header_requested (args : restore_args) : bool :=
  match ra_vms_dirs args with
  | first :: _ => String.eqb first HEADER_FILENAME
  | [] => false
  end.

(** [extract_proc.join()]: the worker has consumed the queue.  The worker
    runs beside the caller, but all it does is determined by the items it
    takes from the queue, each of which was put there before it is taken; its
    steps are therefore placed here, after the last [put]. *)
Definition join_extract (env : restore_env) (worker : ExtractWorker.self) : M Z :=
  do items <- get_queue;
  ExtractWorker.run (re_extract env) worker items.

Definition restore_vm_dirs (args : restore_args) (env : restore_env)
  : M (option (gmap string pyval)) :=
  (if ra_appvm args then
     emit (EvVMRun "QUBESRPC qubes.Restore dom0");;
     emit (EvVMWrite (remove_char "010"%char (remove_char "013"%char (ra_backup_source args))
                      +:+ String "010"%char ""));;
     emit (EvVMWrite (join_with " " (ra_vms_dirs args) +:+ String "010"%char ""));;
     emit (EvSpawn ["/usr/libexec/qubes/qfile-dom0-unpacker"; re_uid env;
                    ra_restore_tmpdir args; "-v"])
   else
     emit (EvSpawn (["tar"; "-ixvf"; ra_backup_source args;
                     "-C"; ra_restore_tmpdir args] ++ ra_vms_dirs args)));;
  new_queue;;
  do hdr <- (if header_requested args then restore_header args env
             else ret (RestoreLocals (ra_hmac_algorithm args) (ra_crypto_algorithm args)
                         (ra_compressed args) (ra_encrypted args) None false None,
                       re_filelist env));
  let '(loc, pipe) := hdr in
  do extract_proc <- ExtractWorker.init (ra_restore_tmpdir args) (ra_passphrase args)
                       (l_encrypted loc) (l_compressed loc) (l_crypto_algorithm loc);
  try_except
    (do filename <- restore_loop (S (List.length pipe)) args (l_hmac_algorithm loc)
                      (l_nextfile loc) pipe;
     (if negb (re_command_wait env =? 0)%Z && negb (l_expect_tar_error loc) then
        throw (QubesException
                 ("ERROR: unable to read the qubes backup file "
                  +:+ ra_backup_source args
                  +:+ " (" +:+ fmt_z (re_command_wait env) +:+ "). "
                  +:+ "Is it really a backup?"))
      else ret tt);;
     (if ra_appvm args && negb (re_vmproc_wait env =? 0)%Z then
        throw (QubesException
                 ("ERROR: unable to read the qubes backup " +:+ ra_backup_source args
                  +:+ " because of a VM error: " +:+ re_stderr env))
      else ret tt);;
     (if negb (is_end filename) then
        throw (QubesException
                 ("Premature end of archive, the last file was " +:+ filename))
      else ret tt))
    (fun e => put "ERROR";; (do _ <- join_extract env extract_proc; throw e));;
  put "FINISHED";;
  do exitcode <- join_extract env extract_proc;
  if negb (exitcode =? 0)%Z then
    throw (QubesException
             ("ERROR: unable to extract the qubes backup. "
              +:+ "Check extracting process errors."))
  else ret (l_header_data loc).

(** ** The backup side *)

Definition NL : string := String "010"%char "".

Definition prepare_backup_header (env : backup_env)
    (target_directory passphrase : string) (compressed encrypted : bool)
    (hmac_algorithm crypto_algorithm : string) : M (string * string) :=
  let header_file_path := path_join target_directory HEADER_FILENAME in
  let content :=
    BackupHeader.hmac_algorithm +:+ "=" +:+ hmac_algorithm +:+ NL
    +:+ BackupHeader.crypto_algorithm +:+ "=" +:+ crypto_algorithm +:+ NL
    +:+ BackupHeader.encrypted +:+ "=" +:+ str_of_bool encrypted +:+ NL
    +:+ BackupHeader.compressed +:+ "=" +:+ str_of_bool compressed +:+ NL in
  write_file header_file_path content;;
  emit (EvSpawn ["openssl"; "dgst"; "-" +:+ hmac_algorithm; "-hmac"; passphrase]);;
  write_file (header_file_path +:+ ".hmac")
             (fst (openssl_dgst hmac_algorithm passphrase content));;
  if negb (be_header_hmac_wait env =? 0)%Z then
    throw (QubesException "Failed to compute hmac of header file")
  else ret (HEADER_FILENAME, HEADER_FILENAME +:+ ".hmac").

Definition total_size (files : list fileinfo) : nat :=
  fold_left (fun acc file => acc + fi_size file) files 0.

Definition tar_cmdline (backup_pipe : string) (filename : fileinfo) : list string :=
  ["tar"; "-Pc"; "--sparse";
   "-f"; backup_pipe;
   "--tape-length"; "100000";
   "-C"; dirname (fi_path filename);
   "--xform"; "s:^[^/]:" +:+ fi_subdir filename +:+ "\0:";
   basename (fi_path filename)].

(** The [while run_error == "paused"] loop for one plan entry; [i] is the
    chunk counter and [chunks] what is observed for the chunks still to come. *)
Fixpoint chunk_loop (args : backup_args) (env : backup_env)
    (backup_tmpdir backup_tempfile : string) (i : nat) (chunks : list chunk_env)
  : M unit :=
  match chunks with
  | [] => blocks
  | ce :: rest =>
      emit (EvOpenRead (path_join backup_tmpdir "backup_pipe"));;
      emit (EvSpawn ["openssl"; "dgst"; "-" +:+ ba_hmac_algorithm args;
                     "-hmac"; ba_passphrase args]);;
      let chunkfile := backup_tempfile +:+ "." +:+ fmt_03d i in
      write_file chunkfile "";;
      (if ba_encrypted args then
         emit (EvSpawn (["openssl"; "enc"; "-e"; "-" +:+ ba_crypto_algorithm args;
                         "-pass"; "pass:" +:+ ba_passphrase args]
                        ++ (if ba_compressed args then ["-z"] else [])))
       else if ba_compressed args then emit (EvSpawn ["gzip"])
       else ret tt);;
      let '(run_error, out) :=
        wait_backup_feedback
          (Procs true true (ba_appvm args) (ba_encrypted args || ba_compressed args))
          (ce_obs ce) in
      do fs <- get_fs;
      set_fs (<[chunkfile := File (out_target out)]> fs);;
      fold_right (fun n k => emit (EvComputeProgress n);; k) (ret tt) (out_progress out);;
      match run_error with
      | None => blocks
      | Some None => throw TypeError
      | Some (Some run_error) =>
          if 0 <? String.length run_error then
            SendWorker.terminate (be_tar_final env) backup_tmpdir
                                 (be_sent_before_terminate env);;
            if String.eqb run_error "VM" && ba_appvm args then
              throw (QubesException
                       ("Failed to write the backup, VM output:" +:+ NL
                        +:+ be_vm_stderr env))
            else
              throw (QubesException
                       ("Failed to perform backup: error in " +:+ run_error))
          else
            do rel <- lift (relpath (be_cwd env) chunkfile backup_tmpdir);
            put rel;;
            write_file (chunkfile +:+ ".hmac")
              (fst (openssl_dgst (ba_hmac_algorithm args) (ba_passphrase args)
                                 (out_target out)));;
            put (rel +:+ ".hmac");;
            if ce_tar_alive ce then
              emit (EvStdin "tar_sparse" NL);;
              chunk_loop args env backup_tmpdir backup_tempfile (S i) rest
            else ret tt
      end
  end.

(** The [for filename in files_to_backup] loop; [chunks] holds, entry by
    entry, what is observed of the children. *)
Fixpoint entry_loop (args : backup_args) (env : backup_env) (backup_tmpdir : string)
    (files : list fileinfo) (chunks : list (list chunk_env)) : M unit :=
  match files with
  | [] => ret tt
  | filename :: files' =>
      let backup_tempfile :=
        path_join (path_join backup_tmpdir (fi_subdir filename))
                  (basename (fi_path filename)) in
      do present <- isdir (dirname backup_tempfile);
      (if negb present then makedirs (dirname backup_tempfile) else ret tt);;
      emit (EvSpawn (tar_cmdline (path_join backup_tmpdir "backup_pipe") filename));;
      chunk_loop args env backup_tmpdir backup_tempfile 0 (hd [] chunks);;
      entry_loop args env backup_tmpdir files' (tl chunks)
  end.

Definition backup_do (args : backup_args) (env : backup_env) : M unit :=
  let total_backup_sz := total_size (ba_files_to_backup args) in
  if ba_compressed args && ba_encrypted args then
    throw (QubesException "Compressed and encrypted backups are not supported (yet).")
  else
    (if ba_appvm args then
       emit (EvVMRun "QUBESRPC qubes.Backup dom0");;
       emit (EvVMWrite (remove_char "010"%char
                          (remove_char "013"%char (ba_base_backup_dir args)) +:+ NL))
     else
       if negb (be_dir_exists env) then
         throw (QubesException
                  ("ERROR: the backup directory " +:+ ba_base_backup_dir args
                   +:+ " does not exists"))
       else write_file (ba_base_backup_dir args +:+ "/qubes-" +:+ be_time env) "");;
    (if total_backup_sz =? 0 then throw ZeroDivisionError
     else if negb (ba_progress_callback args) then throw TypeError
     else emit (EvProgress (0 * 11 / total_backup_sz)));;
    emit EvTempFile;;
    do backup_tmpdir <- mkdtemp ("/var/tmp/backup_" +:+ be_tmp_suffix env);
    mkfifo (path_join backup_tmpdir "backup_pipe");;
    do header_files <- prepare_backup_header env backup_tmpdir (ba_passphrase args)
                         (ba_compressed args) (ba_encrypted args)
                         (ba_hmac_algorithm args) (ba_crypto_algorithm args);
    new_queue;;
    put (fst header_files);;
    put (snd header_files);;
    entry_loop args env backup_tmpdir (ba_files_to_backup args) (be_chunks env);;
    put "FINISHED";;
    do items <- get_queue;
    do exitcode <- SendWorker.run (be_tar_final env) backup_tmpdir items;
    if negb (exitcode =? 0)%Z then
      throw (QubesException "Failed to send backup: error in the sending process")
    else
      (if ba_appvm args then emit EvVMClose else ret tt);;
      rmtree backup_tmpdir.

(** ** Restoring: backup_restore_do *)

(** An entry of [restore_info] other than ['$OPTIONS$'] and ['dom0']. *)
Record vm_info : Type := VmInfo {
  vi_has_vm : bool;                (* ['vm' in vm_info] *)
  vi_good_to_go : bool;
  vi_backup_size : nat;            (* vm.backup_size *)
  vi_backup_path : string          (* vm.backup_path *)
}.

(** [restore_info]: the options, the VM entries and the ['dom0'] entry
    (good-to-go, size) when present. *)
Record restore_info : Type := RestoreInfo {
  ri_location : string;
  ri_restore_tmpdir : string;
  ri_passphrase : string;
  ri_encrypted : bool;
  ri_compressed : bool;
  ri_hmac_algorithm : string;
  ri_crypto_algorithm : string;
  ri_appvm : bool;
  ri_format_version : option nat;
  ri_entries : list vm_info;
  ri_dom0 : option (bool * nat)
}.

(** What [backup_restore_do] observes: whether the location holds a
    [qubes.xml] (format version 1), the restore environment, and the steps the
    inventory and the home-directory merge perform on the file system after
    extraction (they may move entries out of the working directory, and may
    fail). *)
Record restore_do_env : Type := RestoreDoEnv {
  rd_has_qubes_xml : bool;
  rd_restore : restore_env;
  rd_reconcile : gmap string node -> result (gmap string node)
}.

Definition backup_detect_format_version (env : restore_do_env) : nat :=
  if rd_has_qubes_xml env then 1 else 2.

Definition backup_restore_do (info : restore_info) (env : restore_do_env) : M unit :=
  let format_version :=
    match ri_format_version info with
    | Some v => v
    | None => backup_detect_format_version env
    end in
  let selected :=
    filter (fun vi => vi_has_vm vi && vi_good_to_go vi = true) (ri_entries info) in
  let vms_dirs := if format_version =? 2 then map vi_backup_path selected else [] in
  let vms_size :=
    if format_version =? 2
    then fold_left (fun acc vi => acc + vi_backup_size vi) selected 0 else 0 in
  (if format_version =? 2 then
     let '(vms_dirs, vms_size) :=
       match ri_dom0 info with
       | Some (true, size) => (vms_dirs ++ ["dom0-home"], vms_size + size)
       | _ => (vms_dirs, vms_size)
       end in
     do _ <- restore_vm_dirs
               (RestoreArgs (ri_location info) (ri_restore_tmpdir info)
                  (ri_passphrase info) vms_dirs vms_size (ri_encrypted info)
                  (ri_appvm info) (ri_compressed info) (ri_hmac_algorithm info)
                  (ri_crypto_algorithm info))
               (rd_restore env);
     ret tt
   else ret tt);;
  do fs <- get_fs;
  do fs' <- lift (rd_reconcile env fs);
  set_fs fs';;
  rmtree (ri_restore_tmpdir info).

End Engine.

(** ** Planning: file_to_backup and backup_prepare *)

(** The attributes of a VM of the inventory that [backup_prepare] reads. *)
Record vm : Type := Vm {
  vm_qid : nat;
  vm_name : string;
  vm_include_in_backups : bool;
  vm_internal : bool;
  vm_installed_by_rpm : bool;
  vm_is_appvm : bool;
  vm_is_netvm : bool;
  vm_is_template : bool;
  vm_updateable : bool;
  vm_is_running : bool;
  vm_private_img : option string;
  vm_icon_path : string;
  vm_dir_path : string;
  vm_firewall_conf : string;
  vm_root_img : string;
  vm_disk_utilization : nat
}.

(** What [backup_prepare] observes of the host. *)
Record prepare_env : Type := PrepareEnv {
  pe_cwd : string;
  pe_qubes_base_dir : string;            (* system_path["qubes_base_dir"] *)
  pe_qubes_store_filename : string;      (* system_path["qubes_store_filename"] *)
  pe_appmenus_whitelist : option string; (* vm_files['appmenus_whitelist'] *)
  pe_exists : string -> bool;            (* os.path.exists *)
  pe_disk_usage : string -> nat;         (* get_disk_usage *)
  pe_collection : list vm;               (* qvm_collection.values() *)
  pe_home_dir : string                   (* home of the first member of group qubes *)
}.

Definition file_to_backup (env : prepare_env) (file_path : string)
    (subdir : option string) : result (list fileinfo) :=
  let sz := pe_disk_usage env file_path in
  match subdir with
  | None =>
      let abs_file_path := abspath (pe_cwd env) file_path in
      let abs_base_dir := abspath (pe_cwd env) (pe_qubes_base_dir env) +:+ "/" in
      let abs_file_dir := dirname abs_file_path +:+ "/" in
      let '(nothing, dir, subdir) := partition abs_base_dir abs_file_dir in
      if negb (String.eqb nothing "") then Raise (AssertionError "")
      else if negb (String.eqb dir abs_base_dir) then Raise (AssertionError "")
      else Ok [FileInfo file_path sz subdir]
  | Some subdir =>
      let subdir :=
        if (0 <? String.length subdir) && negb (endswith subdir "/")
        then subdir +:+ "/" else subdir in
      Ok [FileInfo file_path sz subdir]
  end.

(** The test of the final assertion of [backup_prepare]:
    [len(subdir) == 0 or subdir[-1] == '/']. *)
Definition subdir_ok (subdir : string) : bool :=
  (String.length subdir =? 0) || endswith subdir "/".

(** [files_to_backup += file_to_backup(path, subdir)] when [cond] holds. *)
Definition add_file (env : prepare_env) (cond : bool) (path : string)
    (subdir : option string) (files : list fileinfo) : result (list fileinfo) :=
  if cond then rbind (file_to_backup env path subdir) (fun l => Ok (files ++ l))
  else Ok files.

(** The files of one VM that is neither a template nor dom0. *)
Definition vm_files_to_backup (env : prepare_env) (hide_vm_names : bool) (v : vm)
    (files : list fileinfo) : result (list fileinfo) :=
  let subdir := if hide_vm_names then Some ("vm" +:+ fmt_d (vm_qid v) +:+ "/") else None in
  let d := vm_dir_path v in
  rbind (match vm_private_img v with
         | Some img => add_file env true img subdir files
         | None => Ok files
         end) (fun files =>
  rbind (add_file env (vm_is_appvm v) (vm_icon_path v) subdir files) (fun files =>
  rbind (add_file env (vm_updateable v && pe_exists env (d +:+ "/apps.templates"))
           (d +:+ "/apps.templates") subdir files) (fun files =>
  rbind (add_file env (vm_updateable v && negb (pe_exists env (d +:+ "/apps.templates")))
           (d +:+ "/apps") subdir files) (fun files =>
  rbind (add_file env (vm_updateable v && pe_exists env (d +:+ "/kernels"))
           (d +:+ "/kernels") subdir files) (fun files =>
  rbind (add_file env (pe_exists env (vm_firewall_conf v))
           (vm_firewall_conf v) subdir files) (fun files =>
  rbind (match pe_appmenus_whitelist env with
         | Some name => add_file env (pe_exists env (path_join d name))
                          (path_join d name) subdir files
         | None => Ok files
         end) (fun files =>
  add_file env (vm_updateable v) (vm_root_img v) subdir files))))))).

Fixpoint plain_vms_loop (env : prepare_env) (hide_vm_names : bool) (vms : list vm)
    (files : list fileinfo) : result (list fileinfo) :=
  match vms with
  | [] => Ok files
  | v :: vms' =>
      if vm_is_template v || (vm_qid v =? 0)
      then plain_vms_loop env hide_vm_names vms' files
      else rbind (vm_files_to_backup env hide_vm_names v files)
                 (plain_vms_loop env hide_vm_names vms')
  end.

Fixpoint template_vms_loop (env : prepare_env) (hide_vm_names : bool) (vms : list vm)
    (files : list fileinfo) : result (list fileinfo) :=
  match vms with
  | [] => Ok files
  | v :: vms' =>
      if negb (vm_is_template v) || (vm_qid v =? 0)
      then template_vms_loop env hide_vm_names vms' files
      else
        rbind (if hide_vm_names then Ok ("vm" +:+ fmt_d (vm_qid v) +:+ "/")
               else rbind (relpath (pe_cwd env) (vm_dir_path v) (pe_qubes_base_dir env))
                          (fun r => Ok (r +:+ "/")))
              (fun template_subdir =>
                 template_vms_loop env hide_vm_names vms'
                   (files ++ [FileInfo (vm_dir_path v +:+ "/.") (vm_disk_utilization v)
                                       template_subdir]))
  end.

(** [backup_prepare].  The [AssertionError] carries the fixed part of the
    message of the [assert]; what follows it in the source, [str(fileinfo)],
    is the text Python gives a dict and is left out. *)
Definition backup_prepare (env : prepare_env) (vms_list : option (list vm))
    (exclude_list : list string) (hide_vm_names : bool) : result (list fileinfo) :=
  rbind (file_to_backup env (pe_qubes_store_filename env) None) (fun files_to_backup =>
  rbind (match vms_list with
         | Some l => Ok l
         | None =>
             let selected_vms := filter (fun v => vm_include_in_backups v = true)
                                        (pe_collection env) in
             match List.find (fun v => vm_qid v =? 0) (pe_collection env) with
             | None => Raise KeyError
             | Some dom0 =>
                 Ok (filter (fun v => vm_is_appvm v && negb (vm_internal v) = true) selected_vms
                     ++ filter (fun v => vm_is_netvm v && negb (vm_qid v =? 0) = true) selected_vms
                     ++ filter (fun v => vm_is_template v && negb (vm_installed_by_rpm v) = true)
                               selected_vms
                     ++ [dom0])
             end
         end) (fun vms_list =>
  let vms_for_backup :=
    match exclude_list with
    | [] => vms_list
    | _ => filter (fun v => negb (str_in (vm_name v) exclude_list) = true) vms_list
    end in
  rbind (plain_vms_loop env hide_vm_names vms_for_backup files_to_backup) (fun files_to_backup =>
  rbind (template_vms_loop env hide_vm_names vms_for_backup files_to_backup) (fun files_to_backup =>
  let files_to_backup :=
    if existsb (fun v => vm_qid v =? 0) vms_for_backup
    then files_to_backup
         ++ [FileInfo (pe_home_dir env) (pe_disk_usage env (pe_home_dir env)) "dom0-home/"]
    else files_to_backup in
  let there_are_running_vms :=
    existsb (fun v => negb (vm_qid v =? 0) && vm_is_running v) vms_for_backup in
  if there_are_running_vms then
    Raise (QubesException "Please shutdown all VMs before proceeding.")
  else if forallb (fun fileinfo => subdir_ok (fi_subdir fileinfo)) files_to_backup
  then Ok files_to_backup
  else Raise (AssertionError "'subdir' must ends with a '/'"))))).

(** ** A stand-in digest tool

    Used to run the engine on concrete inputs: its output has the shape of
    [openssl dgst] output, [HMAC-<ALGO>(stdin)= <digest>], the digest being
    a token that depends on the algorithm, the passphrase and the data. *)
Definition toy_dgst (algo pass data : string) : string * string :=
  ("HMAC-" +:+ algo +:+ "(stdin)= " +:+ algo +:+ ":" +:+ pass +:+ ":" +:+ data, "").

(** ** Sample inputs

    Concrete arguments and environments on which the engine is run below. *)

(** The name under which [core/backup.py] is installed and imported. *)
Definition installed_module_name : string := "qubes.backup".

(** A turn in which the read returns a block and everything is running. *)
Definition obs_block (data : string) : observation :=
  Observation data None None None None.

(** A turn in which the read returns nothing and the archiver has exited
    with status 0. *)
Definition obs_done : observation :=
  Observation "" None (Some 0%Z) None None.

(** A turn in which the read returns nothing while the stream producer is
    still running. *)
Definition obs_idle : observation :=
  Observation "" None None None None.

(** A turn in which the stream producer is found to have failed. *)
Definition obs_stream_failed : observation :=
  Observation "" None None None (Some 1%Z).

Definition sample_worker : ExtractWorker.self :=
  ExtractWorker.Self "/var/tmp/restore_x" "pw" false false "aes-256-cbc"
    "/var/tmp/restore_x/restore_pipe" None None.

(** The four option names [parse_backup_header] is meant to accept. *)
Definition header_options : list string :=
  [BackupHeader.encrypted; BackupHeader.compressed;
   BackupHeader.crypto_algorithm; BackupHeader.hmac_algorithm].

(** The value recorded for a recognised key. *)
Definition header_value (key value : string) : pyval :=
  if str_in key BackupHeader.bool_options
  then PyBool (str_in (lower value) ["1"; "true"; "yes"])
  else PyStr value.

Definition sample_backup_args : backup_args :=
  BackupArgs "/backups"
    [FileInfo "/var/lib/qubes/appvms/work/private.img" 10 "vm1/"]
    "pw" true true false true "SHA1" "aes-256-cbc".

Definition sample_backup_env : backup_env :=
  BackupEnv "/" true "2014-01-01T000000" "abc" 0
    [[ChunkEnv [obs_block "hello"; obs_done] false]]
    (fun _ => 0%Z) 0 "".

(** ** The HMAC gate, as a property of the log *)

Definition is_sentinel (item : string) : bool :=
  String.eqb item "FINISHED" || String.eqb item "ERROR".

(** The chunk an event hands towards extraction, if any: the name put on
    the queue, or the chunk file opened as input of the
    decrypt/decompress/extract chain. *)
Definition chunk_of (ev : event) : option string :=
  match ev with
  | EvPut item => if is_sentinel item then None else Some item
  | EvOpenRead path => Some path
  | _ => None
  end.

(** [verify_hmac] has returned [True] for [f] somewhere in [log]. *)
Definition verified_in (log : list event) (f : string) : bool :=
  existsb (fun ev => match ev with
                     | EvVerified g _ => String.eqb f g
                     | _ => false
                     end) log.

(** Whatever is handed towards extraction was verified earlier. *)
Definition gated (log : list event) : Prop :=
  forall l1 ev l2 f,
    log = l1 ++ ev :: l2 -> chunk_of ev = Some f -> verified_in l1 f = true.

(** The invariant of a restore: the log is gated and the queue holds only
    verified chunks and sentinels. *)
Definition gate_inv (w : world) : Prop :=
  gated (w_log w) /\
  Forall (fun item => is_sentinel item = true \/ verified_in (w_log w) item = true)
         (w_queue w).

(** The log only grows. *)
Definition extends (w w' : world) : Prop :=
  exists evs, w_log w' = w_log w ++ evs.

(** From a world satisfying the invariant and [P], [m] ends in a world
    satisfying the invariant, and [Q] when it returns. *)
Definition triple {A} (P : world -> Prop) (m : M A) (Q : A -> world -> Prop) : Prop :=
  forall w, gate_inv w -> P w ->
    match m w with
    | (Returns a, w') => gate_inv w' /\ extends w w' /\ Q a w'
    | (_, w') => gate_inv w' /\ extends w w'
    end.

(** A computation that hands nothing towards extraction. *)
Definition quiet {A} (m : M A) : Prop :=
  triple (fun _ => True) m (fun _ _ => True).

(** A property of the world that only depends on the log having grown. *)
Definition stable (P : world -> Prop) : Prop :=
  forall w w', extends w w' -> P w -> P w'.

(** [item] may be put on the queue. *)
Definition may_extract (log : list event) (item : string) : Prop :=
  is_sentinel item = true \/ verified_in log item = true.

Definition sample_chunk : string := "/var/tmp/restore_x/vm1/private.img.000".

(** A working directory holding one chunk and the HMAC file the stand-in
    digest tool gives for it under [SHA1] and the passphrase [pw]. *)
Definition sample_restore_fs : gmap string node :=
  <["/var/tmp/restore_x" := Dir]>
  (<[sample_chunk := File "data"]>
  (<[sample_chunk +:+ ".hmac" := File (fst (toy_dgst "SHA1" "pw" "data"))]> ∅)).

(** Whether [verify_hmac] returns [True] for the pair under [algorithm]. *)
Definition verifies (dgst : string -> string -> string -> string * string)
    (filename hmacfile passphrase : string) (w : world) (algorithm : string) : bool :=
  match verify_hmac dgst filename hmacfile passphrase algorithm w with
  | (Returns true, _) => true
  | _ => false
  end.

(** The first two names the demultiplexer announces. *)
Definition announced_header (env : restore_env) : string * string :=
  (fst (readline (re_filelist env)),
   fst (readline (snd (readline (re_filelist env))))).

(** A header that declares [SHA512] while its own HMAC file was made with
    [SHA1], followed by the inventory chunk authenticated with [SHA512]. *)
Definition sample_header : string :=
  "hmac-algorithm=SHA512" +:+ NL +:+ "encrypted=False" +:+ NL.

Definition sample_header_fs : gmap string node :=
  <["/var/tmp/restore_x" := Dir]>
  (<["/var/tmp/restore_x/backup-header" := File sample_header]>
  (<["/var/tmp/restore_x/backup-header.hmac"
     := File (fst (toy_dgst "SHA1" "pw" sample_header))]>
  (<["/var/tmp/restore_x/qubes.xml.000" := File "xml"]>
  (<["/var/tmp/restore_x/qubes.xml.000.hmac"
     := File (fst (toy_dgst "SHA512" "pw" "xml"))]> ∅)))).

Definition sample_extract_env : extract_env :=
  ExtractEnv (fun _ => [obs_block "xml"; obs_done]) (fun _ => 0%Z).

Definition sample_header_env : restore_env :=
  RestoreEnv "1000"
    ["backup-header" +:+ NL; "backup-header.hmac" +:+ NL;
     "qubes.xml.000" +:+ NL; "qubes.xml.000.hmac" +:+ NL]
    ["MD5" +:+ NL; "md5 => MD5" +:+ NL; "SHA1" +:+ NL; "SHA512" +:+ NL]
    0 0 "" sample_extract_env.

Definition sample_header_args : restore_args :=
  RestoreArgs "/backups/qubes-2014-01-01T000000" "/var/tmp/restore_x" "pw"
    ["backup-header"; "backup-header.hmac"; "qubes.xml.000"; "qubes.xml.000.hmac"]
    1000 false false false "SHA1" "aes-256-cbc".

(** ** The two operations and their working directory *)

Inductive operation : Type :=
| OpBackup (args : backup_args) (env : backup_env)
| OpRestore (info : restore_info) (env : restore_do_env).

Definition run_operation (dgst : string -> string -> string -> string * string)
    (module_name : string) (op : operation) : M unit :=
  match op with
  | OpBackup args env => backup_do dgst args env
  | OpRestore info env => backup_restore_do dgst module_name info env
  end.

(** The backup temp dir created by [backup_do], resp. the restore temp dir
    handed to [backup_restore_do]. *)
Definition working_directory (op : operation) : string :=
  match op with
  | OpBackup _ env => "/var/tmp/backup_" +:+ be_tmp_suffix env
  | OpRestore info _ => ri_restore_tmpdir info
  end.

(** A plain (neither compressed nor encrypted) backup of one file. *)
Definition sample_plain_args : backup_args :=
  BackupArgs "/backups"
    [FileInfo "/var/lib/qubes/appvms/work/private.img" 10 "vm1/"]
    "pw" true false false false "SHA1" "aes-256-cbc".

(** The archiver dies with status 2 while the first chunk is written: the
    second read still returns a byte. *)
Definition sample_failing_backup_env : backup_env :=
  BackupEnv "/" true "2014-01-01T000000" "abc" 0
    [[ChunkEnv [obs_block "hello"; Observation "!" None (Some 2%Z) None None] false]]
    (fun _ => 0%Z) 0 "".

(** The chunk of [sample_restore_fs] with one byte changed. *)
Definition sample_tampered_fs : gmap string node :=
  <[sample_chunk := File "dat4"]> sample_restore_fs.

Definition sample_restore_env : restore_env :=
  RestoreEnv "1000"
    ["vm1/private.img.000" +:+ NL; "vm1/private.img.000.hmac" +:+ NL]
    ["SHA1" +:+ NL] 0 0 ""
    (ExtractEnv (fun _ => [obs_block "data"; obs_done]) (fun _ => 0%Z)).

Definition sample_restore_info : restore_info :=
  RestoreInfo "/backups/qubes-2014-01-01T000000" "/var/tmp/restore_x" "pw"
    false false "SHA1" "aes-256-cbc" false (Some 2)
    [VmInfo true true 10 "vm1"] None.

(** After extraction the inventory moves nothing and does not fail. *)
Definition sample_restore_do_env : restore_do_env :=
  RestoreDoEnv false sample_restore_env (fun fs => Ok fs).

(** A plan whose only entry has a subdir that is neither empty nor ends
    with a separator. *)
Definition sample_bad_subdir_args : backup_args :=
  BackupArgs "/backups"
    [FileInfo "/var/lib/qubes/appvms/work/private.img" 10 "vm1"]
    "pw" true false false false "SHA1" "aes-256-cbc".

Definition sample_dom0 : vm :=
  Vm 0 "dom0" true false false false true false false true None "" "" "" "" 0.

Definition sample_work_vm : vm :=
  Vm 1 "work" true false false true false false false false
     (Some "/var/lib/qubes/appvms/work/private.img")
     "/var/lib/qubes/appvms/work/icon.png"
     "/var/lib/qubes/appvms/work"
     "/var/lib/qubes/appvms/work/firewall.xml"
     "/var/lib/qubes/appvms/work/root.img" 10.

Definition sample_prepare_env : prepare_env :=
  PrepareEnv "/" "/var/lib/qubes" "/var/lib/qubes/qubes.xml" (Some "whitelisted-appmenus.list")
    (fun path => String.eqb path "/var/lib/qubes/appvms/work/firewall.xml")
    (fun _ => 10)
    [sample_dom0; sample_work_vm] "/home/user".

(** A computation that never waits for ever. *)
Definition never_blocks {A} (m : M A) : Prop :=
  forall w, fst (m w) <> Blocks.

(** ** Tokens

    A string without white space and without ['=']: what an algorithm name
    must be for the header line that carries it to be read back. *)
Fixpoint token_ok (s : string) : bool :=
  match s with
  | EmptyString => true
  | String c s' => negb (isspace c) && negb (Ascii.eqb c "="%char) && token_ok s'
  end.

(** The header record a backup writes, as [parse_backup_header] returns it. *)
Definition written_header (hmac_algorithm crypto_algorithm : string)
    (encrypted compressed : bool) : gmap string pyval :=
  <[BackupHeader.compressed := PyBool compressed]>
  (<[BackupHeader.encrypted := PyBool encrypted]>
  (<[BackupHeader.crypto_algorithm := PyStr crypto_algorithm]>
  (<[BackupHeader.hmac_algorithm := PyStr hmac_algorithm]> ∅))).

(** The four lines [prepare_backup_header] writes to the header file. *)
Definition written_header_content (hmac_algorithm crypto_algorithm : string)
    (encrypted compressed : bool) : string :=
  BackupHeader.hmac_algorithm +:+ "=" +:+ hmac_algorithm +:+ NL
  +:+ BackupHeader.crypto_algorithm +:+ "=" +:+ crypto_algorithm +:+ NL
  +:+ BackupHeader.encrypted +:+ "=" +:+ str_of_bool encrypted +:+ NL
  +:+ BackupHeader.compressed +:+ "=" +:+ str_of_bool compressed +:+ NL.

(** A working directory holding the header of a backup made with [SHA512]
    and the passphrase [pw], and the HMAC file the stand-in tool gives for it. *)
Definition sample_written_fs : gmap string node :=
  <["/var/tmp/restore_x" := Dir]>
  (<["/var/tmp/restore_x/backup-header"
     := File (written_header_content "SHA512" "aes-256-cbc" true false)]>
  (<["/var/tmp/restore_x/backup-header.hmac"
     := File (fst (toy_dgst "SHA512" "pw"
                     (written_header_content "SHA512" "aes-256-cbc" true false)))]> ∅)).

(** Whether a process was polled in the turn [o] with an exit status other
    than 0. *)
Definition failed (present : bool) (retcode : option Z) : bool :=
  present && match retcode with Some rc => negb (rc =? 0)%Z | None => false end.

(** The process called [name] was given to [wait_backup_feedback] and its
    [poll()] gave a status other than 0 in the turn [o]. *)
Definition reports (p : procs) (o : observation) (name : string) : bool :=
  String.eqb name "hmac" && failed (has_hmac p) (obs_hmac o)
  || String.eqb name "addproc" && failed (has_addproc p) (obs_addproc o)
  || String.eqb name "VM" && failed (has_vmproc p) (obs_vmproc o)
  || String.eqb name "streamproc" && failed (has_streamproc p) (obs_streamproc o).

(** The blocks returned by the reads of the turns [obs], one after the
    other. *)
Definition blocks_read (obs : list observation) : string :=
  fold_right (fun o acc => obs_read o +:+ acc) "" obs.

(** A restore through a VM whose demultiplexer announces the header, its
    HMAC file and nothing else. *)
Definition sample_vm_restore_args : restore_args :=
  RestoreArgs "/backups/qubes-2014-01-01T000000" "/var/tmp/restore_x" "pw"
    ["backup-header"; "backup-header.hmac"; "qubes.xml.000"; "qubes.xml.000.hmac"]
    1000 false true false "SHA512" "aes-256-cbc".

Definition sample_vm_restore_env : restore_env :=
  RestoreEnv "1000"
    ["backup-header" +:+ NL; "backup-header.hmac" +:+ NL]
    ["SHA1" +:+ NL; "SHA512" +:+ NL]
    0 0 "" sample_extract_env.

(** The names [names], each followed by the name of its HMAC file. *)
Fixpoint with_hmac (names : list string) : list string :=
  match names with
  | [] => []
  | name :: rest => name :: (name +:+ ".hmac") :: with_hmac rest
  end.

(** A computation that, when it returns, has put nothing on the queue. *)
Definition keeps_queue {A} (m : M A) : Prop :=
  forall w a w', m w = (Returns a, w') -> w_queue w' = w_queue w.

(** Whether every character of [s] is a decimal digit. *)
Definition is_digit (c : ascii) : bool :=
  (48 <=? nat_of_ascii c) && (nat_of_ascii c <=? 57).

Fixpoint all_digits (s : string) : bool :=
  match s with
  | EmptyString => true
  | String c s' => is_digit c && all_digits s'
  end.

(** The name of the chunk number [i] of the archive of a plan entry, as
    [backup_do] builds it: ["%s.%03d" % (backup_tempfile, i)]. *)
Definition chunk_name (backup_tempfile : string) (i : nat) : string :=
  backup_tempfile +:+ "." +:+ fmt_03d i.

(** What is observed while a plan entry is written in two chunks: the
    archiver pauses at the end of the first and exits at the end of the
    second. *)
Definition sample_two_chunks : list chunk_env :=
  [ChunkEnv [obs_block "hello"; obs_idle] true;
   ChunkEnv [obs_block "world"; obs_done] false].

(** A working directory in which the worker's pipe exists and the verified
    inventory chunk waits; and what is left of it once the worker is done. *)
Definition sample_extract_fs : gmap string node :=
  <["/var/tmp/restore_x" := Dir]>
  (<["/var/tmp/restore_x/restore_pipe" := Fifo]>
  (<["/var/tmp/restore_x/qubes.xml.000" := File "xml"]> ∅)).

(** ** get_disk_usage *)

(** The longest prefix of decimal digits, and what follows it. *)
Fixpoint span_digits (s : string) : string * string :=
  match s with
  | EmptyString => (EmptyString, EmptyString)
  | String c s' =>
      if is_digit c
      then let '(digits, rest) := span_digits s' in (String c digits, rest)
      else (EmptyString, s)
  end.

(** [int(digits)] for a string of decimal digits. *)
Definition int_of_digits (digits : string) : nat :=
  match NilEmpty.uint_of_string digits with
  | Some d => Nat.of_uint d
  | None => 0
  end.

(** [get_disk_usage(file_or_dir)]: [path_exists] is [os.path.exists] of the
    argument and [du_stdout] what [du -s --block-size=1] prints for it.  The
    pattern [^(\d+)\s.*] matches when one or more digits are followed by a
    white-space character; the group is then the whole run of digits. *)
Definition get_disk_usage (path_exists : bool) (du_stdout : string) : nat :=
  if negb path_exists then 0
  else
    let '(digits, rest) := span_digits du_stdout in
    match digits, rest with
    | String _ _, String c _ => if isspace c then int_of_digits digits else 0
    | _, _ => 0
    end.

(** ** Checking what can be restored *)

(** [backup_restore_set_defaults(options)] *)
Definition set_default (key : string) (v : pyval) (options : gmap string pyval)
  : gmap string pyval :=
  match options !! key with
  | Some _ => options
  | None => <[key := v]> options
  end.

Definition backup_restore_set_defaults (options : gmap string pyval)
  : gmap string pyval :=
  set_default "replace-template" (PyList [])
  (set_default "dom0-home" (PyBool true)
  (set_default "use-default-template" (PyBool false)
  (set_default "use-none-netvm" (PyBool false)
  (set_default "use-default-netvm" (PyBool false) options)))).

(** The truth value of a Python value in an [if]. *)
Definition truthy (v : pyval) : bool :=
  match v with
  | PyNone => false
  | PyStr s => negb (String.eqb s "")
  | PyBool b => b
  | PyList l => match l with [] => false | _ => true end
  end.

(** What [restore_info_verify] reads of a VM of the host. *)
Record host_vm : Type := HostVm {
  hv_is_template : bool;
  hv_is_netvm : bool
}.

(** The host's collection: [get_vm_by_name], and the names of the VMs that
    [get_default_template()] and [get_default_netvm()] return ([None] when
    they return [None]). *)
Record host_collection : Type := HostCollection {
  get_vm_by_name : string -> option host_vm;
  get_default_template : option string;
  get_default_netvm : option string
}.

(** The VM object of the backup's collection kept under ['vm']. *)
Record backup_vm : Type := BackupVm {
  bvm_is_template : bool;
  bvm_is_netvm : bool;
  bvm_uses_default_netvm : bool
}.

(** A [vm_info] dict.  The four flags are keys that are present (with the
    value [True]) or absent; ['good-to-go'] is absent before the first
    check. *)
Record vm_entry : Type := VmEntry {
  e_vm : backup_vm;
  e_template : option string;
  e_netvm : option string;
  e_orig_template : option string;
  e_excluded : bool;
  e_already_exists : bool;
  e_missing_template : bool;
  e_missing_netvm : bool;
  e_good_to_go : option bool
}.

(** The dict [restore_info]: the options under ['$OPTIONS$'], the entries of
    the VMs in the order the dict yields their keys, and whether there is a
    ['dom0'] entry (which has no ['vm'] key). *)
Record vms_to_restore : Type := VmsToRestore {
  vr_options : gmap string pyval;
  vr_entries : list (string * vm_entry);
  vr_has_dom0 : bool
}.

Definition lookup_entry (name : string) (entries : list (string * vm_entry))
  : option vm_entry :=
  option_map snd (List.find (fun p => String.eqb (fst p) name) entries).

(** [vm_info[...] = ...] on the dict that [restore_info] holds under [name]. *)
Definition set_entry (name : string) (e : vm_entry) (info : vms_to_restore)
  : vms_to_restore :=
  VmsToRestore (vr_options info)
    (map (fun p => if String.eqb (fst p) name then (fst p, e) else p) (vr_entries info))
    (vr_has_dom0 info).

Definition is_special (name : string) : bool :=
  String.eqb name "$OPTIONS$" || String.eqb name "dom0".

(** [name in restore_info.keys() and restore_info[name]['vm'].<kind>()] *)
Definition in_backup (info : vms_to_restore) (name : string)
    (kind : backup_vm -> bool) : result bool :=
  if String.eqb name "$OPTIONS$" then
    match vr_options info !! "vm" with
    | None => Raise KeyError
    | Some _ => Raise AttributeError
    end
  else if String.eqb name "dom0" && vr_has_dom0 info then Raise KeyError
  else match lookup_entry name (vr_entries info) with
       | Some e => Ok (kind (e_vm e))
       | None => Ok false
       end.

(** [options[key]] taken as a condition. *)
Definition option_set (options : gmap string pyval) (key : string) : result bool :=
  match options !! key with
  | Some v => Ok (truthy v)
  | None => Raise KeyError
  end.

(** The "check template" block: the new values of ['template'] and
    ['orig-template'], and whether ['missing-template'] is set. *)
Definition check_template (info : vms_to_restore) (hc : host_collection)
    (e : vm_entry) : result (option string * option string * bool) :=
  match e_template e with
  | None => Ok (e_template e, e_orig_template e, false)
  | Some template_name =>
      if String.eqb template_name "" then Ok (e_template e, e_orig_template e, false)
      else if match get_vm_by_name hc template_name with
              | Some host_template => hv_is_template host_template
              | None => false
              end
      then Ok (e_template e, e_orig_template e, false)
      else
        rbind (in_backup info template_name bvm_is_template) (fun found =>
        if found : bool then Ok (e_template e, e_orig_template e, false)
        else
          rbind (option_set (vr_options info) "use-default-template") (fun use_default =>
          if use_default : bool then
            match get_default_template hc with
            | Some default => 
                Ok (Some default,
                    match e_orig_template e with
                    | Some orig => Some orig
                    | None => Some template_name
                    end,
                    false)
            | None => Raise AttributeError
            end
          else Ok (e_template e, e_orig_template e, true)))
  end.

(** The "check netvm" block: the new value of ['netvm'], of
    [vm.uses_default_netvm], and whether ['missing-netvm'] is set. *)
Definition check_netvm (info : vms_to_restore) (hc : host_collection)
    (e : vm_entry) : result (option string * bool * bool) :=
  let unchanged := (e_netvm e, bvm_uses_default_netvm (e_vm e), false) in
  match e_netvm e with
  | None => Ok unchanged
  | Some netvm_name =>
      if String.eqb netvm_name "" then Ok unchanged
      else if match get_vm_by_name hc netvm_name with
              | Some netvm_on_host => hv_is_netvm netvm_on_host
              | None => false
              end
      then Ok unchanged
      else
        rbind (in_backup info netvm_name bvm_is_netvm) (fun found =>
        if found : bool then Ok unchanged
        else
          rbind (option_set (vr_options info) "use-default-netvm") (fun use_default =>
          if use_default : bool then
            match get_default_netvm hc with
            | Some default => Ok (Some default, true, false)
            | None => Raise AttributeError
            end
          else
            rbind (option_set (vr_options info) "use-none-netvm") (fun use_none =>
            if use_none : bool
            then Ok (None, bvm_uses_default_netvm (e_vm e), false)
            else Ok (e_netvm e, bvm_uses_default_netvm (e_vm e), true))))
  end.

(** The body of the loop of [restore_info_verify] for the key [vm]. *)
Definition verify_entry (info : vms_to_restore) (hc : host_collection)
    (vm : string) (e : vm_entry) : result vm_entry :=
  rbind (match vr_options info !! "exclude" with
         | None => Ok false
         | Some (PyList l) => Ok (str_in vm l)
         | Some (PyStr s) => Ok (contains vm s)
         | Some _ => Raise TypeError
         end) (fun excluded =>
  let already_exists :=
    match get_vm_by_name hc vm with Some _ => true | None => false end in
  rbind (check_template info hc e) (fun t =>
  let '(template, orig_template, missing_template) := t in
  rbind (check_netvm info hc e) (fun n =>
  let '(netvm, uses_default_netvm, missing_netvm) := n in
  Ok (VmEntry (BackupVm (bvm_is_template (e_vm e)) (bvm_is_netvm (e_vm e))
                        uses_default_netvm)
              template netvm orig_template
              excluded already_exists missing_template missing_netvm
              (Some (negb (missing_netvm || missing_template
                           || already_exists || excluded))))))).

(** [for vm in restore_info.keys()]: every entry is changed in place, in the
    dict the later turns look into. *)
Fixpoint verify_loop (hc : host_collection) (keys : list string)
    (info : vms_to_restore) : result vms_to_restore :=
  match keys with
  | [] => Ok info
  | vm :: keys' =>
      if is_special vm then verify_loop hc keys' info
      else
        match lookup_entry vm (vr_entries info) with
        | None => Raise KeyError
        | Some e =>
            rbind (verify_entry info hc vm e) (fun e' =>
            verify_loop hc keys' (set_entry vm e' info))
        end
  end.

Definition restore_info_verify (info : vms_to_restore) (hc : host_collection)
  : result vms_to_restore :=
  verify_loop hc (map fst (vr_entries info)) info.

(** What makes a name usable as the template, resp. the netvm, of a restored
    VM: it is empty, a VM of that kind exists on the host or comes with the
    backup, or it is the host's default. *)
Definition resolvable (info : vms_to_restore) (hc : host_collection)
    (on_host : host_vm -> bool) (in_the_backup : backup_vm -> bool)
    (default : option string) (name : option string) : Prop :=
  match name with
  | None => True
  | Some n =>
      n = "" \/
      (exists hv, get_vm_by_name hc n = Some hv /\ on_host hv = true) \/
      (exists e, lookup_entry n (vr_entries info) = Some e /\
                 in_the_backup (e_vm e) = true) \/
      default = Some n
  end.

(** Two states of the dict that the checks of an entry cannot tell apart. *)
Definition agree (info1 info2 : vms_to_restore) : Prop :=
  vr_options info1 = vr_options info2 /\
  forall name kind,
    (kind = bvm_is_template \/ kind = bvm_is_netvm) ->
    in_backup info1 name kind = in_backup info2 name kind.

(** A backup that holds an AppVM and its template, restored on a host that
    has the netvm but neither of the two. *)
Definition sample_host : host_collection :=
  HostCollection
    (fun name => if String.eqb name "netvm" then Some (HostVm false true) else None)
    (Some "fedora-20-x64") (Some "netvm").

Definition sample_work_entry : vm_entry :=
  VmEntry (BackupVm false false false) (Some "fedora-18-x64") (Some "netvm") None
          false false false false None.

Definition sample_template_entry : vm_entry :=
  VmEntry (BackupVm true false false) None None None
          true true true true None.

Definition sample_vms_to_restore : vms_to_restore :=
  VmsToRestore (backup_restore_set_defaults ∅)
    [("work", sample_work_entry); ("fedora-18-x64", sample_template_entry)]
    false.

(** [item] is the place in the working directory of an announced name that
    begins with one of [vms_dirs]. *)
Definition selected (args : restore_args) (item : string) : Prop :=
  exists name,
    item = path_join (ra_restore_tmpdir args) name /\
    existsb (fun x => startswith name x) (ra_vms_dirs args) = true.

(** A subdir that tells the number of a VM, or that it is the home
    directory of dom0, and nothing else. *)
Definition hidden_subdir (subdir : string) : Prop :=
  subdir = "dom0-home/" \/ exists qid, subdir = "vm" +:+ fmt_d qid +:+ "/".

(** [files'] is [files] with entries added whose subdirs tell no name. *)
Definition adds_hidden (files files' : list fileinfo) : Prop :=
  exists added,
    files' = files ++ added /\ Forall (fun fi => hidden_subdir (fi_subdir fi)) added.

(** ** find_template_name *)

(** The text before the first line feed: as far as [.*] can reach from the
    start of the string. *)
Fixpoint first_line (s : string) : string :=
  match s with
  | EmptyString => EmptyString
  | String c s' => if Ascii.eqb c "010"%char then EmptyString else String c (first_line s')
  end.

(** The text before and after the last [':'] of [s], if there is one. *)
Fixpoint rsplit_colon (s : string) : option (string * string) :=
  match s with
  | EmptyString => None
  | String c s' =>
      match rsplit_colon s' with
      | Some (before, after) => Some (String c before, after)
      | None => if Ascii.eqb c ":"%char then Some (EmptyString, s') else None
      end
  end.

(** [rx_replace.match(r)], the pattern being two groups of any characters
    around a [':']: the two groups, [None] when there is no match.  Both
    groups are greedy and [.] does not match a line feed, so the first group
    ends at the last [':'] of the first line. *)
Definition rx_replace_match (r : string) : option (string * string) :=
  rsplit_colon (first_line r).

(** [find_template_name(template, replaces)] of [backup_restore_prepare]. *)
Fixpoint find_template_name (template : string) (replaces : list string)
  : result string :=
  match replaces with
  | [] => Ok template
  | r :: replaces' =>
      match rx_replace_match r with
      | None => Raise AttributeError
      | Some (group1, group2) =>
          if String.eqb group1 template then Ok group2
          else find_template_name template replaces'
      end
  end.

(** A replacement rule [old:new] that is read back as it was meant. *)
Definition plain_rule (rule : string * string) : bool :=
  (count "010"%char (fst rule) =? 0) && (count "010"%char (snd rule) =? 0)
  && (count ":"%char (snd rule) =? 0).

(** The template and the netvm that an entry names are not the two keys of
    [restore_info] that are not VMs. *)
Definition names_plain (e : vm_entry) : bool :=
  match e_template e with Some t => negb (is_special t) | None => true end
  && match e_netvm e with Some n => negb (is_special n) | None => true end.

(** A process that was not given, or whose [poll()] gave the exit status 0. *)
Definition finished (present : bool) (retcode : option Z) : bool :=
  negb present || match retcode with Some rc => (rc =? 0)%Z | None => false end.

(** The value [run_error] has after the polls of a turn: the name of the
    last of [hmac], [addproc] and [vmproc] found with an exit status other
    than 0. *)
Definition turn_error (p : procs) (o : observation) : option string :=
  if failed (has_vmproc p) (obs_vmproc o) then Some "VM"
  else if failed (has_addproc p) (obs_addproc o) then Some "addproc"
  else if failed (has_hmac p) (obs_hmac o) then Some "hmac"
  else None.

(** ** The chunks of a plan entry *)

(** The turns the chunk loop makes for a plan entry when it returns: one
    per chunk, until [tar_sparse] is found to have ended. *)
Fixpoint chunk_numbers (chunks : list chunk_env) : nat :=
  match chunks with
  | [] => 0
  | ce :: rest => if ce_tar_alive ce then S (chunk_numbers rest) else 1
  end.

(** The bytes [wait_backup_feedback] copies to the chunk file in the turn
    observed as [ce]. *)
Definition chunk_data (args : backup_args) (ce : chunk_env) : string :=
  out_target
    (snd (wait_backup_feedback
            (Procs true true (ba_appvm args) (ba_encrypted args || ba_compressed args))
            (ce_obs ce))).

(** [backup_tempfile] of a plan entry. *)
Definition entry_tempfile (backup_tmpdir : string) (filename : fileinfo) : string :=
  path_join (path_join backup_tmpdir (fi_subdir filename)) (basename (fi_path filename)).

(** Entry by entry of the plan, the chunk files written for it. *)
Fixpoint entry_chunks (backup_tmpdir : string) (files : list fileinfo)
    (chunks : list (list chunk_env)) : list (list string) :=
  match files with
  | [] => []
  | filename :: files' =>
      map (chunk_name (entry_tempfile backup_tmpdir filename))
          (seq 0 (chunk_numbers (hd [] chunks)))
      :: entry_chunks backup_tmpdir files' (tl chunks)
  end.

(** ** Under which algorithm a verification was made *)

(** [ev] is not the record of a verification. *)
Definition no_verification (ev : event) : Prop :=
  match ev with
  | EvVerified _ _ => False
  | _ => True
  end.

(** If [ev] records a verification, it was made under [algorithm]. *)
Definition verified_under (algorithm : string) (ev : event) : Prop :=
  match ev with
  | EvVerified _ used => used = algorithm
  | _ => True
  end.

(** However [m] ends, what it has added to the log satisfies [P]. *)
Definition logs {A} (P : event -> Prop) (m : M A) : Prop :=
  forall w, exists evs, w_log (snd (m w)) = w_log w ++ evs /\ Forall P evs.

(** The algorithm with which [restore_vm_dirs] goes on after the header
    analysis, [first] being the candidate under which the first announced
    file, of content [content], was verified: the value of [hmac-algorithm]
    when that file is the backup header and declares one, and [first]
    otherwise. *)
Definition adopted_algorithm (module_name header content first : string) : string :=
  if String.eqb (basename header) HEADER_FILENAME then
    match parse_backup_header_content module_name content with
    | Ok hd => override_str hd BackupHeader.hmac_algorithm first
    | Raise _ => first
    end
  else first.

(** * Properties *)

(** ** Strings *)

Lemma append_cons (c : ascii) (s t : string) : String c s +:+ t = String c (s +:+ t).
Proof. reflexivity. Qed.

Lemma append_empty_r (s : string) : s +:+ "" = s.
Proof.
  induction s as [|c s IH]; [reflexivity|]. rewrite append_cons. now rewrite IH.
Qed.

Lemma split_no_sep (sep : ascii) (s : string) :
  count sep s = 0 -> split sep s = [s].
Proof.
  induction s as [|c s IH]; simpl; [reflexivity|].
  destruct (Ascii.eqb c sep); [discriminate|].
  intros H. rewrite IH by exact H. reflexivity.
Qed.

Lemma split_app_sep (sep : ascii) (pre rest : string) :
  count sep pre = 0 ->
  split sep (pre +:+ String sep rest) = pre :: split sep rest.
Proof.
  induction pre as [|c pre IH].
  - intros _. change ("" +:+ String sep rest) with (String sep rest).
    simpl. rewrite Ascii.eqb_refl. reflexivity.
  - rewrite append_cons. simpl.
    destruct (Ascii.eqb c sep); [discriminate|].
    intros H. rewrite IH by exact H. reflexivity.
Qed.

Lemma split_length (sep : ascii) (s : string) :
  List.length (split sep s) = S (count sep s).
Proof.
  induction s as [|c s IH]; simpl; [reflexivity|].
  destruct (Ascii.eqb c sep); simpl; [now rewrite IH|].
  destruct (split sep s) eqn:E; simpl in *; [discriminate|exact IH].
Qed.

(** ** C1: the HMAC gate *)

Lemma verified_in_app (l l' : list event) (f : string) :
  verified_in (l ++ l') f = verified_in l f || verified_in l' f.
Proof. apply existsb_app. Qed.

Lemma gated_nil : gated [].
Proof. intros [|? ?] ev l2 f H; discriminate. Qed.

Lemma gated_snoc (log : list event) (ev : event) :
  gated log ->
  (forall f, chunk_of ev = Some f -> verified_in log f = true) ->
  gated (log ++ [ev]).
Proof.
  intros G Hev l1 ev' l2 f Heq Hc.
  destruct l2 as [|x l2] using rev_ind.
  - apply app_inj_tail in Heq as [-> ->]. now apply Hev.
  - clear IHl2. rewrite app_comm_cons, app_assoc in Heq.
    apply app_inj_tail in Heq as [-> _]. eapply G; eauto.
Qed.

Lemma extends_refl (w : world) : extends w w.
Proof. exists []. now rewrite app_nil_r. Qed.

Lemma extends_trans (w1 w2 w3 : world) :
  extends w1 w2 -> extends w2 w3 -> extends w1 w3.
Proof.
  intros [e1 H1] [e2 H2]. exists (e1 ++ e2). now rewrite H2, H1, app_assoc.
Qed.

Lemma verified_in_extends (w w' : world) (f : string) :
  extends w w' -> verified_in (w_log w) f = true -> verified_in (w_log w') f = true.
Proof.
  intros [evs ->] H. rewrite verified_in_app, H. reflexivity.
Qed.

Lemma triple_ret {A} (P : world -> Prop) (a : A) (Q : A -> world -> Prop) :
  (forall w, P w -> Q a w) -> triple P (ret a) Q.
Proof. intros H w I Pw. simpl. auto using extends_refl. Qed.

Lemma triple_throw {A} (P : world -> Prop) (e : exn) (Q : A -> world -> Prop) :
  triple P (throw e) Q.
Proof. intros w I Pw. simpl. auto using extends_refl. Qed.

Lemma triple_blocks {A} (P : world -> Prop) (Q : A -> world -> Prop) :
  triple P blocks Q.
Proof. intros w I Pw. simpl. auto using extends_refl. Qed.

Lemma triple_bind {A B} (P : world -> Prop) (m : M A) (R : A -> world -> Prop)
    (k : A -> M B) (Q : B -> world -> Prop) :
  triple P m R -> (forall a, triple (R a) (k a) Q) -> triple P (bind m k) Q.
Proof.
  intros Hm Hk w I Pw. unfold bind. specialize (Hm w I Pw).
  destruct (m w) as [[a| |] w1]; try exact Hm.
  destruct Hm as (I1 & E1 & R1). specialize (Hk a w1 I1 R1).
  destruct (k a w1) as [[b| |] w2].
  - destruct Hk as (? & ? & ?). eauto using extends_trans.
  - destruct Hk. eauto using extends_trans.
  - destruct Hk. eauto using extends_trans.
Qed.

Lemma triple_weaken {A} (P P' : world -> Prop) (m : M A) (Q Q' : A -> world -> Prop) :
  triple P' m Q' -> (forall w, P w -> P' w) -> (forall a w, Q' a w -> Q a w) ->
  triple P m Q.
Proof.
  intros H HP HQ w I Pw. specialize (H w I (HP w Pw)).
  destruct (m w) as [[a| |] w1]; try exact H.
  destruct H as (? & ? & ?). auto.
Qed.

Lemma triple_try_except {A} (P : world -> Prop) (m : M A) (h : exn -> M A)
    (Q : A -> world -> Prop) :
  triple P m Q -> (forall e, triple (fun _ => True) (h e) Q) ->
  triple P (try_except m h) Q.
Proof.
  intros Hm Hh w I Pw. unfold try_except. specialize (Hm w I Pw).
  destruct (m w) as [[a| e |] w1]; try exact Hm.
  destruct Hm as (I1 & E1). specialize (Hh e w1 I1 Logic.I).
  destruct (h e w1) as [[b| |] w2].
  - destruct Hh as (? & ? & ?). eauto using extends_trans.
  - destruct Hh. eauto using extends_trans.
  - destruct Hh. eauto using extends_trans.
Qed.

(** Appending an event that hands nothing to extraction, or hands a
    verified chunk, keeps the invariant. *)
Lemma gate_inv_log (w : world) (fs : gmap string node) (ev : event) :
  gate_inv w ->
  (forall f, chunk_of ev = Some f -> verified_in (w_log w) f = true) ->
  gate_inv (World fs (w_queue w) (w_log w ++ [ev])).
Proof.
  intros [G Q] Hev. split; simpl.
  - now apply gated_snoc.
  - eapply Forall_impl; [exact Q|]. intros item [H|H]; [now left|right].
    rewrite verified_in_app, H. reflexivity.
Qed.

Lemma triple_emit (P : world -> Prop) (ev : event) (Q : unit -> world -> Prop) :
  (forall w f, P w -> chunk_of ev = Some f -> verified_in (w_log w) f = true) ->
  (forall w, P w -> Q tt (World (w_fs w) (w_queue w) (w_log w ++ [ev]))) ->
  triple P (emit ev) Q.
Proof.
  intros Hev HQ w I Pw. simpl. split; [|split].
  - apply gate_inv_log; eauto.
  - now exists [ev].
  - now apply HQ.
Qed.

Lemma triple_get_fs (P : world -> Prop) :
  triple P get_fs (fun _ w => P w).
Proof. intros w I Pw. simpl. auto using extends_refl. Qed.

Lemma triple_set_fs (P : world -> Prop) (fs : gmap string node) (Q : unit -> world -> Prop) :
  (forall w, P w -> Q tt (World fs (w_queue w) (w_log w))) ->
  triple P (set_fs fs) Q.
Proof.
  intros HQ w I Pw. simpl. split; [exact I|].
  split; [exists []; simpl; now rewrite app_nil_r|auto].
Qed.

Lemma triple_lift {A} (P : world -> Prop) (r : result A) :
  triple P (lift r) (fun _ w => P w).
Proof. destruct r; [now apply triple_ret|apply triple_throw]. Qed.

Lemma triple_frame {A} (P0 P : world -> Prop) (m : M A) (Q : A -> world -> Prop) :
  stable P -> triple P0 m Q ->
  triple (fun w => P0 w /\ P w) m (fun a w => Q a w /\ P w).
Proof.
  intros St H w I [P0w Pw]. specialize (H w I P0w).
  destruct (m w) as [[a| |] w1]; try exact H.
  destruct H as (? & E & ?).
  split; [assumption|]. split; [assumption|]. split; [assumption|].
  eapply St; eauto.
Qed.

Lemma quiet_frame {A} (P : world -> Prop) (m : M A) :
  stable P -> quiet m -> triple P m (fun _ w => P w).
Proof.
  intros St H. eapply triple_weaken.
  - apply (triple_frame (fun _ => True) P m (fun _ _ => True) St H).
  - intros w Pw. split; [exact Logic.I|exact Pw].
  - intros a w [_ Pw]. exact Pw.
Qed.

Lemma quiet_ret {A} (a : A) : quiet (ret a).
Proof. now apply triple_ret. Qed.

Lemma quiet_throw {A} (e : exn) : quiet (@throw A e).
Proof. apply triple_throw. Qed.

Lemma quiet_blocks {A} : quiet (@blocks A).
Proof. apply triple_blocks. Qed.

Lemma quiet_bind {A B} (m : M A) (k : A -> M B) :
  quiet m -> (forall a, quiet (k a)) -> quiet (bind m k).
Proof. intros Hm Hk. eapply triple_bind; [exact Hm|]. intros a. apply Hk. Qed.

Lemma quiet_emit (ev : event) : chunk_of ev = None -> quiet (emit ev).
Proof. intros H. apply triple_emit; [congruence|auto]. Qed.

Lemma quiet_get_fs : quiet get_fs.
Proof. apply (triple_get_fs (fun _ => True)). Qed.

Lemma quiet_set_fs (fs : gmap string node) : quiet (set_fs fs).
Proof. now apply triple_set_fs. Qed.

Lemma quiet_lift {A} (r : result A) : quiet (lift r).
Proof. destruct r; [apply quiet_ret|apply quiet_throw]. Qed.

Lemma quiet_try_except {A} (m : M A) (h : exn -> M A) :
  quiet m -> (forall e, quiet (h e)) -> quiet (try_except m h).
Proof. intros Hm Hh. apply triple_try_except; [exact Hm|exact Hh]. Qed.

Lemma quiet_new_queue : quiet new_queue.
Proof.
  intros w [G _] _. simpl. split; [split; [exact G|constructor]|].
  split; [|exact Logic.I]. exists []. simpl. now rewrite app_nil_r.
Qed.

(** Decomposes a goal [quiet m] along the structure of [m]. *)
Ltac quiet_step :=
  first
    [ apply quiet_ret | apply quiet_throw | apply quiet_blocks
    | apply quiet_get_fs | apply quiet_set_fs | apply quiet_lift
    | apply quiet_new_queue
    | apply quiet_emit; reflexivity
    | apply quiet_bind; [|intros ?]
    | apply quiet_try_except; [|intros ?]
    | match goal with
      | |- quiet (match ?x with _ => _ end) => destruct x
      | |- quiet (let '(_, _) := ?x in _) => destruct x
      end ].

Ltac quiet_tac := repeat quiet_step.

Lemma quiet_read_file (path : string) : quiet (read_file path).
Proof. unfold read_file. quiet_tac. Qed.

Lemma quiet_unlink (path : string) : quiet (unlink path).
Proof. unfold unlink. quiet_tac. Qed.

Lemma quiet_mkfifo (path : string) : quiet (mkfifo path).
Proof. unfold mkfifo. quiet_tac. Qed.

Lemma stable_verified (f : string) :
  stable (fun w => verified_in (w_log w) f = true).
Proof. intros w w' E H. eapply verified_in_extends; eauto. Qed.

Lemma stable_may_extract (items : list string) :
  stable (fun w => Forall (may_extract (w_log w)) items).
Proof.
  intros w w' E H. eapply Forall_impl; [exact H|].
  intros item [S|V]; [now left|right]. eapply verified_in_extends; eauto.
Qed.

(** [put] keeps the invariant when the item is a sentinel or a verified chunk. *)
Lemma triple_put (item : string) :
  triple (fun w => may_extract (w_log w) item) (put item) (fun _ _ => True).
Proof.
  intros w [G Q] Hitem. simpl. split; [split; simpl|split; [now exists [EvPut item]|exact Logic.I]].
  - apply gated_snoc; [exact G|]. intros f. simpl.
    destruct (is_sentinel item) eqn:S; [discriminate|].
    intros [= <-]. destruct Hitem as [H|H]; [congruence|exact H].
  - apply Forall_app. split.
    + eapply Forall_impl; [exact Q|]. intros x [H|H]; [now left|right].
      rewrite verified_in_app, H. reflexivity.
    + constructor; [|constructor]. destruct Hitem as [H|H]; [now left|right].
      rewrite verified_in_app, H. reflexivity.
Qed.

Lemma triple_get_queue :
  triple (fun _ => True) get_queue
         (fun items w => Forall (may_extract (w_log w)) items).
Proof.
  intros w I _. simpl. split; [exact I|]. split; [apply extends_refl|apply I].
Qed.

(** [verify_hmac] hands nothing to extraction, and when it returns [True]
    the log says so. *)
Lemma verify_hmac_gate (dgst : string -> string -> string -> string * string)
    (filename hmacfile passphrase algorithm : string) :
  triple (fun _ => True)
         (verify_hmac dgst filename hmacfile passphrase algorithm)
         (fun ok w => ok = true -> verified_in (w_log w) filename = true).
Proof.
  unfold verify_hmac.
  destruct (negb _); [apply triple_throw|].
  eapply triple_bind; [apply quiet_read_file|intros chunk].
  destruct (dgst algorithm passphrase chunk) as [hmac_stdout hmac_stderr].
  destruct (0 <? _); [apply triple_throw|].
  eapply triple_bind; [apply quiet_read_file|intros supplied].
  eapply triple_bind; [apply quiet_lift|intros hmac].
  eapply triple_bind with (R := fun _ _ => True).
  { destruct (0 <? _); quiet_tac. }
  intros [|].
  - eapply triple_bind; [apply quiet_unlink|intros ?].
    eapply triple_bind with (R := fun _ w => verified_in (w_log w) filename = true).
    + apply triple_emit; [discriminate|]. intros w _. simpl.
      rewrite verified_in_app. simpl. rewrite String.eqb_refl.
      now rewrite orb_true_r.
    + intros ?. apply triple_ret. auto.
  - eapply triple_bind; [apply quiet_lift|intros computed]. apply triple_throw.
Qed.

Lemma verify_header_gate (dgst : string -> string -> string -> string * string)
    (filename hmacfile passphrase : string) (algos : list string) :
  triple (fun _ => True)
         (verify_header dgst filename hmacfile passphrase algos)
         (fun found w => found <> None -> verified_in (w_log w) filename = true).
Proof.
  induction algos as [|a rest IH]; [apply triple_ret; congruence|].
  intros w I _. simpl.
  pose proof (verify_hmac_gate dgst filename hmacfile passphrase a w I Logic.I) as H.
  destruct (verify_hmac dgst filename hmacfile passphrase a w) as [[[|]| e |] w1].
  - destruct H as (I1 & E1 & V). split; [exact I1|]. split; [exact E1|]. auto.
  - destruct H as (I1 & E1 & _). specialize (IH w1 I1 Logic.I).
    destruct (verify_header dgst filename hmacfile passphrase rest w1) as [[f| |] w2].
    + destruct IH as (? & ? & ?). eauto using extends_trans.
    + destruct IH. eauto using extends_trans.
    + destruct IH. eauto using extends_trans.
  - destruct H as (I1 & E1).
    assert (K : match verify_header dgst filename hmacfile passphrase rest w1 with
                | (Returns found, w') =>
                    gate_inv w' /\ extends w w' /\
                    (found <> None -> verified_in (w_log w') filename = true)
                | (_, w') => gate_inv w' /\ extends w w'
                end).
    { specialize (IH w1 I1 Logic.I).
      destruct (verify_header dgst filename hmacfile passphrase rest w1) as [[f| |] w2].
      + destruct IH as (? & ? & ?). eauto using extends_trans.
      + destruct IH. eauto using extends_trans.
      + destruct IH. eauto using extends_trans. }
    destruct e; auto.
  - exact H.
Qed.

(** The worker feeds a chunk only if it is told to, and what it is told to
    feed has been verified. *)
Lemma extract_step_gate (env : extract_env) (s : ExtractWorker.self) (filename : string) :
  triple (fun w => verified_in (w_log w) filename = true)
         (ExtractWorker.step env s filename) (fun _ _ => True).
Proof.
  unfold ExtractWorker.step.
  pose proof (stable_verified filename) as St.
  eapply triple_bind.
  { apply (quiet_frame _ _ St). destruct (endswith filename ".000"); quiet_tac. }
  intros s1. cbv beta.
  eapply triple_bind; [apply (quiet_frame _ _ St); quiet_tac|intros ?].
  eapply triple_bind; [apply (quiet_frame _ _ St); apply quiet_read_file|intros ?].
  eapply triple_bind with (R := fun _ _ => True).
  { apply triple_emit; [|auto]. intros w f H [= <-]. exact H. }
  intros ?.
  eapply triple_bind with (R := fun _ _ => True).
  { destruct (ExtractWorker.encrypted _); [quiet_tac|].
    destruct (ExtractWorker.compressed _); quiet_tac. }
  intros ?.
  destruct (wait_backup_feedback _ _) as [[[run_error|]|] out];
    [|apply triple_throw|apply triple_blocks].
  destruct (0 <? _); [apply triple_throw|].
  eapply triple_bind; [apply quiet_unlink|intros ?]. now apply triple_ret.
Qed.

Lemma extract_loop_gate (env : extract_env) (items : list string) :
  forall s,
  triple (fun w => Forall (may_extract (w_log w)) items)
         (ExtractWorker.loop env s items) (fun _ _ => True).
Proof.
  induction items as [|filename rest IH]; intros s; [apply triple_blocks|].
  simpl. destruct (String.eqb filename "FINISHED" || String.eqb filename "ERROR") eqn:S.
  - now apply triple_ret.
  - eapply triple_bind with (R := fun _ w => Forall (may_extract (w_log w)) rest).
    + eapply triple_weaken.
      * apply (triple_frame _ _ _ _ (stable_may_extract rest)
                 (extract_step_gate env s filename)).
      * intros w H. inversion H as [|? ? [Hs|Hv] Hrest]; subst.
        -- unfold is_sentinel in Hs. congruence.
        -- split; assumption.
      * intros a w [_ H]. exact H.
    + intros s'. apply IH.
Qed.

Lemma extract_run_gate (env : extract_env) (s : ExtractWorker.self) (items : list string) :
  triple (fun w => Forall (may_extract (w_log w)) items)
         (ExtractWorker.run env s items) (fun _ _ => True).
Proof.
  unfold ExtractWorker.run, ExtractWorker.__run__.
  apply triple_try_except; [|intros e; apply quiet_ret].
  eapply triple_bind with (R := fun _ _ => True); [|intros ?; apply quiet_ret].
  eapply triple_bind; [apply extract_loop_gate|].
  intros [s' filename]. cbv beta.
  eapply triple_bind; [apply quiet_unlink|intros ?].
  destruct (ExtractWorker.tar2_process s'); [|apply quiet_ret].
  eapply triple_bind with (R := fun _ _ => True).
  { destruct (String.eqb filename "ERROR"); quiet_tac. }
  intros ?. destruct (negb _); quiet_tac.
Qed.

Lemma join_extract_gate (env : restore_env) (worker : ExtractWorker.self) :
  quiet (join_extract env worker).
Proof.
  unfold join_extract. eapply triple_bind; [apply triple_get_queue|].
  intros items. apply extract_run_gate.
Qed.

Lemma quiet_any {A} (P : world -> Prop) (m : M A) :
  quiet m -> triple P m (fun _ _ => True).
Proof.
  intros H. apply (triple_weaken P (fun _ => True) m _ (fun _ _ => True)); auto.
Qed.

Lemma restore_loop_gate (dgst : string -> string -> string -> string * string)
    (args : restore_args) (hmac_algorithm : string) (fuel : nat) :
  forall nextfile pipe,
  quiet (restore_loop dgst fuel args hmac_algorithm nextfile pipe).
Proof.
  induction fuel as [|fuel IH]; intros nextfile pipe; [apply quiet_blocks|].
  simpl.
  destruct (match nextfile with Some n => (n, pipe) | None => readline pipe end)
    as [filename pipe1].
  destruct (is_end filename); [apply quiet_ret|].
  destruct (readline pipe1) as [hmacfile pipe2].
  destruct (if negb (ra_appvm args)
            then (Some (fst (readline pipe2)), snd (readline pipe2))
            else (nextfile, pipe2)) as [nextfile' pipe3].
  destruct (is_end hmacfile); [apply quiet_ret|].
  destruct (negb (existsb _ _)).
  - apply quiet_bind; [apply quiet_unlink|intros ?].
    apply quiet_bind; [apply quiet_unlink|intros ?]. apply IH.
  - eapply triple_bind; [apply verify_hmac_gate|]. intros ok.
    eapply triple_bind with (R := fun _ _ => True); [|intros ?; apply IH].
    destruct ok.
    + eapply triple_weaken; [apply triple_put| |auto].
      intros w H. right. now apply H.
    + now apply triple_ret.
Qed.

Lemma restore_header_gate (dgst : string -> string -> string -> string * string)
    (m : string) (args : restore_args) (env : restore_env) :
  quiet (restore_header dgst m args env).
Proof.
  unfold restore_header.
  destruct (readline (re_filelist env)) as [filename pipe1].
  destruct (readline pipe1) as [hmacfile pipe2].
  destruct (readline pipe2) as [nextfile pipe3].
  destruct (is_end filename || is_end hmacfile); [apply quiet_throw|].
  eapply triple_bind; [apply verify_header_gate|]. intros [hmac_algorithm|].
  - destruct (String.eqb _ HEADER_FILENAME).
    + apply quiet_any. apply quiet_bind.
      * unfold parse_backup_header. apply quiet_bind; [apply quiet_read_file|intros ?].
        apply quiet_lift.
      * intros hd. apply quiet_bind; [apply quiet_unlink|intros ?]. apply quiet_ret.
    + eapply triple_bind with (R := fun _ _ => True); [|intros ?; apply quiet_ret].
      eapply triple_weaken; [apply triple_put| |auto].
      intros w H. right. apply H. discriminate.
  - apply triple_throw.
Qed.

Lemma restore_vm_dirs_gate (dgst : string -> string -> string -> string * string)
    (m : string) (args : restore_args) (env : restore_env) :
  quiet (restore_vm_dirs dgst m args env).
Proof.
  unfold restore_vm_dirs.
  apply quiet_bind; [destruct (ra_appvm args); quiet_tac|intros ?].
  apply quiet_bind; [apply quiet_new_queue|intros ?].
  apply quiet_bind.
  { destruct (header_requested args); [apply restore_header_gate|apply quiet_ret]. }
  intros [loc pipe].
  apply quiet_bind.
  { unfold ExtractWorker.init. apply quiet_bind; [apply quiet_mkfifo|intros ?].
    apply quiet_ret. }
  intros extract_proc.
  assert (Hput : forall item, is_sentinel item = true -> quiet (put item)).
  { intros item S. eapply triple_weaken; [apply triple_put| |auto].
    intros w _. now left. }
  apply quiet_bind.
  { apply quiet_try_except.
    - apply quiet_bind; [apply restore_loop_gate|intros filename].
      apply quiet_bind; [destruct (_ && _); quiet_tac|intros ?].
      apply quiet_bind; [destruct (_ && _); quiet_tac|intros ?].
      destruct (negb _); quiet_tac.
    - intros e. apply quiet_bind; [now apply Hput|intros ?].
      apply quiet_bind; [apply join_extract_gate|intros ?]. apply quiet_throw. }
  intros ?.
  apply quiet_bind; [now apply Hput|intros ?].
  apply quiet_bind; [apply join_extract_gate|intros exitcode].
  destruct (negb _); quiet_tac.
Qed.

(** *** The loop over the announced names always ends *)

Lemma never_blocks_bind {A B} (m : M A) (k : A -> M B) :
  never_blocks m -> (forall a, never_blocks (k a)) -> never_blocks (bind m k).
Proof.
  intros Hm Hk w. unfold bind. specialize (Hm w).
  destruct (m w) as [[a| e |] w1]; simpl in *; [apply Hk|congruence|congruence].
Qed.

Lemma never_blocks_ret {A} (a : A) : never_blocks (ret a).
Proof. intros w. discriminate. Qed.

Lemma never_blocks_throw {A} (e : exn) : never_blocks (@throw A e).
Proof. intros w. discriminate. Qed.

Lemma never_blocks_lift {A} (r : result A) : never_blocks (lift r).
Proof. destruct r; [apply never_blocks_ret|apply never_blocks_throw]. Qed.

Lemma never_blocks_emit (ev : event) : never_blocks (emit ev).
Proof. intros w. discriminate. Qed.

Lemma never_blocks_read_file (path : string) : never_blocks (read_file path).
Proof.
  intros w. unfold read_file, bind, get_fs. simpl.
  destruct (w_fs w !! path) as [[| |]|]; discriminate.
Qed.

Lemma never_blocks_unlink (path : string) : never_blocks (unlink path).
Proof.
  intros w. unfold unlink, bind, get_fs. simpl.
  destruct (w_fs w !! path) as [[| |]|]; discriminate.
Qed.

Lemma never_blocks_verify_hmac (dgst : string -> string -> string -> string * string)
    (filename hmacfile passphrase algorithm : string) :
  never_blocks (verify_hmac dgst filename hmacfile passphrase algorithm).
Proof.
  unfold verify_hmac. destruct (negb _); [apply never_blocks_throw|].
  apply never_blocks_bind; [apply never_blocks_read_file|intros chunk].
  destruct (dgst algorithm passphrase chunk) as [hmac_stdout hmac_stderr].
  destruct (0 <? _); [apply never_blocks_throw|].
  apply never_blocks_bind; [apply never_blocks_read_file|intros supplied].
  apply never_blocks_bind; [apply never_blocks_lift|intros hmac].
  apply never_blocks_bind.
  - destruct (0 <? _); [|apply never_blocks_ret].
    apply never_blocks_bind; [apply never_blocks_lift|intros ?]. apply never_blocks_ret.
  - intros [|].
    + apply never_blocks_bind; [apply never_blocks_unlink|intros ?].
      apply never_blocks_bind; [apply never_blocks_emit|intros ?]. apply never_blocks_ret.
    + apply never_blocks_bind; [apply never_blocks_lift|intros ?].
      apply never_blocks_throw.
Qed.

Lemma readline_length (pipe : list string) :
  List.length (snd (readline pipe)) <= List.length pipe.
Proof. destruct pipe; simpl; lia. Qed.

Lemma readline_not_end (pipe : list string) :
  is_end (fst (readline pipe)) = false ->
  List.length (snd (readline pipe)) < List.length pipe.
Proof. destruct pipe; simpl; [discriminate|lia]. Qed.

(** The fuel [restore_vm_dirs] gives the loop, one more than the number of
    lines still to be read, is never used up. *)
Lemma restore_loop_never_blocks (dgst : string -> string -> string -> string * string)
    (args : restore_args) (hmac_algorithm : string) (fuel : nat) :
  forall nextfile pipe,
  List.length pipe < fuel ->
  never_blocks (restore_loop dgst fuel args hmac_algorithm nextfile pipe).
Proof.
  induction fuel as [|fuel IH]; intros nextfile pipe Hlen; [lia|].
  simpl.
  assert (Hfirst : List.length
                     (snd (match nextfile with
                           | Some n => (n, pipe)
                           | None => readline pipe
                           end)) <= List.length pipe).
  { destruct nextfile; [simpl; lia|apply readline_length]. }
  destruct (match nextfile with Some n => (n, pipe) | None => readline pipe end)
    as [filename pipe1]. simpl in Hfirst.
  destruct (is_end filename); [intros w; discriminate|].
  pose proof (readline_not_end pipe1) as H1.
  destruct (readline pipe1) as [hmacfile pipe2]. simpl in H1.
  assert (Hnext : List.length
                    (snd (if negb (ra_appvm args)
                          then (Some (fst (readline pipe2)), snd (readline pipe2))
                          else (nextfile, pipe2))) <= List.length pipe2).
  { destruct (negb (ra_appvm args)); simpl; [apply readline_length|lia]. }
  destruct (if negb (ra_appvm args)
            then (Some (fst (readline pipe2)), snd (readline pipe2))
            else (nextfile, pipe2)) as [nextfile' pipe3]. simpl in Hnext.
  destruct (is_end hmacfile); [intros w; discriminate|].
  specialize (H1 eq_refl).
  assert (Hrec : never_blocks (restore_loop dgst fuel args hmac_algorithm nextfile' pipe3))
    by (apply IH; lia).
  destruct (negb (existsb _ _)).
  - apply never_blocks_bind; [apply never_blocks_unlink|intros ?].
    apply never_blocks_bind; [apply never_blocks_unlink|intros ?]. exact Hrec.
  - apply never_blocks_bind; [apply never_blocks_verify_hmac|intros ok].
    apply never_blocks_bind; [|intros ?; exact Hrec].
    destruct ok; intros w; discriminate.
Qed.

(** C1: in every run of [restore_vm_dirs] started with an empty log,
    whatever way the run ends, each chunk name put on the extraction queue
    and each chunk file opened as input of the decrypt/decompress/extract
    chain occurs in the log after an event recording that [verify_hmac]
    returned [True] for that very name. *)
Theorem hmac_gate (dgst : string -> string -> string -> string * string)
    (module_name : string) (args : restore_args) (env : restore_env)
    (fs : gmap string node) :
  gated (w_log (snd (restore_vm_dirs dgst module_name args env (World fs [] [])))).
Proof.
  pose proof (restore_vm_dirs_gate dgst module_name args env (World fs [] [])) as H.
  assert (I : gate_inv (World fs [] [])) by (split; [apply gated_nil|constructor]).
  specialize (H I Logic.I).
  destruct (restore_vm_dirs dgst module_name args env (World fs [] [])) as [[a| |] w'];
    simpl; apply H.
Qed.

(** The property is not vacuous: a log that puts a chunk on the queue
    without a verification before it is not gated. *)
Lemma gated_rejects_unverified_put :
  ~ gated [EvPut "/var/tmp/restore_x/vm1/private.img.000"].
Proof.
  intros G.
  specialize (G [] (EvPut "/var/tmp/restore_x/vm1/private.img.000") []
                "/var/tmp/restore_x/vm1/private.img.000" eq_refl eq_refl).
  discriminate.
Qed.

(** The gate at work: the announced chunk has one byte changed; the run
    raises, and nothing but the [ERROR] sentinel reaches the queue, no chunk
    is opened for the chain. *)
Lemma tampered_chunk_not_fed :
  restore_vm_dirs toy_dgst installed_module_name
    (RestoreArgs "/backups/qubes-2014-01-01T000000" "/var/tmp/restore_x" "pw"
       ["vm1"] 10 false false false "SHA1" "aes-256-cbc")
    sample_restore_env (World sample_tampered_fs [] [])
  = (Throws (QubesException
               ("ERROR: invalid hmac for file /var/tmp/restore_x/vm1/private.img.000: "
                +:+ "SHA1:pw:dat4. Is the passphrase correct?")),
     World (delete "/var/tmp/restore_x/restore_pipe"
              (<["/var/tmp/restore_x/restore_pipe" := Fifo]> sample_tampered_fs))
           ["ERROR"]
           [EvSpawn ["tar"; "-ixvf"; "/backups/qubes-2014-01-01T000000";
                     "-C"; "/var/tmp/restore_x"; "vm1"];
            EvMkfifo "/var/tmp/restore_x/restore_pipe";
            EvPut "ERROR";
            EvUnlink "/var/tmp/restore_x/restore_pipe"]).
Proof. vm_compute. reflexivity. Qed.

(** ** C2: verify_hmac *)

Lemma verify_hmac_name_mismatch (dgst : string -> string -> string -> string * string)
    (filename hmacfile passphrase algorithm : string) (w : world) :
  hmacfile <> filename +:+ ".hmac" ->
  verify_hmac dgst filename hmacfile passphrase algorithm w
  = (Throws (QubesException
               ("ERROR: expected hmac for " +:+ filename +:+ ", but got " +:+ hmacfile)),
     w).
Proof.
  intros H. unfold verify_hmac.
  destruct (String.eqb_spec hmacfile (filename +:+ ".hmac")); [contradiction|].
  reflexivity.
Qed.

Lemma verify_hmac_never_false (dgst : string -> string -> string -> string * string)
    (filename hmacfile passphrase algorithm : string) (w w' : world) :
  verify_hmac dgst filename hmacfile passphrase algorithm w <> (Returns false, w').
Proof.
  unfold verify_hmac, bind, read_file, get_fs, lift, unlink, emit, set_fs, ret, throw.
  repeat (case_match; simpl in * ); congruence.
Qed.

Lemma load_hmac_raise (content : string) (e : exn) :
  load_hmac content = Raise e ->
  e = QubesException "ERROR: invalid hmac file content".
Proof.
  unfold load_hmac. destruct (split "="%char (strip content)) as [|a [|b l]]; congruence.
Qed.

(** The value of [verify_hmac] when the names agree, both files can be read
    and the digest tool prints nothing on stderr. *)
Lemma verify_hmac_eval (dgst : string -> string -> string -> string * string)
    (filename passphrase algorithm : string) (w : world) (chunk supplied : string) :
  w_fs w !! filename = Some (File chunk) ->
  w_fs w !! (filename +:+ ".hmac") = Some (File supplied) ->
  snd (dgst algorithm passphrase chunk) = "" ->
  verify_hmac dgst filename (filename +:+ ".hmac") passphrase algorithm w
  = match load_hmac supplied with
    | Raise e => (Throws e, w)
    | Ok hmac =>
        match load_hmac (fst (dgst algorithm passphrase chunk)) with
        | Raise e => (Throws e, w)
        | Ok computed =>
            if (0 <? String.length hmac) && String.eqb computed hmac
            then (Returns true,
                  World (delete (filename +:+ ".hmac") (w_fs w)) (w_queue w)
                        ((w_log w ++ [EvUnlink (filename +:+ ".hmac")])
                         ++ [EvVerified filename algorithm]))
            else (Throws (QubesException
                            ("ERROR: invalid hmac for file " +:+ filename +:+ ": "
                             +:+ computed +:+ ". Is the passphrase correct?")), w)
        end
    end.
Proof.
  intros Hc Hs Herr. unfold verify_hmac. rewrite String.eqb_refl.
  destruct w as [fs q log].
  cbv beta iota zeta delta
    [negb bind read_file get_fs lift unlink emit set_fs ret throw w_fs w_queue w_log] in *.
  rewrite Hc.
  destruct (dgst algorithm passphrase chunk) as [hmac_stdout hmac_stderr].
  cbv beta iota zeta delta [snd fst] in *. subst hmac_stderr.
  change (0 <? String.length "") with false. cbv beta iota.
  rewrite Hs.
  destruct (load_hmac supplied) as [hmac|e]; [|reflexivity].
  destruct (0 <? String.length hmac).
  - destruct (load_hmac hmac_stdout) as [computed|e]; [|reflexivity].
    destruct (String.eqb computed hmac); [|reflexivity].
    rewrite Hs. reflexivity.
  - destruct (load_hmac hmac_stdout) as [computed|e]; reflexivity.
Qed.

(** Where the chunk cannot be read, the digest tool gets no input. *)
Lemma verify_hmac_unreadable_chunk
    (dgst : string -> string -> string -> string * string)
    (filename passphrase algorithm : string) (w : world) :
  (forall chunk, w_fs w !! filename <> Some (File chunk)) ->
  verify_hmac dgst filename (filename +:+ ".hmac") passphrase algorithm w
  = (Throws (IOError filename), w).
Proof.
  intros H. unfold verify_hmac. rewrite String.eqb_refl.
  destruct w as [fs q log].
  cbv beta iota zeta delta
    [negb bind read_file get_fs lift unlink emit set_fs ret throw w_fs w_queue w_log] in *.
  destruct (fs !! filename) as [[chunk| |]|]; try reflexivity.
  now elim (H chunk).
Qed.

(** Whatever the digest tool prints on stderr makes the call raise. *)
Lemma verify_hmac_stderr (dgst : string -> string -> string -> string * string)
    (filename passphrase algorithm : string) (w : world) (chunk : string) :
  w_fs w !! filename = Some (File chunk) ->
  (0 <? String.length (snd (dgst algorithm passphrase chunk))) = true ->
  verify_hmac dgst filename (filename +:+ ".hmac") passphrase algorithm w
  = (Throws (QubesException
               ("ERROR: verify file " +:+ filename +:+ ": "
                +:+ snd (dgst algorithm passphrase chunk))), w).
Proof.
  intros Hc Herr. unfold verify_hmac. rewrite String.eqb_refl.
  destruct w as [fs q log].
  cbv beta iota zeta delta
    [negb bind read_file get_fs lift unlink emit set_fs ret throw w_fs w_queue w_log] in *.
  rewrite Hc. destruct (dgst algorithm passphrase chunk) as [out err].
  simpl in *. rewrite Herr. reflexivity.
Qed.

Lemma verify_hmac_unreadable_hmac
    (dgst : string -> string -> string -> string * string)
    (filename passphrase algorithm : string) (w : world) (chunk : string) :
  w_fs w !! filename = Some (File chunk) ->
  snd (dgst algorithm passphrase chunk) = "" ->
  (forall supplied, w_fs w !! (filename +:+ ".hmac") <> Some (File supplied)) ->
  verify_hmac dgst filename (filename +:+ ".hmac") passphrase algorithm w
  = (Throws (IOError (filename +:+ ".hmac")), w).
Proof.
  intros Hc Herr H. unfold verify_hmac. rewrite String.eqb_refl.
  destruct w as [fs q log].
  cbv beta iota zeta delta
    [negb bind read_file get_fs lift unlink emit set_fs ret throw w_fs w_queue w_log] in *.
  rewrite Hc. destruct (dgst algorithm passphrase chunk) as [out err].
  simpl in *. subst err. simpl.
  destruct (fs !! (filename +:+ ".hmac")) as [[supplied| |]|]; try reflexivity.
  now elim (H supplied).
Qed.

(** What [verify_hmac] does in every world, the names agreeing. *)
Lemma verify_hmac_cases (dgst : string -> string -> string -> string * string)
    (filename passphrase algorithm : string) (w : world) :
  match w_fs w !! filename with
  | Some (File chunk) =>
      if 0 <? String.length (snd (dgst algorithm passphrase chunk)) then
        exists msg,
          verify_hmac dgst filename (filename +:+ ".hmac") passphrase algorithm w
          = (Throws (QubesException msg), w)
      else
        match w_fs w !! (filename +:+ ".hmac") with
        | Some (File supplied) =>
            match load_hmac supplied,
                  load_hmac (fst (dgst algorithm passphrase chunk)) with
            | Ok hmac, Ok computed =>
                if (0 <? String.length hmac) && String.eqb computed hmac
                then verify_hmac dgst filename (filename +:+ ".hmac") passphrase
                       algorithm w
                     = (Returns true,
                        World (delete (filename +:+ ".hmac") (w_fs w)) (w_queue w)
                              ((w_log w ++ [EvUnlink (filename +:+ ".hmac")])
                               ++ [EvVerified filename algorithm]))
                else exists msg,
                       verify_hmac dgst filename (filename +:+ ".hmac") passphrase
                         algorithm w
                       = (Throws (QubesException msg), w)
            | _, _ =>
                exists msg,
                  verify_hmac dgst filename (filename +:+ ".hmac") passphrase
                    algorithm w
                  = (Throws (QubesException msg), w)
            end
        | _ =>
            verify_hmac dgst filename (filename +:+ ".hmac") passphrase algorithm w
            = (Throws (IOError (filename +:+ ".hmac")), w)
        end
  | _ =>
      verify_hmac dgst filename (filename +:+ ".hmac") passphrase algorithm w
      = (Throws (IOError filename), w)
  end.
Proof.
  destruct (w_fs w !! filename) as [[chunk| |]|] eqn:Hc;
    try (apply verify_hmac_unreadable_chunk; rewrite Hc; discriminate).
  destruct (0 <? String.length (snd (dgst algorithm passphrase chunk))) eqn:Herr.
  { eexists. exact (verify_hmac_stderr _ _ _ _ _ _ Hc Herr). }
  assert (Hsilent : snd (dgst algorithm passphrase chunk) = "").
  { destruct (snd (dgst algorithm passphrase chunk)); [reflexivity|discriminate]. }
  destruct (w_fs w !! (filename +:+ ".hmac")) as [[supplied| |]|] eqn:Hs;
    try (apply (verify_hmac_unreadable_hmac _ _ _ _ _ _ Hc Hsilent);
         rewrite Hs; discriminate).
  rewrite (verify_hmac_eval dgst filename passphrase algorithm w chunk supplied
             Hc Hs Hsilent).
  destruct (load_hmac supplied) as [hmac|e] eqn:Eh.
  - destruct (load_hmac (fst (dgst algorithm passphrase chunk))) as [computed|e] eqn:Ec.
    + destruct (0 <? String.length hmac); simpl; [|eauto].
      destruct (String.eqb computed hmac); simpl; eauto.
    + apply load_hmac_raise in Ec as ->. destruct (0 <? String.length hmac); eauto.
  - apply load_hmac_raise in Eh as ->. eauto.
Qed.

(** C2: [verify_hmac], in every world, (i) raises, leaving everything as it
    was, whenever [hmacfile] differs from [filename + ".hmac"]; (ii)
    otherwise it raises [IOError] when the chunk cannot be read, raises when
    the digest tool prints anything on stderr, raises [IOError] when the HMAC
    file cannot be read, and else parses the supplied HMAC file and the
    recomputed digest with [load_hmac] and returns [True], having deleted the
    [.hmac] file, exactly when the supplied digest is non-empty and equal to
    the recomputed one; on a mismatch and on a malformed or empty supplied
    HMAC it raises; whenever it raises nothing has changed; (iii) it returns
    [True] only with matching names, both files readable, a silent digest
    tool and a non-empty supplied digest equal to the digest recomputed over
    the chunk on disk; (iv) it never returns [False]. *)
Theorem verify_hmac_checks (dgst : string -> string -> string -> string * string)
    (filename hmacfile passphrase algorithm : string) (w : world) :
  (hmacfile <> filename +:+ ".hmac" ->
   exists msg,
     verify_hmac dgst filename hmacfile passphrase algorithm w
     = (Throws (QubesException msg), w)) /\
  (hmacfile = filename +:+ ".hmac" ->
   match w_fs w !! filename with
   | Some (File chunk) =>
       if 0 <? String.length (snd (dgst algorithm passphrase chunk)) then
         exists msg,
           verify_hmac dgst filename hmacfile passphrase algorithm w
           = (Throws (QubesException msg), w)
       else
         match w_fs w !! hmacfile with
         | Some (File supplied) =>
             match load_hmac supplied,
                   load_hmac (fst (dgst algorithm passphrase chunk)) with
             | Ok hmac, Ok computed =>
                 if (0 <? String.length hmac) && String.eqb computed hmac
                 then verify_hmac dgst filename hmacfile passphrase algorithm w
                      = (Returns true,
                         World (delete hmacfile (w_fs w)) (w_queue w)
                               ((w_log w ++ [EvUnlink hmacfile])
                                ++ [EvVerified filename algorithm]))
                 else exists msg,
                        verify_hmac dgst filename hmacfile passphrase algorithm w
                        = (Throws (QubesException msg), w)
             | _, _ =>
                 exists msg,
                   verify_hmac dgst filename hmacfile passphrase algorithm w
                   = (Throws (QubesException msg), w)
             end
         | _ =>
             verify_hmac dgst filename hmacfile passphrase algorithm w
             = (Throws (IOError hmacfile), w)
         end
   | _ =>
       verify_hmac dgst filename hmacfile passphrase algorithm w
       = (Throws (IOError filename), w)
   end) /\
  (forall w',
     verify_hmac dgst filename hmacfile passphrase algorithm w = (Returns true, w') ->
     hmacfile = filename +:+ ".hmac" /\
     exists chunk supplied digest,
       w_fs w !! filename = Some (File chunk) /\
       w_fs w !! hmacfile = Some (File supplied) /\
       snd (dgst algorithm passphrase chunk) = "" /\
       load_hmac supplied = Ok digest /\
       digest <> "" /\
       load_hmac (fst (dgst algorithm passphrase chunk)) = Ok digest /\
       w' = World (delete hmacfile (w_fs w)) (w_queue w)
                  ((w_log w ++ [EvUnlink hmacfile]) ++ [EvVerified filename algorithm])) /\
  (forall w', verify_hmac dgst filename hmacfile passphrase algorithm w
              <> (Returns false, w')).
Proof.
  split; [|split; [|split]].
  - intros H. eexists. now apply verify_hmac_name_mismatch.
  - intros ->. apply verify_hmac_cases.
  - intros w' Hret.
    destruct (String.eqb_spec hmacfile (filename +:+ ".hmac")) as [->|Hne];
      [|rewrite (verify_hmac_name_mismatch _ _ _ _ _ _ Hne) in Hret; discriminate].
    split; [reflexivity|].
    pose proof (verify_hmac_cases dgst filename passphrase algorithm w) as H.
    destruct (w_fs w !! filename) as [[chunk| |]|]; try congruence.
    destruct (0 <? String.length (snd (dgst algorithm passphrase chunk))) eqn:Herr;
      [destruct H as [msg H]; congruence|].
    destruct (w_fs w !! (filename +:+ ".hmac")) as [[supplied| |]|]; try congruence.
    destruct (load_hmac supplied) as [hmac|e] eqn:Eh;
      [|destruct H as [msg H]; congruence].
    destruct (load_hmac (fst (dgst algorithm passphrase chunk))) as [computed|e] eqn:Ec;
      [|destruct H as [msg H]; congruence].
    destruct (0 <? String.length hmac) eqn:Hlen; simpl in H;
      [|destruct H as [msg H]; congruence].
    destruct (String.eqb_spec computed hmac) as [->|Hd];
      [|destruct H as [msg H]; congruence].
    exists chunk, supplied, hmac. repeat split.
    + destruct (snd (dgst algorithm passphrase chunk)); [reflexivity|discriminate].
    + exact Eh.
    + intros ->. discriminate.
    + exact Ec.
    + congruence.
  - intros w'. apply verify_hmac_never_false.
Qed.

Lemma verify_hmac_checks_witness :
  verify_hmac toy_dgst sample_chunk (sample_chunk +:+ ".hmac") "pw" "SHA1"
    (World sample_restore_fs [] [])
  = (Returns true,
     World (delete (sample_chunk +:+ ".hmac") sample_restore_fs) []
           [EvUnlink (sample_chunk +:+ ".hmac"); EvVerified sample_chunk "SHA1"]).
Proof.
  exact (proj1 (proj2 (verify_hmac_checks toy_dgst sample_chunk
                         (sample_chunk +:+ ".hmac") "pw" "SHA1"
                         (World sample_restore_fs [] [])))
           eq_refl).
Defined.

(** ** C3: detection of the HMAC algorithm of the header *)

(** With both files readable, a call of [verify_hmac] either returns [True]
    or raises a [QubesException] and changes nothing. *)
Lemma verify_hmac_outcome (dgst : string -> string -> string -> string * string)
    (filename hmacfile passphrase algorithm : string) (w : world)
    (chunk supplied : string) :
  w_fs w !! filename = Some (File chunk) ->
  w_fs w !! hmacfile = Some (File supplied) ->
  (exists w', verify_hmac dgst filename hmacfile passphrase algorithm w
              = (Returns true, w')) \/
  (exists msg, verify_hmac dgst filename hmacfile passphrase algorithm w
               = (Throws (QubesException msg), w)).
Proof.
  intros Hc Hs.
  destruct (String.eqb_spec hmacfile (filename +:+ ".hmac")) as [->|Hne].
  - destruct (snd (dgst algorithm passphrase chunk)) as [|c err] eqn:Herr.
    + rewrite (verify_hmac_eval dgst filename passphrase algorithm w chunk supplied
                 Hc Hs Herr).
      destruct (load_hmac supplied) as [hmac|e] eqn:Eh.
      * destruct (load_hmac (fst (dgst algorithm passphrase chunk))) as [computed|e] eqn:Ec.
        -- destruct (_ && _); eauto.
        -- apply load_hmac_raise in Ec as ->. eauto.
      * apply load_hmac_raise in Eh as ->. eauto.
    + right. unfold verify_hmac. rewrite String.eqb_refl.
      destruct w as [fs q log].
      cbv beta iota zeta delta
        [negb bind read_file get_fs lift unlink emit set_fs ret throw w_fs w_queue w_log] in *.
      rewrite Hc. destruct (dgst algorithm passphrase chunk) as [out err'].
      simpl in Herr. subst err'. simpl. eauto.
  - right. eexists. now apply verify_hmac_name_mismatch.
Qed.

(** The detection loop returns the first candidate, in the order of the
    list, under which [verify_hmac] returns [True]. *)
Lemma verify_header_first (dgst : string -> string -> string -> string * string)
    (filename hmacfile passphrase : string) (w : world) (chunk supplied : string)
    (algos : list string) :
  w_fs w !! filename = Some (File chunk) ->
  w_fs w !! hmacfile = Some (File supplied) ->
  match List.find (verifies dgst filename hmacfile passphrase w) algos with
  | Some a =>
      exists w', verify_hmac dgst filename hmacfile passphrase a w = (Returns true, w') /\
                 verify_header dgst filename hmacfile passphrase algos w
                 = (Returns (Some a), w')
  | None => verify_header dgst filename hmacfile passphrase algos w = (Returns None, w)
  end.
Proof.
  intros Hc Hs. induction algos as [|a rest IH]; [reflexivity|].
  simpl. unfold verifies at 1.
  destruct (verify_hmac_outcome dgst filename hmacfile passphrase a w chunk supplied Hc Hs)
    as [[w' E]|[msg E]]; rewrite E.
  - eauto.
  - exact IH.
Qed.

(** The candidates: the caller's default, when it is not empty, and then
    the lines of the digest tool that are not alias lines, stripped, in the
    order in which the tool prints them. *)
Lemma get_supported_hmac_algo_order (default : string) (tool_lines : list string) :
  default <> "" ->
  get_supported_hmac_algo default tool_lines
  = default :: map strip (filter (fun algo => contains "=>" algo = false) tool_lines).
Proof.
  intros H. unfold get_supported_hmac_algo.
  destruct (String.eqb_spec default ""); [contradiction|reflexivity].
Qed.

(** C3, as stated, fails: the header below is authenticated under [SHA1],
    the caller's default and the first candidate that verifies it, but it
    declares [hmac-algorithm=SHA512]; the chunk that follows is then verified
    under [SHA512], not under [SHA1] (under which this chunk does not
    verify). *)
Lemma header_declared_algorithm_counterexample :
  List.find (verifies toy_dgst "/var/tmp/restore_x/backup-header"
               "/var/tmp/restore_x/backup-header.hmac" "pw"
               (World sample_header_fs [] []))
            (get_supported_hmac_algo "SHA1" (re_digest_algos sample_header_env))
  = Some "SHA1" /\
  l_hmac_algorithm
    (match fst (restore_header toy_dgst installed_module_name sample_header_args
                  sample_header_env (World sample_header_fs [] [])) with
     | Returns (loc, _) => loc
     | _ => RestoreLocals "" "" false false None false None
     end) = "SHA512" /\
  verifies toy_dgst "/var/tmp/restore_x/qubes.xml.000"
    "/var/tmp/restore_x/qubes.xml.000.hmac" "pw" (World sample_header_fs [] []) "SHA1"
  = false /\
  w_log (snd (restore_vm_dirs toy_dgst installed_module_name sample_header_args
                sample_header_env (World sample_header_fs [] [])))
  = [EvSpawn ["tar"; "-ixvf"; "/backups/qubes-2014-01-01T000000";
              "-C"; "/var/tmp/restore_x";
              "backup-header"; "backup-header.hmac";
              "qubes.xml.000"; "qubes.xml.000.hmac"];
     EvUnlink "/var/tmp/restore_x/backup-header.hmac";
     EvVerified "/var/tmp/restore_x/backup-header" "SHA1";
     EvUnlink "/var/tmp/restore_x/backup-header";
     EvMkfifo "/var/tmp/restore_x/restore_pipe";
     EvUnlink "/var/tmp/restore_x/qubes.xml.000.hmac";
     EvVerified "/var/tmp/restore_x/qubes.xml.000" "SHA512";
     EvPut "/var/tmp/restore_x/qubes.xml.000";
     EvPut "FINISHED";
     EvSpawn ["tar"; "-xMkf"; "/var/tmp/restore_x/restore_pipe"; "qubes.xml"];
     EvOpenWrite "/var/tmp/restore_x/restore_pipe";
     EvOpenRead "/var/tmp/restore_x/qubes.xml.000";
     EvUnlink "/var/tmp/restore_x/qubes.xml.000";
     EvUnlink "/var/tmp/restore_x/restore_pipe"].
Proof. repeat split; vm_compute; reflexivity. Qed.

(** Why the announced files must be there: when the announced header is
    not in the working directory, opening it fails and the [IOError] leaves
    the detection loop, which only passes over [QubesException]. *)
Lemma restore_header_missing_file :
  fst (restore_header toy_dgst installed_module_name sample_header_args
         sample_header_env (World ∅ [] []))
  = Throws (IOError "/var/tmp/restore_x/backup-header").
Proof. vm_compute. reflexivity. Qed.

Lemma length_append (s t : string) :
  String.length (s +:+ t) = String.length s + String.length t.
Proof.
  induction s as [|c s IH]; [reflexivity|]. rewrite append_cons. simpl. now rewrite IH.
Qed.

Lemma append_neq_self (s t : string) : t <> "" -> s <> s +:+ t.
Proof.
  intros Ht E. apply (f_equal String.length) in E. rewrite length_append in E.
  destruct t; [contradiction|simpl in E; lia].
Qed.

(** *** What a run adds to the log *)

Lemma logs_weaken {A} (P Q : event -> Prop) (m : M A) :
  (forall ev, P ev -> Q ev) -> logs P m -> logs Q m.
Proof.
  intros HPQ Hm w. destruct (Hm w) as (evs & E & H). exists evs. split; [exact E|].
  eapply Forall_impl; eauto.
Qed.

Lemma logs_ret {A} (P : event -> Prop) (a : A) : logs P (ret a).
Proof. intros w. exists []. simpl. rewrite app_nil_r. auto. Qed.

Lemma logs_throw {A} (P : event -> Prop) (e : exn) : logs P (@throw A e).
Proof. intros w. exists []. simpl. rewrite app_nil_r. auto. Qed.

Lemma logs_blocks {A} (P : event -> Prop) : logs P (@blocks A).
Proof. intros w. exists []. simpl. rewrite app_nil_r. auto. Qed.

Lemma logs_lift {A} (P : event -> Prop) (r : result A) : logs P (lift r).
Proof. destruct r; [apply logs_ret|apply logs_throw]. Qed.

Lemma logs_get_fs (P : event -> Prop) : logs P get_fs.
Proof. intros w. exists []. simpl. rewrite app_nil_r. auto. Qed.

Lemma logs_set_fs (P : event -> Prop) (fs : gmap string node) : logs P (set_fs fs).
Proof. intros w. exists []. simpl. rewrite app_nil_r. auto. Qed.

Lemma logs_get_queue (P : event -> Prop) : logs P get_queue.
Proof. intros w. exists []. simpl. rewrite app_nil_r. auto. Qed.

Lemma logs_new_queue (P : event -> Prop) : logs P new_queue.
Proof. intros w. exists []. simpl. rewrite app_nil_r. auto. Qed.

Lemma logs_emit (P : event -> Prop) (ev : event) : P ev -> logs P (emit ev).
Proof. intros H w. exists [ev]. simpl. auto. Qed.

Lemma logs_put (P : event -> Prop) (item : string) :
  P (EvPut item) -> logs P (put item).
Proof. intros H w. exists [EvPut item]. simpl. auto. Qed.

Lemma logs_bind {A B} (P : event -> Prop) (m : M A) (k : A -> M B) :
  logs P m -> (forall a, logs P (k a)) -> logs P (bind m k).
Proof.
  intros Hm Hk w. unfold bind. destruct (Hm w) as (evs1 & E1 & H1).
  destruct (m w) as [[a|e|] w1]; simpl in E1; try (exists evs1; now split).
  destruct (Hk a w1) as (evs2 & E2 & H2).
  exists (evs1 ++ evs2). rewrite E2, E1, app_assoc. split; [reflexivity|].
  apply Forall_app. auto.
Qed.

Lemma logs_try_except {A} (P : event -> Prop) (m : M A) (h : exn -> M A) :
  logs P m -> (forall e, logs P (h e)) -> logs P (try_except m h).
Proof.
  intros Hm Hh w. unfold try_except. destruct (Hm w) as (evs1 & E1 & H1).
  destruct (m w) as [[a|e|] w1]; simpl in E1; try (exists evs1; now split).
  destruct (Hh e w1) as (evs2 & E2 & H2).
  exists (evs1 ++ evs2). rewrite E2, E1, app_assoc. split; [reflexivity|].
  apply Forall_app. auto.
Qed.

Ltac logs_step :=
  first
    [ apply logs_bind; [|intros ?]
    | apply logs_ret | apply logs_throw | apply logs_blocks | apply logs_lift
    | apply logs_get_fs | apply logs_set_fs | apply logs_get_queue
    | apply logs_new_queue
    | apply logs_emit; exact I
    | apply logs_put; exact I
    | match goal with
      | |- logs _ (match ?x with _ => _ end) => destruct x
      | |- logs _ (if ?b then _ else _) => destruct b
      end ].

Ltac logs_tac := repeat logs_step.

Lemma logs_read_file (P : event -> Prop) (path : string) : logs P (read_file path).
Proof. unfold read_file. logs_tac. Qed.

Lemma logs_unlink (path : string) : logs no_verification (unlink path).
Proof. unfold unlink. logs_tac. Qed.

Lemma logs_mkfifo (path : string) : logs no_verification (mkfifo path).
Proof. unfold mkfifo. logs_tac. Qed.

Lemma no_verification_under (algorithm : string) (ev : event) :
  no_verification ev -> verified_under algorithm ev.
Proof. destruct ev; simpl; tauto. Qed.

Ltac logs_quiet :=
  repeat first
    [ apply logs_read_file | apply logs_unlink | apply logs_mkfifo
    | logs_step | progress cbv zeta ].

Lemma logs_extract_step (env : extract_env) (s : ExtractWorker.self)
    (filename : string) :
  logs no_verification (ExtractWorker.step env s filename).
Proof. unfold ExtractWorker.step. logs_quiet. Qed.

Lemma logs_extract_loop (env : extract_env) (items : list string) :
  forall s, logs no_verification (ExtractWorker.loop env s items).
Proof.
  induction items as [|f items IH]; intros s; simpl; [apply logs_blocks|].
  destruct (_ || _); [apply logs_ret|].
  apply logs_bind; [apply logs_extract_step|intros s']. apply IH.
Qed.

Lemma logs_extract_run (env : extract_env) (s : ExtractWorker.self)
    (items : list string) :
  logs no_verification (ExtractWorker.run env s items).
Proof.
  unfold ExtractWorker.run, ExtractWorker.__run__.
  apply logs_try_except; [|intros e; apply logs_ret].
  apply logs_bind; [|intros ?; apply logs_ret].
  apply logs_bind; [apply logs_extract_loop|intros [s' filename]].
  apply logs_bind; [apply logs_unlink|intros ?].
  destruct (ExtractWorker.tar2_process s'); [|apply logs_ret].
  apply logs_bind; [logs_tac|intros ?]. logs_tac.
Qed.

Lemma logs_join_extract (env : restore_env) (worker : ExtractWorker.self) :
  logs no_verification (join_extract env worker).
Proof.
  unfold join_extract. apply logs_bind; [apply logs_get_queue|intros items].
  apply logs_extract_run.
Qed.

(** Every verification [verify_hmac] records is under the algorithm it was
    called with. *)
Lemma logs_verify_hmac (dgst : string -> string -> string -> string * string)
    (filename hmacfile passphrase algorithm : string) :
  logs (verified_under algorithm)
       (verify_hmac dgst filename hmacfile passphrase algorithm).
Proof.
  unfold verify_hmac. destruct (negb _); [apply logs_throw|].
  apply logs_bind; [apply logs_read_file|intros chunk].
  destruct (dgst algorithm passphrase chunk) as [out err].
  destruct (0 <? String.length err); [apply logs_throw|].
  apply logs_bind; [apply logs_read_file|intros supplied].
  apply logs_bind; [apply logs_lift|intros hmac].
  apply logs_bind; [logs_tac|intros ok].
  destruct ok; [|logs_tac].
  apply logs_bind.
  { eapply logs_weaken; [apply no_verification_under|apply logs_unlink]. }
  intros ?. apply logs_bind; [apply logs_emit; reflexivity|intros ?]. apply logs_ret.
Qed.

(** The loop over the announced names verifies under the algorithm it was
    given and under no other. *)
Lemma logs_restore_loop (dgst : string -> string -> string -> string * string)
    (args : restore_args) (hmac_algorithm : string) (fuel : nat) :
  forall nextfile pipe,
    logs (verified_under hmac_algorithm)
         (restore_loop dgst fuel args hmac_algorithm nextfile pipe).
Proof.
  induction fuel as [|fuel IH]; intros nextfile pipe; [apply logs_blocks|].
  simpl.
  destruct (match nextfile with Some n => (n, pipe) | None => readline pipe end)
    as [filename pipe1].
  destruct (is_end filename); [apply logs_ret|].
  destruct (readline pipe1) as [hmacfile pipe2].
  destruct (if negb (ra_appvm args)
            then (Some (fst (readline pipe2)), snd (readline pipe2))
            else (nextfile, pipe2)) as [nextfile' pipe3].
  destruct (is_end hmacfile); [apply logs_ret|].
  assert (Hunlink : forall path, logs (verified_under hmac_algorithm) (unlink path)).
  { intros path. eapply logs_weaken; [apply no_verification_under|apply logs_unlink]. }
  destruct (negb (existsb _ _)).
  - apply logs_bind; [apply Hunlink|intros ?].
    apply logs_bind; [apply Hunlink|intros ?]. apply IH.
  - apply logs_bind; [apply logs_verify_hmac|intros ok].
    apply logs_bind; [|intros ?; apply IH].
    destruct ok; [apply logs_put; exact I|apply logs_ret].
Qed.

(** What runs before the header analysis records no verification. *)
Lemma restore_prelude (args : restore_args) (env : restore_env) (w : world) :
  exists evs,
    (if ra_appvm args then
       emit (EvVMRun "QUBESRPC qubes.Restore dom0");;
       emit (EvVMWrite (remove_char "010"%char
                          (remove_char "013"%char (ra_backup_source args))
                        +:+ String "010"%char ""));;
       emit (EvVMWrite (join_with " " (ra_vms_dirs args) +:+ String "010"%char ""));;
       emit (EvSpawn ["/usr/libexec/qubes/qfile-dom0-unpacker"; re_uid env;
                      ra_restore_tmpdir args; "-v"])
     else
       emit (EvSpawn (["tar"; "-ixvf"; ra_backup_source args;
                       "-C"; ra_restore_tmpdir args] ++ ra_vms_dirs args))) w
    = (Returns tt, World (w_fs w) (w_queue w) (w_log w ++ evs)) /\
    Forall no_verification evs.
Proof.
  destruct (ra_appvm args); unfold bind, emit; simpl; rewrite <- ?app_assoc;
    eexists; (split; [reflexivity|]); repeat constructor.
Qed.

Lemma bind_run {A B} (m : M A) (k : A -> M B) (w w1 : world) (a : A) :
  m w = (Returns a, w1) -> bind m k w = k a w1.
Proof. intros H. unfold bind. now rewrite H. Qed.

Lemma new_queue_run {B} (k : unit -> M B) (w : world) :
  bind new_queue k w = k tt (World (w_fs w) [] (w_log w)).
Proof. reflexivity. Qed.

Lemma bind_throws {A B} (m : M A) (k : A -> M B) (w w1 : world) (e : exn) :
  m w = (Throws e, w1) -> bind m k w = (Throws e, w1).
Proof. intros H. unfold bind. now rewrite H. Qed.

(** Whether a candidate verifies the pair depends on the files only. *)
Lemma verifies_files (dgst : string -> string -> string -> string * string)
    (filename hmacfile passphrase : string) (w1 w2 : world) (algorithm : string) :
  w_fs w1 = w_fs w2 ->
  verifies dgst filename hmacfile passphrase w1 algorithm
  = verifies dgst filename hmacfile passphrase w2 algorithm.
Proof.
  intros Hfs. unfold verifies, verify_hmac.
  destruct (negb _); [reflexivity|].
  destruct w1 as [fs1 q1 log1], w2 as [fs2 q2 log2]. simpl in Hfs. subst fs2.
  cbv beta iota zeta delta
    [bind read_file get_fs lift unlink emit set_fs ret throw w_fs w_queue w_log].
  destruct (fs1 !! filename) as [[chunk| |]|]; try reflexivity.
  destruct (dgst algorithm passphrase chunk) as [out err].
  destruct (0 <? String.length err); [reflexivity|].
  destruct (fs1 !! hmacfile) as [[supplied| |]|] eqn:Es; try reflexivity.
  destruct (load_hmac supplied) as [hmac|]; [|reflexivity].
  destruct (0 <? String.length hmac).
  - destruct (load_hmac out) as [computed|]; [|reflexivity].
    destruct (String.eqb computed hmac); [|reflexivity].
    rewrite Es. reflexivity.
  - destruct (load_hmac out); reflexivity.
Qed.

(** The world in which [verify_hmac] has returned [True]. *)
Lemma verify_hmac_true (dgst : string -> string -> string -> string * string)
    (filename hmacfile passphrase algorithm : string) (w w' : world) :
  verify_hmac dgst filename hmacfile passphrase algorithm w = (Returns true, w') ->
  hmacfile = filename +:+ ".hmac" /\
  w' = World (delete hmacfile (w_fs w)) (w_queue w)
             (w_log w ++ [EvUnlink hmacfile; EvVerified filename algorithm]).
Proof.
  intros Hret.
  destruct (String.eqb_spec hmacfile (filename +:+ ".hmac")) as [->|Hne];
    [|rewrite (verify_hmac_name_mismatch _ _ _ _ _ _ Hne) in Hret; discriminate].
  split; [reflexivity|].
  pose proof (verify_hmac_cases dgst filename passphrase algorithm w) as H.
  destruct (w_fs w !! filename) as [[chunk| |]|]; try congruence.
  destruct (0 <? String.length (snd (dgst algorithm passphrase chunk)));
    [destruct H as [msg H]; congruence|].
  destruct (w_fs w !! (filename +:+ ".hmac")) as [[supplied| |]|]; try congruence.
  destruct (load_hmac supplied) as [hmac|e]; [|destruct H as [msg H]; congruence].
  destruct (load_hmac (fst (dgst algorithm passphrase chunk))) as [computed|e];
    [|destruct H as [msg H]; congruence].
  destruct (_ && _); [|destruct H as [msg H]; congruence].
  rewrite H in Hret. injection Hret as <-. now rewrite <- app_assoc.
Qed.

(** The header analysis once a candidate has verified the first announced
    file: the record of that verification, the algorithm with which the
    restore goes on, and no other verification. *)
Lemma restore_header_adopts (dgst : string -> string -> string -> string * string)
    (module_name : string) (args : restore_args) (env : restore_env) (w : world)
    (chunk supplied first : string) :
  is_end (fst (announced_header env)) = false ->
  is_end (snd (announced_header env)) = false ->
  w_fs w !! path_join (ra_restore_tmpdir args) (fst (announced_header env))
  = Some (File chunk) ->
  w_fs w !! path_join (ra_restore_tmpdir args) (snd (announced_header env))
  = Some (File supplied) ->
  List.find
    (verifies dgst
       (path_join (ra_restore_tmpdir args) (fst (announced_header env)))
       (path_join (ra_restore_tmpdir args) (snd (announced_header env)))
       (ra_passphrase args) w)
    (get_supported_hmac_algo (ra_hmac_algorithm args) (re_digest_algos env))
  = Some first ->
  exists evs,
    w_log (snd (restore_header dgst module_name args env w))
    = w_log w
      ++ [EvUnlink (path_join (ra_restore_tmpdir args) (snd (announced_header env)));
          EvVerified (path_join (ra_restore_tmpdir args) (fst (announced_header env)))
                     first]
      ++ evs /\
    Forall no_verification evs /\
    match fst (restore_header dgst module_name args env w) with
    | Returns (loc, _) =>
        l_hmac_algorithm loc
        = adopted_algorithm module_name
            (path_join (ra_restore_tmpdir args) (fst (announced_header env)))
            chunk first
    | _ => True
    end.
Proof.
  unfold announced_header, restore_header.
  destruct (readline (re_filelist env)) as [name pipe1]. simpl.
  destruct (readline pipe1) as [hname pipe2]. simpl.
  destruct (readline pipe2) as [nextfile pipe3].
  intros Hname Hhmac Hchunk Hsupplied Hfind. rewrite Hname, Hhmac. simpl.
  set (header := path_join (ra_restore_tmpdir args) name) in *.
  set (hmacfile := path_join (ra_restore_tmpdir args) hname) in *.
  pose proof (verify_header_first dgst header hmacfile (ra_passphrase args) w
                chunk supplied
                (get_supported_hmac_algo (ra_hmac_algorithm args) (re_digest_algos env))
                Hchunk Hsupplied) as H.
  rewrite Hfind in H. destruct H as (w1 & Hverify & Hheader).
  apply verify_hmac_true in Hverify as [Hpair ->].
  rewrite (bind_run _ _ _ _ _ Hheader).
  unfold adopted_algorithm.
  assert (Hne : hmacfile <> header).
  { rewrite Hpair. intros E. symmetry in E. revert E.
    apply append_neq_self. discriminate. }
  destruct (String.eqb (basename header) HEADER_FILENAME).
  - unfold parse_backup_header.
    destruct w as [fs q log]. simpl in Hchunk.
    cbv beta iota zeta delta
      [bind read_file get_fs lift unlink emit set_fs ret throw w_fs w_queue w_log].
    rewrite lookup_delete_ne by exact Hne. rewrite Hchunk.
    destruct (parse_backup_header_content module_name chunk) as [hd|e].
    + rewrite lookup_delete_ne by exact Hne. rewrite Hchunk. simpl.
      exists [EvUnlink header]. rewrite <- ?app_assoc. simpl.
      repeat split; repeat constructor.
    + simpl. exists []. rewrite <- ?app_assoc. simpl. repeat split; constructor.
  - unfold bind, put, ret. simpl.
    exists [EvPut header]. rewrite <- ?app_assoc. simpl.
    repeat split; repeat constructor.
Qed.

(** C3 (amended): when [restore_vm_dirs] analyses the header and the two
    files announced first are in the working directory, the HMAC of the
    first is checked under the caller's default algorithm first (when it is
    not empty) and then under every algorithm enumerated by the digest tool,
    in that order.  When no candidate verifies it, [restore_vm_dirs] raises
    the corrupted-header error, having verified nothing and changed no file.
    Otherwise the first candidate that verifies it is the one recorded for
    it, and every verification [restore_vm_dirs] makes afterwards, of the
    chunks that follow, is made under that candidate -- unless the verified
    file is the backup header and declares an [hmac-algorithm], in which
    case it is made under the declared value. *)
Theorem header_algorithm_detection
    (dgst : string -> string -> string -> string * string) (module_name : string)
    (args : restore_args) (env : restore_env) (w : world) (chunk supplied : string)
    (Hrequested : header_requested args = true)
    (Hname : is_end (fst (announced_header env)) = false)
    (Hhmac : is_end (snd (announced_header env)) = false)
    (Hchunk : w_fs w !! path_join (ra_restore_tmpdir args) (fst (announced_header env))
              = Some (File chunk))
    (Hsupplied : w_fs w !! path_join (ra_restore_tmpdir args) (snd (announced_header env))
                 = Some (File supplied)) :
  match List.find
          (verifies dgst
             (path_join (ra_restore_tmpdir args) (fst (announced_header env)))
             (path_join (ra_restore_tmpdir args) (snd (announced_header env)))
             (ra_passphrase args) w)
          ((if String.eqb (ra_hmac_algorithm args) "" then [] else [ra_hmac_algorithm args])
           ++ map strip (filter (fun algo => contains "=>" algo = false)
                                (re_digest_algos env)))
  with
  | None =>
      fst (restore_vm_dirs dgst module_name args env w)
      = Throws (QubesException "Corrupted backup header (hmac verification failed)") /\
      w_fs (snd (restore_vm_dirs dgst module_name args env w)) = w_fs w /\
      exists evs,
        w_log (snd (restore_vm_dirs dgst module_name args env w)) = w_log w ++ evs /\
        Forall no_verification evs
  | Some first =>
      exists before after,
        w_log (snd (restore_vm_dirs dgst module_name args env w))
        = w_log w ++ before
          ++ EvVerified (path_join (ra_restore_tmpdir args) (fst (announced_header env)))
                        first
          :: after /\
        Forall no_verification before /\
        Forall (verified_under
                  (adopted_algorithm module_name
                     (path_join (ra_restore_tmpdir args) (fst (announced_header env)))
                     chunk first))
               after
  end.
Proof.
  fold (get_supported_hmac_algo (ra_hmac_algorithm args) (re_digest_algos env)).
  unfold restore_vm_dirs. rewrite Hrequested.
  destruct (restore_prelude args env w) as (evs0 & Hprelude & Hevs0).
  rewrite (bind_run _ _ _ _ _ Hprelude).
  rewrite new_queue_run. cbn [w_fs w_queue w_log].
  set (w0 := World (w_fs w) [] (w_log w ++ evs0)).
  set (header := path_join (ra_restore_tmpdir args) (fst (announced_header env))) in *.
  set (hmacfile := path_join (ra_restore_tmpdir args) (snd (announced_header env))) in *.
  assert (Hsame : List.find (verifies dgst header hmacfile (ra_passphrase args) w)
                    (get_supported_hmac_algo (ra_hmac_algorithm args)
                       (re_digest_algos env))
                  = List.find (verifies dgst header hmacfile (ra_passphrase args) w0)
                      (get_supported_hmac_algo (ra_hmac_algorithm args)
                         (re_digest_algos env))).
  { induction (get_supported_hmac_algo _ _) as [|a l IH]; [reflexivity|]. simpl.
    rewrite (verifies_files dgst header hmacfile (ra_passphrase args) w w0 a eq_refl).
    now rewrite IH. }
  destruct (List.find (verifies dgst header hmacfile (ra_passphrase args) w) _)
    as [first|]; symmetry in Hsame; rename Hsame into Hfind.
  - destruct (restore_header_adopts dgst module_name args env w0 chunk supplied first
                Hname Hhmac Hchunk Hsupplied Hfind) as (evs1 & Hlog & Hevs1 & Hloc).
    fold header hmacfile in Hlog, Hloc.
    destruct (restore_header dgst module_name args env w0) as [[[loc pipe]|e|] w1] eqn:Eh;
      simpl in Hlog, Hloc.
    + rewrite (bind_run _ _ _ _ _ Eh).
      match goal with
      | |- context [snd (?m w1)] =>
          assert (Hrest : logs (verified_under (l_hmac_algorithm loc)) m)
      end.
      { assert (Hjoin : forall worker,
                   logs (verified_under (l_hmac_algorithm loc))
                        (join_extract env worker)).
        { intros worker.
          eapply logs_weaken; [apply no_verification_under|apply logs_join_extract]. }
        apply logs_bind.
        { unfold ExtractWorker.init.
          apply logs_bind; [|intros ?; apply logs_ret].
          eapply logs_weaken; [apply no_verification_under|apply logs_mkfifo]. }
        intros worker. apply logs_bind.
        { apply logs_try_except.
          - apply logs_bind; [apply logs_restore_loop|intros filename]. logs_tac.
          - intros e. apply logs_bind; [apply logs_put; exact I|intros ?].
            apply logs_bind; [apply Hjoin|intros ?]. apply logs_throw. }
        intros ?. apply logs_bind; [apply logs_put; exact I|intros ?].
        apply logs_bind; [apply Hjoin|intros exitcode]. logs_tac. }
      destruct (Hrest w1) as (evs2 & Hlog2 & Hevs2).
      exists (evs0 ++ [EvUnlink hmacfile]), (evs1 ++ evs2).
      rewrite Hlog2, Hlog. unfold w0. cbn [w_log].
      repeat split.
      * rewrite <- !app_assoc. reflexivity.
      * apply Forall_app. split; [exact Hevs0|repeat constructor].
      * rewrite <- Hloc. apply Forall_app. split; [|exact Hevs2].
        eapply Forall_impl; [exact Hevs1|]. intros ev. apply no_verification_under.
    + rewrite (bind_throws _ _ _ _ _ Eh).
      exists (evs0 ++ [EvUnlink hmacfile]), evs1.
      cbn [snd]. rewrite Hlog. unfold w0. cbn [w_log].
      repeat split.
      * rewrite <- !app_assoc. reflexivity.
      * apply Forall_app. split; [exact Hevs0|repeat constructor].
      * eapply Forall_impl; [exact Hevs1|]. intros ev. apply no_verification_under.
    + assert (Hb : forall B (k : restore_locals * list string -> M B),
                 bind (restore_header dgst module_name args env) k w0 = (Blocks, w1))
        by (intros B k; unfold bind; now rewrite Eh).
      rewrite Hb.
      exists (evs0 ++ [EvUnlink hmacfile]), evs1.
      cbn [snd]. rewrite Hlog. unfold w0. cbn [w_log].
      repeat split.
      * rewrite <- !app_assoc. reflexivity.
      * apply Forall_app. split; [exact Hevs0|repeat constructor].
      * eapply Forall_impl; [exact Hevs1|]. intros ev. apply no_verification_under.
  - assert (Eh : restore_header dgst module_name args env w0
                 = (Throws (QubesException
                              "Corrupted backup header (hmac verification failed)"), w0)).
    { unfold restore_header. fold header hmacfile. unfold announced_header in *.
      destruct (readline (re_filelist env)) as [name pipe1]. simpl in *.
      destruct (readline pipe1) as [hname pipe2]. simpl in *.
      destruct (readline pipe2) as [nextfile pipe3].
      rewrite Hname, Hhmac. simpl.
      pose proof (verify_header_first dgst header hmacfile (ra_passphrase args) w0
                    chunk supplied
                    (get_supported_hmac_algo (ra_hmac_algorithm args)
                       (re_digest_algos env))
                    Hchunk Hsupplied) as H.
      fold header hmacfile in Hfind. rewrite Hfind in H.
      now rewrite (bind_run _ _ _ _ _ H). }
    rewrite (bind_throws _ _ _ _ _ Eh). cbn [fst snd]. unfold w0. cbn [w_fs w_log].
    repeat split. exists evs0. auto.
Qed.

Lemma header_algorithm_detection_witness :
  exists before after,
    w_log (snd (restore_vm_dirs toy_dgst installed_module_name sample_header_args
                  sample_header_env (World sample_header_fs [] [])))
    = [] ++ before
      ++ EvVerified "/var/tmp/restore_x/backup-header" "SHA1" :: after /\
    Forall no_verification before /\
    Forall (verified_under "SHA512") after.
Proof.
  pose proof (header_algorithm_detection toy_dgst installed_module_name
                sample_header_args sample_header_env (World sample_header_fs [] [])
                sample_header (fst (toy_dgst "SHA1" "pw" sample_header))
                eq_refl eq_refl eq_refl eq_refl eq_refl) as H.
  match type of H with
  | context [List.find ?f ?l] =>
      assert (Hfind : List.find f l = Some "SHA1") by (vm_compute; reflexivity)
  end.
  rewrite Hfind in H. exact H.
Defined.

(** ** C4: parse_backup_header *)

Lemma count_lstrip_by (p : ascii -> bool) (sep : ascii) (s : string) :
  p sep = false -> count sep (lstrip_by p s) = count sep s.
Proof.
  intros Hp. induction s as [|c s IH]; [reflexivity|]. simpl.
  destruct (p c) eqn:E; [|reflexivity].
  rewrite IH. destruct (Ascii.eqb_spec c sep) as [->|]; [congruence|reflexivity].
Qed.

Lemma count_rstrip_by (p : ascii -> bool) (sep : ascii) (s : string) :
  p sep = false -> count sep (rstrip_by p s) = count sep s.
Proof.
  intros Hp. induction s as [|c s IH]; [reflexivity|]. simpl.
  destruct (rstrip_by p s) eqn:E.
  - simpl in IH. destruct (p c) eqn:Ec; simpl; rewrite <- IH; [|lia].
    destruct (Ascii.eqb_spec c sep) as [->|]; [congruence|reflexivity].
  - simpl. simpl in IH. rewrite IH. reflexivity.
Qed.

Lemma count_strip (sep : ascii) (s : string) :
  isspace sep = false -> count sep (strip s) = count sep s.
Proof.
  intros H. unfold strip. now rewrite count_rstrip_by, count_lstrip_by.
Qed.

(** A line with exactly one ['='] splits into a key and a value. *)
Lemma split_one_eq (line : string) :
  count "="%char line = 1 ->
  exists key value, split "="%char (strip line) = [key; value].
Proof.
  intros H. pose proof (split_length "="%char (strip line)) as L.
  rewrite count_strip, H in L by reflexivity.
  destruct (split "="%char (strip line)) as [|k [|v [|x l]]]; try discriminate.
  eauto.
Qed.

(** A line whose number of ['='] is not one raises the corrupt-header error. *)
Lemma parse_header_line_bad_count (m : string) (hd : gmap string pyval) (line : string) :
  count "="%char line <> 1 ->
  parse_header_line m hd line
  = Raise (QubesException ("Invalid backup header (line " +:+ line +:+ ")")).
Proof.
  intros H. unfold parse_header_line.
  destruct (Nat.eqb_spec (count "="%char line) 1); [contradiction|reflexivity].
Qed.

(** A line with one ['='] and one of the four option names is recorded. *)
Lemma parse_header_line_option (m : string) (hd : gmap string pyval)
    (line key value : string) :
  count "="%char line = 1 ->
  split "="%char (strip line) = [key; value] ->
  str_in key header_options = true ->
  parse_header_line m hd line = Ok (<[key := header_value key value]> hd).
Proof.
  intros Hc Hs Hk. unfold parse_header_line. rewrite Hc, Hs. simpl.
  unfold header_options, str_in in Hk. simpl in Hk.
  assert (E : existsb (str_eq_pyval key) (BackupHeader.attr_values m) = true).
  { simpl. rewrite !orb_true_iff in Hk. rewrite !orb_true_iff. tauto. }
  simpl in E. rewrite E. reflexivity.
Qed.

(** A line with one ['='] whose key is neither one of the four option names
    nor the module's own name is ignored. *)
Lemma parse_header_line_unknown (m : string) (hd : gmap string pyval)
    (line key value : string) :
  count "="%char line = 1 ->
  split "="%char (strip line) = [key; value] ->
  str_in key header_options = false ->
  key <> m ->
  parse_header_line m hd line = Ok hd.
Proof.
  intros Hc Hs Hk Hm. unfold parse_header_line. rewrite Hc, Hs. simpl.
  unfold header_options, str_in in Hk. simpl in Hk.
  repeat (apply orb_false_elim in Hk; destruct Hk as [? Hk]).
  destruct (String.eqb_spec key m) as [->|_]; [contradiction|].
  unfold BackupHeader.compressed, BackupHeader.crypto_algorithm,
    BackupHeader.encrypted, BackupHeader.hmac_algorithm in *.
  repeat match goal with H : String.eqb _ _ = false |- _ => rewrite H; clear H end.
  reflexivity.
Qed.

(** A line with one ['='] whose key is the module's own name is recorded,
    whatever that name is. *)
Lemma parse_header_line_module_name (m : string) (hd : gmap string pyval)
    (line value : string) :
  count "="%char line = 1 ->
  split "="%char (strip line) = [m; value] ->
  parse_header_line m hd line = Ok (<[m := header_value m value]> hd).
Proof.
  intros Hc Hs. unfold parse_header_line. rewrite Hc, Hs. simpl.
  rewrite String.eqb_refl. reflexivity.
Qed.

(** The whole file is refused as soon as one of its lines is. *)
Lemma parse_header_lines_bad_line (m : string) (lines : list string) :
  forall hd,
  Exists (fun line => count "="%char line <> 1) lines ->
  exists msg, parse_header_lines m hd lines = Raise (QubesException msg).
Proof.
  induction lines as [|line rest IH]; intros hd Hex; [inversion Hex|].
  simpl. destruct (Nat.eq_dec (count "="%char line) 1) as [H1|H1].
  - assert (Hrest : Exists (fun line => count "="%char line <> 1) rest).
    { inversion Hex; subst; [contradiction|assumption]. }
    destruct (split_one_eq line H1) as (key & value & Hs).
    unfold parse_header_line. rewrite H1, Hs. simpl.
    destruct (negb _); [now apply IH|now apply IH].
  - rewrite parse_header_line_bad_count by exact H1. eauto.
Qed.

(** C4: the header line [qubes.backup=x] has exactly one ['='] and a key
    that is none of the four option names, yet [parse_backup_header] records
    it: the key equals [BackupHeader.__module__], one of the values the
    recognition test [key == getattr(BackupHeader, attr) for attr in
    dir(BackupHeader)] runs over.  The comment on that branch reads "Ignoring
    unknown option". *)
Theorem parse_backup_header_records_module_name :
  count "="%char ("qubes.backup=x" +:+ NL) = 1 /\
  str_in "qubes.backup" header_options = false /\
  parse_backup_header_content installed_module_name ("qubes.backup=x" +:+ NL)
  = Ok {[ "qubes.backup" := PyStr "x" ]} /\
  parse_backup_header_content installed_module_name ("future-option=42" +:+ NL)
  = Ok ∅.
Proof. repeat split; vm_compute; reflexivity. Qed.

(** ** C5: compressed and encrypted together *)

(** C5: when both [compressed] and [encrypted] are requested, [backup_do]
    raises its plan-invalid error and the world is the one it started in: no
    output file opened, no working directory created, nothing written, no
    child started, nothing queued. *)
Theorem backup_do_rejects_compressed_encrypted
    (dgst : string -> string -> string -> string * string)
    (args : backup_args) (env : backup_env) (w : world)
    (Hc : ba_compressed args = true) (He : ba_encrypted args = true) :
  backup_do dgst args env w
  = (Throws (QubesException "Compressed and encrypted backups are not supported (yet)."),
     w).
Proof. unfold backup_do. rewrite Hc, He. reflexivity. Qed.

Lemma backup_do_rejects_compressed_encrypted_witness :
  backup_do toy_dgst sample_backup_args sample_backup_env (World ∅ [] [])
  = (Throws (QubesException "Compressed and encrypted backups are not supported (yet)."),
     World ∅ [] []).
Proof.
  apply (backup_do_rejects_compressed_encrypted toy_dgst sample_backup_args
           sample_backup_env (World ∅ [] [])); reflexivity.
Defined.

(** ** C6: load_hmac *)

Lemma load_hmac_no_eq (content : string) :
  count "="%char (strip content) = 0 ->
  load_hmac content = Raise (QubesException "ERROR: invalid hmac file content").
Proof.
  intros H. unfold load_hmac. rewrite split_no_sep by exact H. reflexivity.
Qed.

Lemma load_hmac_one_eq (content pre mid : string) :
  strip content = pre +:+ String "="%char mid ->
  count "="%char pre = 0 -> count "="%char mid = 0 ->
  load_hmac content = Ok (strip mid).
Proof.
  intros E Hp Hm. unfold load_hmac. rewrite E, split_app_sep by exact Hp.
  rewrite split_no_sep by exact Hm. reflexivity.
Qed.

Lemma load_hmac_more_eq (content pre mid rest : string) :
  strip content = pre +:+ String "="%char (mid +:+ String "="%char rest) ->
  count "="%char pre = 0 -> count "="%char mid = 0 ->
  load_hmac content = Ok (strip mid).
Proof.
  intros E Hp Hm. unfold load_hmac. rewrite E, split_app_sep by exact Hp.
  rewrite split_app_sep by exact Hm. reflexivity.
Qed.

(** C6, as stated, fails: for the content [a=b=c] the claim promises the
    entire text after the first ['='], [b=c]; [load_hmac] returns [b]. *)
Lemma load_hmac_entire_tail_counterexample :
  strip "a=b=c" = "a" +:+ String "="%char "b=c" /\
  count "="%char "a" = 0 /\
  load_hmac "a=b=c" = Ok "b" /\
  load_hmac "a=b=c" <> Ok (strip "b=c").
Proof. repeat split; try reflexivity. discriminate. Qed.

(** C6 (amended): [load_hmac] strips the content, splits it on every ['='],
    and returns the stripped second field, that is the text between the first
    ['='] and the next ['='] or, without a second one, the end of the
    content; content without any ['='] raises the invalid-hmac-file error. *)
Theorem load_hmac_second_field (content pre field : string) (tail : option string)
    (Hshape : strip content =
              pre +:+ String "="%char
                (field +:+ match tail with
                           | Some rest => String "="%char rest
                           | None => ""
                           end))
    (Hpre : count "="%char pre = 0)
    (Hfield : count "="%char field = 0) :
  load_hmac content = Ok (strip field) /\
  (forall other, count "="%char (strip other) = 0 ->
     load_hmac other = Raise (QubesException "ERROR: invalid hmac file content")).
Proof.
  split.
  - destruct tail as [rest|].
    + eapply load_hmac_more_eq; eauto.
    + rewrite append_empty_r in Hshape.
      now apply (load_hmac_one_eq content pre field).
  - intros other H. now apply load_hmac_no_eq.
Qed.

Lemma load_hmac_second_field_witness :
  load_hmac ("HMAC-SHA1(stdin)= 8b5a=" +:+ NL) = Ok (strip " 8b5a") /\
  (forall other, count "="%char (strip other) = 0 ->
     load_hmac other = Raise (QubesException "ERROR: invalid hmac file content")).
Proof.
  apply (load_hmac_second_field ("HMAC-SHA1(stdin)= 8b5a=" +:+ NL)
           "HMAC-SHA1(stdin)" " 8b5a" (Some "")); reflexivity.
Defined.

(** ** C7: the working directory *)

Lemma bind_returns {A B} (m : M A) (k : A -> M B) (w w' : world) (b : B) :
  bind m k w = (Returns b, w') ->
  exists a w1, m w = (Returns a, w1) /\ k a w1 = (Returns b, w').
Proof.
  unfold bind. destruct (m w) as [[a| e |] w1]; intros H; try discriminate. eauto.
Qed.

Lemma rmtree_returns (d : string) (w w' : world) (p : string) :
  rmtree d w = (Returns tt, w') -> under d p = true -> w_fs w' !! p = None.
Proof.
  unfold rmtree, bind, get_fs, emit, set_fs, ret, throw. simpl.
  destruct (w_fs w !! d) as [[| |]|]; try discriminate.
  intros [= <-] Hp. simpl.
  apply map_lookup_filter_None. right. intros x _. simpl. rewrite Hp. discriminate.
Qed.

Lemma mkdtemp_returns (path a : string) (w w' : world) :
  mkdtemp path w = (Returns a, w') -> a = path.
Proof.
  unfold mkdtemp, bind, get_fs, emit, set_fs, ret, throw. simpl.
  destruct (w_fs w !! path); [discriminate|]. now intros [= <- _].
Qed.

Lemma backup_do_returns (dgst : string -> string -> string -> string * string)
    (args : backup_args) (env : backup_env) (w w' : world) (p : string) :
  backup_do dgst args env w = (Returns tt, w') ->
  under ("/var/tmp/backup_" +:+ be_tmp_suffix env) p = true ->
  w_fs w' !! p = None.
Proof.
  unfold backup_do. destruct (_ && _); [discriminate|].
  intros H Hp.
  apply bind_returns in H as (? & ? & _ & H).
  apply bind_returns in H as (? & ? & _ & H).
  apply bind_returns in H as (? & ? & _ & H).
  apply bind_returns in H as (tmp & ? & Htmp & H).
  apply mkdtemp_returns in Htmp. subst tmp.
  do 9 (apply bind_returns in H as (? & ? & _ & H)).
  destruct (negb _); [discriminate|].
  apply bind_returns in H as (? & ? & _ & H).
  eapply rmtree_returns; eauto.
Qed.

Lemma backup_restore_do_returns (dgst : string -> string -> string -> string * string)
    (m : string) (info : restore_info) (env : restore_do_env) (w w' : world)
    (p : string) :
  backup_restore_do dgst m info env w = (Returns tt, w') ->
  under (ri_restore_tmpdir info) p = true ->
  w_fs w' !! p = None.
Proof.
  unfold backup_restore_do. intros H Hp.
  do 4 (apply bind_returns in H as (? & ? & _ & H)).
  eapply rmtree_returns; eauto.
Qed.

(** C7, as stated, fails on the failure paths.  Backup: the archiver dies
    while the first chunk is written; [backup_do] raises and the backup temp
    dir is still there, with the pipe and the partial chunk in it.  Restore:
    the announced chunk does not match its HMAC; [backup_restore_do] raises
    and the restore temp dir is still there, with the chunk in it. *)
Lemma working_directory_left_on_failure_counterexample :
  fst (backup_do toy_dgst sample_plain_args sample_failing_backup_env (World ∅ [] []))
  = Throws (QubesException "Failed to perform backup: error in addproc") /\
  w_fs (snd (backup_do toy_dgst sample_plain_args sample_failing_backup_env
               (World ∅ [] [])))
  !! "/var/tmp/backup_abc" = Some Dir /\
  w_fs (snd (backup_do toy_dgst sample_plain_args sample_failing_backup_env
               (World ∅ [] [])))
  !! "/var/tmp/backup_abc/backup_pipe" = Some Fifo /\
  w_fs (snd (backup_do toy_dgst sample_plain_args sample_failing_backup_env
               (World ∅ [] [])))
  !! "/var/tmp/backup_abc/vm1/private.img.000" = Some (File "hello!") /\
  fst (backup_restore_do toy_dgst installed_module_name sample_restore_info
         sample_restore_do_env (World sample_tampered_fs [] []))
  = Throws (QubesException
              ("ERROR: invalid hmac for file /var/tmp/restore_x/vm1/private.img.000: "
               +:+ "SHA1:pw:dat4. Is the passphrase correct?")) /\
  w_fs (snd (backup_restore_do toy_dgst installed_module_name sample_restore_info
               sample_restore_do_env (World sample_tampered_fs [] [])))
  !! "/var/tmp/restore_x" = Some Dir /\
  w_fs (snd (backup_restore_do toy_dgst installed_module_name sample_restore_info
               sample_restore_do_env (World sample_tampered_fs [] [])))
  !! sample_chunk = Some (File "dat4").
Proof. repeat split; vm_compute; reflexivity. Qed.

(** C7 (amended): whenever the backup operation, resp. the restore
    operation, returns normally, its working directory has been removed: no
    path at or under it is left in the file system.  (Nothing is promised when
    the operation raises.) *)
Theorem working_directory_removed_on_return
    (dgst : string -> string -> string -> string * string) (module_name : string)
    (op : operation) (w w' : world) (p : string)
    (Hrun : run_operation dgst module_name op w = (Returns tt, w'))
    (Hp : under (working_directory op) p = true) :
  w_fs w' !! p = None.
Proof.
  destruct op as [args env|info env]; simpl in *.
  - eapply backup_do_returns; eauto.
  - eapply backup_restore_do_returns; eauto.
Qed.

Lemma working_directory_removed_on_return_witness :
  w_fs (snd (backup_do toy_dgst sample_plain_args sample_backup_env (World ∅ [] [])))
  !! "/var/tmp/backup_abc/backup_pipe" = None /\
  w_fs (snd (backup_restore_do toy_dgst installed_module_name sample_restore_info
               sample_restore_do_env (World sample_restore_fs [] [])))
  !! "/var/tmp/restore_x" = None.
Proof.
  split.
  - apply (working_directory_removed_on_return toy_dgst installed_module_name
             (OpBackup sample_plain_args sample_backup_env) (World ∅ [] [])).
    + vm_compute. reflexivity.
    + vm_compute. reflexivity.
  - apply (working_directory_removed_on_return toy_dgst installed_module_name
             (OpRestore sample_restore_info sample_restore_do_env)
             (World sample_restore_fs [] [])).
    + vm_compute. reflexivity.
    + vm_compute. reflexivity.
Defined.

(** ** C8: wait_backup_feedback on a zero-byte read *)

(** C8, as stated, fails: with the stream producer still running, a read of
    zero bytes does not make the call return; the turn ends with
    [run_count = 3] and no error, so the loop reads again, and here the call
    ends up reporting the failure of the producer found at the next turn. *)
Lemma zero_read_alive_producer_counterexample :
  obs_read obs_idle = "" /\ obs_streamproc obs_idle = None /\
  wbf_body (Procs true true false true) obs_idle = (TurnNext (WbfState 3 None), true) /\
  fst (wait_backup_feedback (Procs true true false true) [obs_idle]) = None /\
  fst (wait_backup_feedback (Procs true true false true) [obs_idle; obs_stream_failed])
  = Some (Some "streamproc").
Proof. repeat split; reflexivity. Qed.

(** The state of the loop after the polls of [hmac], [addproc] and [vmproc]
    in a turn. *)
Lemma polls_run_error (p : procs) (o : observation) :
  run_error
    (poll_vm (has_vmproc p) (obs_vmproc o)
       (poll_step (has_addproc p) (obs_addproc o) "addproc"
          (poll_step (has_hmac p) (obs_hmac o) "hmac" (WbfState 0 None))))
  = turn_error p o.
Proof.
  unfold turn_error, failed, poll_vm, poll_step.
  destruct (has_vmproc p), (has_addproc p), (has_hmac p),
    (obs_vmproc o) as [v|], (obs_addproc o) as [a|], (obs_hmac o) as [h|]; simpl;
    repeat match goal with
           | |- context [(?x =? 0)%Z] => destruct (x =? 0)%Z; simpl
           end; reflexivity.
Qed.

(** C8 (amended): in [wait_backup_feedback], at any turn reached with the
    loop still running, a read of [in_stream] that returns zero bytes makes
    the call return the empty error string when no stream producer is given
    or when the producer has exited with status 0 (and the producer's failure
    when it has exited with another status); while the producer is still
    alive the call does not return the empty string on that read: the (empty)
    block is written through, the producer is counted as running and control
    goes back to the loop test, where the call returns the name of [VM],
    [addproc] or [hmac] when that process was found failed in the same turn,
    and otherwise goes on with the next read. *)
Theorem zero_read_returns_after_producer_exit (p : procs) (o : observation)
    (rest : list observation) (st : wbf_state) (out : wbf_output)
    (Hread : obs_read o = "")
    (Hcount : 0 < run_count st) (Herror : run_error st = None) :
  let out1 := WbfOutput (out_target out) (out_progress out ++ [0]) in
  match has_streamproc p, obs_streamproc o with
  | false, _ => wbf_loop p (o :: rest) st out = (Some (Some ""), out1)
  | true, Some rc =>
      wbf_loop p (o :: rest) st out
      = (Some (Some (if (rc =? 0)%Z then "" else "streamproc")), out1)
  | true, None =>
      match turn_error p o with
      | Some name => wbf_loop p (o :: rest) st out = (Some (Some name), out1)
      | None =>
          exists n, 0 < n /\
            wbf_loop p (o :: rest) st out = wbf_loop p rest (WbfState n None) out1
      end
  end.
Proof.
  intros out1.
  assert (Hgo : (0 <? run_count st)
                && match run_error st with None => true | Some _ => false end = true).
  { rewrite Herror, andb_true_r. now apply Nat.ltb_lt. }
  pose proof (polls_run_error p o) as Hpolls.
  cbn [wbf_loop]. rewrite Hgo. unfold wbf_body. rewrite Hread. cbn [String.length].
  change (0 <=? 0) with true. cbv iota.
  destruct (has_streamproc p) eqn:Hs; [|reflexivity].
  destruct (obs_streamproc o) as [rc|] eqn:Ho.
  - destruct (rc =? 0)%Z; reflexivity.
  - cbv beta iota zeta.
    set (st3 := poll_vm _ _ _) in *.
    rewrite append_empty_r. fold out1.
    destruct (turn_error p o) as [name|].
    + destruct rest; cbn [wbf_loop run_error run_count]; rewrite Hpolls;
        rewrite andb_false_r; reflexivity.
    + exists (S (run_count st3)). split; [lia|]. now rewrite Hpolls.
Qed.

Lemma zero_read_returns_after_producer_exit_witness :
  exists n, 0 < n /\
    wait_backup_feedback (Procs true true false true) [obs_idle; obs_stream_failed]
    = wbf_loop (Procs true true false true) [obs_stream_failed] (WbfState n None)
        (WbfOutput "" [0]).
Proof.
  apply (zero_read_returns_after_producer_exit (Procs true true false true) obs_idle
           [obs_stream_failed] (WbfState 1 None) (WbfOutput "" [])).
  - reflexivity.
  - simpl. lia.
  - reflexivity.
Defined.

(** ** C9: the shape of a plan entry's subdir *)

Lemma endswith_slash_app (t : string) : endswith (t +:+ "/") "/" = true.
Proof.
  unfold endswith. induction t as [|c t IH]; [reflexivity|].
  rewrite append_cons. simpl String.length.
  destruct (String.length (t +:+ "/")) as [|n] eqn:E.
  - destruct t; discriminate.
  - simpl in *. rewrite Nat.sub_0_r in *. exact IH.
Qed.

Lemma endswith_slash_inv (s : string) :
  endswith s "/" = true -> exists t, s = t +:+ "/".
Proof.
  unfold endswith. induction s as [|c s IH]; [discriminate|].
  simpl String.length. destruct (String.length s) as [|n] eqn:E.
  - destruct s; [|discriminate]. simpl.
    destruct (Ascii.eqb_spec c "/"%char) as [->|]; [|discriminate].
    intros _. now exists "".
  - simpl in *. rewrite Nat.sub_0_r in *. intros H.
    destruct (IH H) as [t ->]. now exists (String c t).
Qed.

(** The test of the assertion says what the specification says. *)
Lemma subdir_ok_shape (subdir : string) :
  subdir_ok subdir = true -> subdir = "" \/ exists prefix, subdir = prefix +:+ "/".
Proof.
  unfold subdir_ok. intros H. apply orb_prop in H as [H|H].
  - left. destruct subdir; [reflexivity|discriminate].
  - right. now apply endswith_slash_inv.
Qed.

(** [file_to_backup] with an explicit subdir appends the missing separator. *)
Lemma file_to_backup_explicit (env : prepare_env) (file_path subdir : string)
    (l : list fileinfo) :
  file_to_backup env file_path (Some subdir) = Ok l ->
  Forall (fun fi => subdir_ok (fi_subdir fi) = true) l.
Proof.
  unfold file_to_backup. intros [= <-]. constructor; [|constructor]. simpl.
  unfold subdir_ok.
  destruct (0 <? String.length subdir) eqn:E0; simpl.
  - destruct (endswith subdir "/") eqn:E1; simpl.
    + rewrite E1. apply orb_true_r.
    + rewrite endswith_slash_app. apply orb_true_r.
  - apply Nat.ltb_ge in E0. destruct subdir; [reflexivity|simpl in E0; lia].
Qed.

Lemma rbind_ok {A B} (r : result A) (k : A -> result B) (b : B) :
  rbind r k = Ok b -> exists a, r = Ok a /\ k a = Ok b.
Proof. destruct r; simpl; [eauto|discriminate]. Qed.

(** C9, as stated, fails for the archiver: [backup_do] receives a plan
    whose entry has the subdir [vm1], neither empty nor ending in ['/'], and
    does not refuse it: it creates the working directory, starts the archiver
    on the entry, queues the chunk for sending and returns normally. *)
Lemma backup_do_accepts_bad_subdir_counterexample :
  Exists (fun fi => subdir_ok (fi_subdir fi) = false)
         (ba_files_to_backup sample_bad_subdir_args) /\
  fst (backup_do toy_dgst sample_bad_subdir_args sample_backup_env (World ∅ [] []))
  = Returns tt /\
  w_queue (snd (backup_do toy_dgst sample_bad_subdir_args sample_backup_env
                  (World ∅ [] [])))
  = ["backup-header"; "backup-header.hmac"; "vm1/private.img.000";
     "vm1/private.img.000.hmac"; "FINISHED"] /\
  In (EvSpawn ["tar"; "-Pc"; "--sparse"; "-f"; "/var/tmp/backup_abc/backup_pipe";
               "--tape-length"; "100000"; "-C"; "/var/lib/qubes/appvms/work";
               "--xform"; "s:^[^/]:vm1\0:"; "private.img"])
     (w_log (snd (backup_do toy_dgst sample_bad_subdir_args sample_backup_env
                    (World ∅ [] [])))).
Proof.
  split; [left; reflexivity|]. split; [vm_compute; reflexivity|].
  split; [vm_compute; reflexivity|]. vm_compute. tauto.
Qed.

(** C9 (amended): every entry of a plan returned by [backup_prepare] has a
    subdir that is empty or ends with ['/']: [backup_prepare] asserts this of
    every entry before it returns.  (The write path, [backup_do], does not
    examine the subdirs of the plan it is given.) *)
Theorem backup_prepare_subdir_invariant (env : prepare_env)
    (vms_list : option (list vm)) (exclude_list : list string) (hide_vm_names : bool)
    (files : list fileinfo) (fi : fileinfo)
    (Hplan : backup_prepare env vms_list exclude_list hide_vm_names = Ok files)
    (Hentry : In fi files) :
  fi_subdir fi = "" \/ exists prefix, fi_subdir fi = prefix +:+ "/".
Proof.
  unfold backup_prepare in Hplan.
  apply rbind_ok in Hplan as (f0 & _ & Hplan).
  apply rbind_ok in Hplan as (vl & _ & Hplan).
  apply rbind_ok in Hplan as (f1 & _ & Hplan).
  apply rbind_ok in Hplan as (f2 & _ & Hplan).
  destruct (existsb (fun v => negb (vm_qid v =? 0) && vm_is_running v) _);
    [discriminate|].
  destruct (forallb _ _) eqn:Hall; [|discriminate].
  injection Hplan as <-.
  rewrite forallb_forall in Hall.
  apply subdir_ok_shape. now apply Hall.
Qed.

Lemma backup_prepare_subdir_invariant_witness :
  "vm1/" = "" \/ exists prefix, "vm1/" = prefix +:+ "/".
Proof.
  apply (backup_prepare_subdir_invariant sample_prepare_env None [] true
           [FileInfo "/var/lib/qubes/qubes.xml" 10 "";
            FileInfo "/var/lib/qubes/appvms/work/private.img" 10 "vm1/";
            FileInfo "/var/lib/qubes/appvms/work/icon.png" 10 "vm1/";
            FileInfo "/var/lib/qubes/appvms/work/firewall.xml" 10 "vm1/";
            FileInfo "/home/user" 10 "dom0-home/"]
           (FileInfo "/var/lib/qubes/appvms/work/private.img" 10 "vm1/")).
  - vm_compute. reflexivity.
  - simpl. tauto.
Defined.

(** *** The plan is well formed by construction

    The assertion at the end of [backup_prepare] never fails: whatever
    [file_to_backup] and the loops over the VMs add has a subdir of the
    required shape. *)

Lemma substring_all (s : string) : String.substring 0 (String.length s) s = s.
Proof. induction s as [|c s IH]; [reflexivity|]. simpl. now rewrite IH. Qed.

Lemma prefix_split (sep s : string) :
  String.prefix sep s = true ->
  s = sep +:+ String.substring (String.length sep)
                (String.length s - String.length sep) s.
Proof.
  revert s. induction sep as [|c sep IH]; intros s H.
  - simpl. rewrite Nat.sub_0_r. symmetry. apply substring_all.
  - destruct s as [|d s]; [discriminate|]. simpl in H.
    destruct (ascii_dec c d) as [->|]; [|discriminate].
    rewrite append_cons. simpl. f_equal. now apply IH.
Qed.

Lemma find_sep_spec (sep s before after : string) :
  find_sep sep s = Some (before, after) -> s = before +:+ sep +:+ after.
Proof.
  revert before after. induction s as [|c s IH]; intros before after.
  - destruct sep; simpl; [|discriminate]. now intros [= <- <-].
  - cbn [find_sep]. destruct (String.prefix sep (String c s)) eqn:E.
    + intros [= <- <-]. now apply prefix_split.
    + destruct (find_sep sep s) as [[b a]|]; [|discriminate].
      intros [= <- <-]. rewrite append_cons. f_equal. now apply IH.
Qed.

Lemma app_ends_slash (a b t : string) :
  a +:+ b = t +:+ "/" -> b <> "" -> exists t', b = t' +:+ "/".
Proof.
  revert t. induction a as [|c a IH]; intros t H Hb.
  - now exists t.
  - rewrite append_cons in H. destruct t as [|d t].
    + injection H as _ H. destruct a; [|discriminate]. simpl in H. contradiction.
    + rewrite append_cons in H. injection H as _ H. eapply IH; eauto.
Qed.

Lemma subdir_ok_slash (t : string) : subdir_ok (t +:+ "/") = true.
Proof. unfold subdir_ok. rewrite endswith_slash_app. apply orb_true_r. Qed.

(** [file_to_backup] without a subdir: the part of the file's directory
    below the base directory is empty or ends with the separator. *)
Lemma file_to_backup_implicit (env : prepare_env) (file_path : string)
    (l : list fileinfo) :
  file_to_backup env file_path None = Ok l ->
  Forall (fun fi => subdir_ok (fi_subdir fi) = true) l.
Proof.
  unfold file_to_backup, partition.
  destruct (find_sep _ _) as [[before after]|] eqn:E.
  - destruct (String.eqb_spec before "") as [->|]; [|discriminate]. simpl.
    rewrite String.eqb_refl. simpl. intros [= <-].
    constructor; [|constructor]. simpl.
    apply find_sep_spec in E.
    destruct after as [|c after]; [reflexivity|].
    change ("" +:+ ?x) with x in E. symmetry in E.
    apply app_ends_slash in E as [t' ->]; [|discriminate].
    apply subdir_ok_slash.
  - destruct (String.eqb _ ""); simpl; [|discriminate].
    destruct (negb _); [discriminate|]. intros [= <-].
    constructor; [reflexivity|constructor].
Qed.

Lemma file_to_backup_subdir_ok (env : prepare_env) (file_path : string)
    (subdir : option string) (l : list fileinfo) :
  file_to_backup env file_path subdir = Ok l ->
  Forall (fun fi => subdir_ok (fi_subdir fi) = true) l.
Proof.
  destruct subdir; [apply file_to_backup_explicit|apply file_to_backup_implicit].
Qed.

Lemma add_file_subdir_ok (env : prepare_env) (cond : bool) (path : string)
    (subdir : option string) (files files' : list fileinfo) :
  Forall (fun fi => subdir_ok (fi_subdir fi) = true) files ->
  add_file env cond path subdir files = Ok files' ->
  Forall (fun fi => subdir_ok (fi_subdir fi) = true) files'.
Proof.
  intros H. unfold add_file. destruct cond; [|now intros [= <-]].
  intros E. apply rbind_ok in E as (l & El & [= <-]).
  apply Forall_app. split; [exact H|]. eapply file_to_backup_subdir_ok; eauto.
Qed.

Lemma vm_files_subdir_ok (env : prepare_env) (hide : bool) (v : vm)
    (files files' : list fileinfo) :
  Forall (fun fi => subdir_ok (fi_subdir fi) = true) files ->
  vm_files_to_backup env hide v files = Ok files' ->
  Forall (fun fi => subdir_ok (fi_subdir fi) = true) files'.
Proof.
  intros H E. unfold vm_files_to_backup in E.
  apply rbind_ok in E as (f1 & E1 & E).
  assert (H1 : Forall (fun fi => subdir_ok (fi_subdir fi) = true) f1).
  { destruct (vm_private_img v); [exact (add_file_subdir_ok _ _ _ _ _ _ H E1)|].
    now injection E1 as <-. }
  apply rbind_ok in E as (f2 & E2 & E). apply (add_file_subdir_ok _ _ _ _ _ _ H1) in E2.
  apply rbind_ok in E as (f3 & E3 & E). apply (add_file_subdir_ok _ _ _ _ _ _ E2) in E3.
  apply rbind_ok in E as (f4 & E4 & E). apply (add_file_subdir_ok _ _ _ _ _ _ E3) in E4.
  apply rbind_ok in E as (f5 & E5 & E). apply (add_file_subdir_ok _ _ _ _ _ _ E4) in E5.
  apply rbind_ok in E as (f6 & E6 & E). apply (add_file_subdir_ok _ _ _ _ _ _ E5) in E6.
  apply rbind_ok in E as (f7 & E7 & E).
  assert (H7 : Forall (fun fi => subdir_ok (fi_subdir fi) = true) f7).
  { destruct (pe_appmenus_whitelist env); [exact (add_file_subdir_ok _ _ _ _ _ _ E6 E7)|].
    now injection E7 as <-. }
  exact (add_file_subdir_ok _ _ _ _ _ _ H7 E).
Qed.

Lemma plain_vms_loop_subdir_ok (env : prepare_env) (hide : bool) (vms : list vm) :
  forall files files',
  Forall (fun fi => subdir_ok (fi_subdir fi) = true) files ->
  plain_vms_loop env hide vms files = Ok files' ->
  Forall (fun fi => subdir_ok (fi_subdir fi) = true) files'.
Proof.
  induction vms as [|v vms IH]; intros files files' H; simpl.
  - now intros [= <-].
  - destruct (_ || _); [now apply IH|].
    intros E. apply rbind_ok in E as (f & Ef & E).
    eapply IH; [|exact E]. eapply vm_files_subdir_ok; eauto.
Qed.

Lemma template_vms_loop_subdir_ok (env : prepare_env) (hide : bool) (vms : list vm) :
  forall files files',
  Forall (fun fi => subdir_ok (fi_subdir fi) = true) files ->
  template_vms_loop env hide vms files = Ok files' ->
  Forall (fun fi => subdir_ok (fi_subdir fi) = true) files'.
Proof.
  induction vms as [|v vms IH]; intros files files' H; simpl.
  - now intros [= <-].
  - destruct (_ || _); [now apply IH|].
    intros E. apply rbind_ok in E as (sub & Es & E).
    eapply IH; [|exact E]. apply Forall_app. split; [exact H|].
    constructor; [|constructor]. simpl.
    destruct hide.
    + injection Es as <-.
      change ("vm" +:+ fmt_d (vm_qid v) +:+ "/") with ("vm" +:+ (fmt_d (vm_qid v) +:+ "/")).
      replace ("vm" +:+ (fmt_d (vm_qid v) +:+ "/"))
        with (("vm" +:+ fmt_d (vm_qid v)) +:+ "/") by reflexivity.
      apply subdir_ok_slash.
    + apply rbind_ok in Es as (r & _ & [= <-]). apply subdir_ok_slash.
Qed.


Lemma rbind_raise {A B} (r : result A) (k : A -> result B) (e : exn) :
  rbind r k = Raise e -> r = Raise e \/ exists a, r = Ok a /\ k a = Raise e.
Proof. destruct r; simpl; [eauto|intros [= ->]; now left]. Qed.

Lemma file_to_backup_raise (env : prepare_env) (file_path : string)
    (subdir : option string) (e : exn) :
  file_to_backup env file_path subdir = Raise e -> e = AssertionError "".
Proof.
  unfold file_to_backup. destruct subdir; [discriminate|].
  destruct (partition _ _) as [[nothing dir] sub].
  destruct (negb _); [congruence|]. destruct (negb _); congruence.
Qed.

Lemma add_file_raise (env : prepare_env) (cond : bool) (path : string)
    (subdir : option string) (files : list fileinfo) (e : exn) :
  add_file env cond path subdir files = Raise e -> e = AssertionError "".
Proof.
  unfold add_file. destruct cond; [|discriminate].
  intros H. apply rbind_raise in H as [H|(l & _ & H)]; [|discriminate].
  eapply file_to_backup_raise; eauto.
Qed.

Lemma vm_files_raise (env : prepare_env) (hide : bool) (v : vm)
    (files : list fileinfo) (e : exn) :
  vm_files_to_backup env hide v files = Raise e -> e = AssertionError "".
Proof.
  unfold vm_files_to_backup. intros H.
  apply rbind_raise in H as [H|(f1 & _ & H)].
  { destruct (vm_private_img v); [eapply add_file_raise; eauto|discriminate]. }
  do 5 (apply rbind_raise in H as [H|(? & _ & H)]; [eapply add_file_raise; eauto|]).
  apply rbind_raise in H as [H|(f7 & _ & H)].
  { destruct (pe_appmenus_whitelist env); [eapply add_file_raise; eauto|discriminate]. }
  eapply add_file_raise; eauto.
Qed.

Lemma plain_vms_loop_raise (env : prepare_env) (hide : bool) (vms : list vm) (e : exn) :
  forall files,
  plain_vms_loop env hide vms files = Raise e -> e = AssertionError "".
Proof.
  induction vms as [|v vms IH]; intros files; simpl; [discriminate|].
  destruct (_ || _); [apply IH|].
  intros H. apply rbind_raise in H as [H|(f & _ & H)].
  - eapply vm_files_raise; eauto.
  - eapply IH; eauto.
Qed.

Lemma relpath_raise (cwd path start : string) (e : exn) :
  relpath cwd path start = Raise e -> e = ValueError.
Proof.
  unfold relpath. destruct (String.eqb path ""); [congruence|].
  destruct (drop_common _ _) as [s p]. destruct (_ ++ _); discriminate.
Qed.

Lemma template_vms_loop_raise (env : prepare_env) (hide : bool) (vms : list vm)
    (e : exn) :
  forall files,
  template_vms_loop env hide vms files = Raise e -> e = ValueError.
Proof.
  induction vms as [|v vms IH]; intros files; simpl; [discriminate|].
  destruct (_ || _); [apply IH|].
  intros H. apply rbind_raise in H as [H|(sub & _ & H)].
  - destruct hide; [discriminate|].
    apply rbind_raise in H as [H|(r & _ & H)]; [|discriminate].
    eapply relpath_raise; eauto.
  - eapply IH; eauto.
Qed.

(** X8: the assertion at the end of [backup_prepare] never fails: whatever
    the inventory, the selection, the exclusions and [hide_vm_names],
    [backup_prepare] does not raise the [AssertionError] on a [subdir] that
    does not end with a ['/'], every [subdir] it builds being empty or ending
    with one. *)
Lemma backup_prepare_assertion_holds (env : prepare_env)
    (vms_list : option (list vm)) (exclude_list : list string) (hide_vm_names : bool) :
  backup_prepare env vms_list exclude_list hide_vm_names
  <> Raise (AssertionError "'subdir' must ends with a '/'").
Proof.
  unfold backup_prepare. intros E.
  apply rbind_raise in E as [E|(f0 & E0 & E)];
    [apply file_to_backup_raise in E; discriminate|].
  apply file_to_backup_implicit in E0.
  apply rbind_raise in E as [E|(vl & _ & E)].
  { destruct vms_list; [discriminate|]. destruct (List.find _ _); discriminate. }
  apply rbind_raise in E as [E|(f1 & E1 & E)];
    [apply plain_vms_loop_raise in E; discriminate|].
  apply (plain_vms_loop_subdir_ok _ _ _ _ _ E0) in E1.
  apply rbind_raise in E as [E|(f2 & E2 & E)];
    [apply template_vms_loop_raise in E; discriminate|].
  apply (template_vms_loop_subdir_ok _ _ _ _ _ E1) in E2.
  destruct (existsb (fun v => negb (vm_qid v =? 0) && vm_is_running v) _);
    [discriminate|].
  destruct (forallb _ _) eqn:Hall; [discriminate|].
  apply not_true_iff_false in Hall. apply Hall. apply forallb_forall.
  intros fi Hin. destruct (existsb (fun v => vm_qid v =? 0) _).
  - apply in_app_or in Hin as [Hin|[<-|[]]]; [|reflexivity].
    rewrite Forall_forall in E2. apply E2. now apply list_elem_of_In.
  - rewrite Forall_forall in E2. apply E2. now apply list_elem_of_In.
Qed.

(** ** C10: the member name handed to the inner tar *)

Lemma rstrip_by_app_all (p : ascii -> bool) (s t : string) :
  rstrip_by p t = "" -> rstrip_by p (s +:+ t) = rstrip_by p s.
Proof.
  intros Ht. induction s as [|c s IH]; [exact Ht|].
  rewrite append_cons. simpl. now rewrite IH.
Qed.

(** [rstrip('.000')] removes the suffix and then goes on with whatever the
    logical name ends in. *)
Lemma rstrip_000_suffix (logical : string) :
  rstrip ".000" (logical +:+ ".000") = rstrip ".000" logical.
Proof. unfold rstrip. now apply rstrip_by_app_all. Qed.

(** C10: for the chunk [/var/tmp/restore_x/dom0-home/user0.000], the first
    chunk of the logical file [dom0-home/user0] (the home directory of a user
    named [user0]), the member handed to the inner tar is [dom0-home/user]:
    the ['0'] that ends the logical name is stripped together with the
    suffix.  Where the logical name ends in neither ['0'] nor ['.'] the member is
    the logical name. *)
Theorem tar2_member_strips_logical_name :
  endswith "/var/tmp/restore_x/dom0-home/user0.000" ".000" = true /\
  ExtractWorker.tar2_cmdline sample_worker "/var/tmp/restore_x/dom0-home/user0.000"
  = Ok ["tar"; "-xMkf"; "/var/tmp/restore_x/restore_pipe"; "dom0-home/user"] /\
  relpath "/var/tmp/restore_x" "/var/tmp/restore_x/dom0-home/user0" "."
  = Ok "dom0-home/user0" /\
  ExtractWorker.tar2_cmdline sample_worker "/var/tmp/restore_x/vm1/private.img.000"
  = Ok ["tar"; "-xMkf"; "/var/tmp/restore_x/restore_pipe"; "vm1/private.img"].
Proof. repeat split; reflexivity. Qed.

(** * Further properties of the code *)

(** ** More on strings *)

Lemma append_assoc (a b c : string) : (a +:+ b) +:+ c = a +:+ (b +:+ c).
Proof.
  induction a as [|x a IH]; [reflexivity|]. rewrite !append_cons. now rewrite IH.
Qed.

Lemma count_append (sep : ascii) (s t : string) :
  count sep (s +:+ t) = count sep s + count sep t.
Proof.
  induction s as [|c s IH]; [reflexivity|].
  rewrite append_cons. simpl. rewrite IH. lia.
Qed.

Lemma rstrip_by_append (p : ascii -> bool) (a b : string) :
  rstrip_by p (a +:+ b)
  = if String.eqb (rstrip_by p b) "" then rstrip_by p a else a +:+ rstrip_by p b.
Proof.
  induction a as [|c a IH].
  - change ("" +:+ ?x) with x. simpl.
    destruct (rstrip_by p b) eqn:E; reflexivity.
  - rewrite append_cons. simpl. rewrite IH.
    destruct (String.eqb (rstrip_by p b) "") eqn:E; [reflexivity|].
    rewrite append_cons.
    destruct (a +:+ rstrip_by p b) eqn:E'; [|reflexivity].
    destruct a; [|discriminate]. change ("" +:+ ?x) with x in E'.
    rewrite E' in E. discriminate.
Qed.

Lemma token_ok_count (s : string) : token_ok s = true -> count "="%char s = 0.
Proof.
  induction s as [|c s IH]; [reflexivity|]. simpl.
  intros H. apply andb_prop in H as [H Hs]. apply andb_prop in H as [_ He].
  destruct (Ascii.eqb c "="%char); [discriminate|]. now apply IH.
Qed.

Lemma token_ok_no_newline (s : string) : token_ok s = true -> count "010"%char s = 0.
Proof.
  induction s as [|c s IH]; [reflexivity|]. simpl.
  intros H. apply andb_prop in H as [H Hs]. apply andb_prop in H as [Hsp _].
  destruct (Ascii.eqb_spec c "010"%char) as [->|]; [discriminate|]. now apply IH.
Qed.

Lemma token_ok_rstrip (s : string) : token_ok s = true -> rstrip_by isspace s = s.
Proof.
  induction s as [|c s IH]; [reflexivity|]. simpl.
  intros H. apply andb_prop in H as [H Hs]. apply andb_prop in H as [Hsp _].
  rewrite IH by exact Hs. destruct s; [|reflexivity].
  destruct (isspace c); [discriminate|reflexivity].
Qed.

Lemma rstrip_eq_value (value : string) :
  token_ok value = true ->
  rstrip_by isspace (String "="%char (value +:+ NL)) = String "="%char value.
Proof.
  intros Hv. change (String "="%char (value +:+ NL)) with (String "="%char value +:+ NL).
  rewrite rstrip_by_append. change (rstrip_by isspace NL) with "". simpl String.eqb.
  cbv iota. simpl. rewrite (token_ok_rstrip _ Hv). destruct value; reflexivity.
Qed.

(** [readlines] cuts after the first line feed. *)
Lemma readlines_line (l rest : string) :
  count "010"%char l = 0 ->
  readlines (l +:+ String "010"%char rest) = (l +:+ NL) :: readlines rest.
Proof.
  induction l as [|c l IH].
  - intros _. reflexivity.
  - rewrite !append_cons. simpl.
    destruct (Ascii.eqb c "010"%char); [discriminate|].
    intros H. rewrite IH by exact H. reflexivity.
Qed.

(** ** The header written by a backup is the header read by a restore *)

(** A line [key=value] followed by a line feed, the key being one of the four
    option names and the value a token, is recorded under that key. *)
Lemma parse_header_line_written (m : string) (hd : gmap string pyval)
    (key value : string) :
  str_in key header_options = true ->
  token_ok value = true ->
  parse_header_line m hd (key +:+ String "="%char (value +:+ NL))
  = Ok (<[key := header_value key value]> hd).
Proof.
  intros Hk Hv.
  assert (Hkey : count "="%char key = 0 /\ lstrip_by isspace (key +:+ String "="%char (value +:+ NL))
                                         = key +:+ String "="%char (value +:+ NL)).
  { unfold header_options, str_in in Hk. simpl in Hk.
    rewrite !orb_true_iff in Hk.
    destruct Hk as [H|[H|[H|[H|H]]]]; try discriminate;
      apply String.eqb_eq in H; subst key; split; reflexivity. }
  destruct Hkey as [Hc Hl].
  apply parse_header_line_option; [| |exact Hk].
  - rewrite count_append, Hc. simpl. rewrite count_append, (token_ok_count _ Hv).
    reflexivity.
  - unfold strip. rewrite Hl.
    rewrite rstrip_by_append, (rstrip_eq_value _ Hv). simpl String.eqb. cbv iota.
    rewrite split_app_sep by exact Hc.
    rewrite split_no_sep by (now apply token_ok_count). reflexivity.
Qed.

Lemma parse_header_lines_written (m : string) (hd : gmap string pyval)
    (key value rest : string) :
  str_in key header_options = true ->
  token_ok value = true ->
  parse_header_lines m hd
    (readlines (key +:+ String "="%char (value +:+ String "010"%char rest)))
  = parse_header_lines m (<[key := header_value key value]> hd) (readlines rest).
Proof.
  intros Hk Hv.
  replace (key +:+ String "="%char (value +:+ String "010"%char rest))
    with ((key +:+ String "="%char value) +:+ String "010"%char rest)
    by (rewrite append_assoc; reflexivity).
  rewrite readlines_line.
  - simpl.
    replace ((key +:+ String "="%char value) +:+ NL)
      with (key +:+ String "="%char (value +:+ NL))
      by (rewrite append_assoc; reflexivity).
    now rewrite parse_header_line_written.
  - rewrite count_append. simpl.
    rewrite (token_ok_no_newline _ Hv).
    unfold header_options, str_in in Hk. simpl in Hk. rewrite !orb_true_iff in Hk.
    destruct Hk as [H|[H|[H|[H|H]]]]; try discriminate;
      apply String.eqb_eq in H; subst key; reflexivity.
Qed.

Lemma parse_written_header_content (m h c : string) (e z : bool) :
  token_ok h = true -> token_ok c = true ->
  parse_backup_header_content m (written_header_content h c e z)
  = Ok (written_header h c e z).
Proof.
  intros Hh Hc. unfold parse_backup_header_content, written_header_content.
  change (BackupHeader.hmac_algorithm +:+ "=" +:+ h +:+ NL
          +:+ BackupHeader.crypto_algorithm +:+ "=" +:+ c +:+ NL
          +:+ BackupHeader.encrypted +:+ "=" +:+ str_of_bool e +:+ NL
          +:+ BackupHeader.compressed +:+ "=" +:+ str_of_bool z +:+ NL)
    with (BackupHeader.hmac_algorithm +:+ String "="%char (h +:+ String "010"%char
           (BackupHeader.crypto_algorithm +:+ String "="%char (c +:+ String "010"%char
             (BackupHeader.encrypted +:+ String "="%char
                (str_of_bool e +:+ String "010"%char
                   (BackupHeader.compressed +:+ String "="%char
                      (str_of_bool z +:+ String "010"%char "")))))))).
  rewrite parse_header_lines_written by first [reflexivity | assumption].
  rewrite parse_header_lines_written by first [reflexivity | assumption].
  rewrite parse_header_lines_written by first [reflexivity | now destruct e].
  rewrite parse_header_lines_written by first [reflexivity | now destruct z].
  simpl. unfold written_header. destruct e, z; reflexivity.
Qed.

(** X1: the header file that [prepare_backup_header] has written is read
    back by [parse_backup_header] as the very record the backup was made
    with -- both algorithm names and both flags -- provided the algorithm
    names are tokens (no white space, no ['=']). *)
Theorem header_round_trip (dgst : string -> string -> string -> string * string)
    (module_name : string) (env : backup_env) (target_directory passphrase : string)
    (compressed encrypted : bool) (hmac_algorithm crypto_algorithm : string)
    (w w' : world) (r : string * string)
    (Hhmac : token_ok hmac_algorithm = true)
    (Hcrypto : token_ok crypto_algorithm = true)
    (Hwritten : prepare_backup_header dgst env target_directory passphrase
                  compressed encrypted hmac_algorithm crypto_algorithm w
                = (Returns r, w')) :
  parse_backup_header module_name (path_join target_directory HEADER_FILENAME) w'
  = (Returns (written_header hmac_algorithm crypto_algorithm encrypted compressed), w').
Proof.
  unfold prepare_backup_header in Hwritten.
  fold (written_header_content hmac_algorithm crypto_algorithm encrypted compressed)
    in Hwritten.
  destruct w as [fs q log].
  cbv beta iota zeta delta
    [bind write_file get_fs emit set_fs ret throw w_fs w_queue w_log] in Hwritten.
  destruct (negb _); [discriminate|]. injection Hwritten as _ <-.
  unfold parse_backup_header.
  cbv beta iota zeta delta [bind read_file get_fs lift ret throw w_fs w_queue w_log].
  rewrite lookup_insert_ne
    by (intros E; symmetry in E; revert E; apply append_neq_self; discriminate).
  rewrite lookup_insert_eq.
  rewrite parse_written_header_content by assumption. reflexivity.
Qed.

Lemma header_round_trip_witness :
  parse_backup_header installed_module_name
    (path_join "/var/tmp/backup_abc" HEADER_FILENAME)
    (snd (prepare_backup_header toy_dgst sample_backup_env "/var/tmp/backup_abc" "pw"
            false true "SHA512" "aes-256-cbc" (World ∅ [] [])))
  = (Returns (written_header "SHA512" "aes-256-cbc" true false),
     snd (prepare_backup_header toy_dgst sample_backup_env "/var/tmp/backup_abc" "pw"
            false true "SHA512" "aes-256-cbc" (World ∅ [] []))).
Proof.
  apply (header_round_trip toy_dgst installed_module_name sample_backup_env
           "/var/tmp/backup_abc" "pw" false true "SHA512" "aes-256-cbc"
           (World ∅ [] []) _ (HEADER_FILENAME, HEADER_FILENAME +:+ ".hmac")).
  - reflexivity.
  - reflexivity.
  - vm_compute. reflexivity.
Defined.

(** ** When the header is refused *)

Lemma parse_header_line_one_eq (m : string) (hd : gmap string pyval) (line : string) :
  count "="%char line = 1 -> exists hd', parse_header_line m hd line = Ok hd'.
Proof.
  intros H. destruct (split_one_eq line H) as (key & value & Hs).
  unfold parse_header_line. rewrite H, Hs. simpl.
  destruct (negb _); eauto.
Qed.

Lemma parse_header_lines_outcome (m : string) (lines : list string) :
  forall hd,
  match parse_header_lines m hd lines with
  | Ok _ => Forall (fun line => count "="%char line = 1) lines
  | Raise e =>
      Exists (fun line =>
                count "="%char line <> 1 /\
                e = QubesException ("Invalid backup header (line " +:+ line +:+ ")"))
             lines
  end.
Proof.
  induction lines as [|line rest IH]; intros hd; simpl; [constructor|].
  destruct (Nat.eq_dec (count "="%char line) 1) as [H1|H1].
  - destruct (parse_header_line_one_eq m hd line H1) as [hd' ->].
    specialize (IH hd'). destruct (parse_header_lines m hd' rest).
    + now constructor.
    + now apply Exists_cons_tl.
  - rewrite parse_header_line_bad_count by exact H1. apply Exists_cons_hd. auto.
Qed.

(** X2: [parse_backup_header] accepts a header file exactly when every one
    of its lines, the blank ones included, holds exactly one ['=']; otherwise
    it raises the "Invalid backup header" [QubesException] naming a line that
    does not, and never any other error. *)
Theorem parse_backup_header_accepts (module_name content : string) :
  match parse_backup_header_content module_name content with
  | Ok _ => Forall (fun line => count "="%char line = 1) (readlines content)
  | Raise e =>
      Exists (fun line =>
                count "="%char line <> 1 /\
                e = QubesException ("Invalid backup header (line " +:+ line +:+ ")"))
             (readlines content)
  end.
Proof. apply parse_header_lines_outcome. Qed.

(** ** A backup's header is accepted whatever the caller's default algorithm *)

Lemma split_last_slash_no_slash (b : string) :
  count "/"%char b = 0 -> split_last_slash b = ("", b).
Proof.
  induction b as [|c b IH]; [reflexivity|]. simpl.
  destruct (Ascii.eqb c "/"%char) eqn:E; [discriminate|].
  intros H. rewrite IH by exact H. reflexivity.
Qed.

Lemma split_last_slash_app (a b : string) :
  count "/"%char b = 0 ->
  split_last_slash (a +:+ String "/"%char b) = (a +:+ "/", b).
Proof.
  intros Hb. induction a as [|c a IH].
  - change ("" +:+ ?x) with x. simpl.
    rewrite split_last_slash_no_slash by exact Hb. reflexivity.
  - rewrite !append_cons. simpl. rewrite IH.
    destruct (a +:+ "/") eqn:E; [destruct a; discriminate|]. reflexivity.
Qed.

Lemma basename_path_join (dir name : string) :
  count "/"%char name = 0 -> basename (path_join dir name) = name.
Proof.
  intros Hn. unfold path_join, basename.
  assert (Hs : startswith name "/" = false).
  { destruct name as [|c name]; [reflexivity|].
    unfold startswith. cbn [String.prefix].
    destruct (ascii_dec "/"%char c) as [<-|]; [discriminate|reflexivity]. }
  rewrite Hs.
  destruct (String.eqb_spec dir "") as [->|Hd]; simpl.
  - change ("" +:+ name) with name. now rewrite split_last_slash_no_slash.
  - destruct (endswith dir "/") eqn:E.
    + apply endswith_slash_inv in E as [t ->]. rewrite append_assoc.
      change ("/" +:+ name) with (String "/"%char name).
      now rewrite split_last_slash_app.
    + change ("/" +:+ name) with (String "/"%char name).
      now rewrite split_last_slash_app.
Qed.

Lemma path_join_append (dir name suffix : string) :
  name <> "" ->
  path_join dir (name +:+ suffix) = path_join dir name +:+ suffix.
Proof.
  intros Hn. unfold path_join, startswith.
  destruct name as [|c name]; [contradiction|]. rewrite append_cons.
  cbn [String.prefix].
  destruct (ascii_dec "/"%char c).
  { destruct name; [destruct suffix|]; reflexivity. }
  destruct (String.eqb dir "" || endswith dir "/").
  - now rewrite <- append_cons, append_assoc.
  - now rewrite <- append_cons, !append_assoc.
Qed.

(** When [verify_hmac] returns [True], all it has changed in the file system
    is the removal of the HMAC file. *)
Lemma verify_hmac_true_fs (dgst : string -> string -> string -> string * string)
    (filename hmacfile passphrase algorithm : string) (w w' : world) :
  verify_hmac dgst filename hmacfile passphrase algorithm w = (Returns true, w') ->
  w_fs w' = delete hmacfile (w_fs w) /\ w_queue w' = w_queue w.
Proof.
  unfold verify_hmac. destruct (negb _); [discriminate|].
  destruct w as [fs q log].
  cbv beta iota zeta delta
    [bind read_file get_fs lift unlink emit set_fs ret throw w_fs w_queue w_log].
  destruct (fs !! filename) as [[chunk| |]|]; try discriminate.
  destruct (dgst algorithm passphrase chunk) as [out err].
  destruct (0 <? String.length err); [discriminate|].
  destruct (fs !! hmacfile) as [[supplied| |]|] eqn:Es; try discriminate.
  destruct (load_hmac supplied) as [hmac|]; [|discriminate].
  destruct (0 <? String.length hmac).
  - destruct (load_hmac out) as [computed|]; [|discriminate].
    destruct (String.eqb computed hmac).
    + rewrite Es. intros [= <-]. now split.
    + discriminate.
  - destruct (load_hmac out); discriminate.
Qed.

Lemma verifies_written (dgst : string -> string -> string -> string * string)
    (filename passphrase algorithm : string) (w : world) (data digest : string) :
  w_fs w !! filename = Some (File data) ->
  w_fs w !! (filename +:+ ".hmac")
  = Some (File (fst (dgst algorithm passphrase data))) ->
  snd (dgst algorithm passphrase data) = "" ->
  load_hmac (fst (dgst algorithm passphrase data)) = Ok digest ->
  digest <> "" ->
  verifies dgst filename (filename +:+ ".hmac") passphrase w algorithm = true.
Proof.
  intros Hd Hh Herr Hl Hne. unfold verifies.
  rewrite (verify_hmac_eval dgst filename passphrase algorithm w data _ Hd Hh Herr).
  rewrite Hl. rewrite String.eqb_refl.
  destruct digest; [contradiction|reflexivity].
Qed.

(** X3: let [h] and [c] be algorithm names without white space and without
    ['='], let the first two names the unpacker announces be [backup-header]
    and [backup-header.hmac], and let the working directory hold under these
    names the header [prepare_backup_header] writes for [h], [c] and the two
    flags, and the output of the digest tool for this header under [h] and
    the passphrase.  If the tool answers for [h] with nothing on its error
    stream and a line from which [load_hmac] reads a non-empty digest, and
    [h] is among the candidates of [get_supported_hmac_algo], then the header
    analysis of [restore_vm_dirs] returns, whatever default algorithm the
    caller passes: the restore goes on with the algorithms and flags of the
    backup, and both header files are gone from the working directory. *)
Theorem written_header_detected (dgst : string -> string -> string -> string * string)
    (module_name : string) (args : restore_args) (env : restore_env) (w : world)
    (h c : string) (e z : bool) (digest : string)
    (Hh : token_ok h = true) (Hc : token_ok c = true)
    (Hannounced : announced_header env = (HEADER_FILENAME, HEADER_FILENAME +:+ ".hmac"))
    (Hheader : w_fs w !! path_join (ra_restore_tmpdir args) HEADER_FILENAME
               = Some (File (written_header_content h c e z)))
    (Hhmac : w_fs w !! (path_join (ra_restore_tmpdir args) HEADER_FILENAME +:+ ".hmac")
             = Some (File (fst (dgst h (ra_passphrase args)
                                  (written_header_content h c e z)))))
    (Hstderr : snd (dgst h (ra_passphrase args) (written_header_content h c e z)) = "")
    (Hdigest : load_hmac (fst (dgst h (ra_passphrase args)
                                 (written_header_content h c e z))) = Ok digest)
    (Hnonempty : digest <> "")
    (Hcandidate : In h (get_supported_hmac_algo (ra_hmac_algorithm args)
                          (re_digest_algos env))) :
  exists nextfile pipe w',
    restore_header dgst module_name args env w
    = (Returns (RestoreLocals h c z e nextfile false (Some (written_header h c e z)),
                pipe), w') /\
    w_fs w' = delete (path_join (ra_restore_tmpdir args) HEADER_FILENAME)
                (delete (path_join (ra_restore_tmpdir args) HEADER_FILENAME +:+ ".hmac")
                   (w_fs w)).
Proof.
  unfold restore_header, announced_header in *.
  destruct (readline (re_filelist env)) as [f p1]. simpl in Hannounced.
  destruct (readline p1) as [hf p2]. simpl in Hannounced.
  injection Hannounced as -> ->.
  destruct (readline p2) as [nf p3].
  change (is_end HEADER_FILENAME || is_end (HEADER_FILENAME +:+ ".hmac")) with false.
  cbv iota.
  rewrite path_join_append by discriminate.
  set (header := path_join (ra_restore_tmpdir args) HEADER_FILENAME) in *.
  set (content := written_header_content h c e z) in *.
  pose proof (verify_header_first dgst header (header +:+ ".hmac") (ra_passphrase args)
                w content _
                (get_supported_hmac_algo (ra_hmac_algorithm args) (re_digest_algos env))
                Hheader Hhmac) as Hfirst.
  destruct (List.find _ _) as [a|] eqn:Efind.
  - destruct Hfirst as (w1 & Hv & Hvh).
    apply verify_hmac_true_fs in Hv as [Hfs Hq].
    exists (Some nf), p3.
    unfold bind at 1. rewrite Hvh.
    assert (Hb : basename header = HEADER_FILENAME)
      by (apply basename_path_join; reflexivity).
    rewrite Hb. rewrite String.eqb_refl.
    assert (Hne : header +:+ ".hmac" <> header)
      by (intros E; symmetry in E; revert E; apply append_neq_self; discriminate).
    assert (Hl : w_fs w1 !! header = Some (File content)).
    { rewrite Hfs, lookup_delete_ne by exact Hne. exact Hheader. }
    destruct w1 as [fs1 q1 log1]. simpl in Hl, Hfs.
    unfold parse_backup_header.
    cbv beta iota zeta delta
      [bind read_file get_fs lift unlink emit set_fs ret throw w_fs w_queue w_log].
    rewrite Hl. unfold content at 1.
    rewrite (parse_written_header_content module_name h c e z Hh Hc).
    rewrite Hl. eexists. split; [reflexivity|]. simpl. now rewrite Hfs.
  - exfalso.
    pose proof (List.find_none _ _ Efind h Hcandidate) as Hno.
    rewrite (verifies_written dgst header (ra_passphrase args) h w content digest
               Hheader Hhmac Hstderr Hdigest Hnonempty) in Hno.
    discriminate.
Qed.

Lemma written_header_detected_witness :
  exists nextfile pipe w',
    restore_header toy_dgst installed_module_name sample_header_args sample_header_env
      (World sample_written_fs [] [])
    = (Returns (RestoreLocals "SHA512" "aes-256-cbc" false true nextfile false
                  (Some (written_header "SHA512" "aes-256-cbc" true false)),
                pipe), w') /\
    w_fs w' = delete (path_join (ra_restore_tmpdir sample_header_args) HEADER_FILENAME)
                (delete (path_join (ra_restore_tmpdir sample_header_args) HEADER_FILENAME
                         +:+ ".hmac")
                   (w_fs (World sample_written_fs [] []))).
Proof.
  apply (written_header_detected toy_dgst installed_module_name sample_header_args
           sample_header_env (World sample_written_fs [] [])
           "SHA512" "aes-256-cbc" true false "SHA512:pw:hmac-algorithm").
  - reflexivity.
  - reflexivity.
  - reflexivity.
  - vm_compute; reflexivity.
  - vm_compute; reflexivity.
  - reflexivity.
  - vm_compute; reflexivity.
  - discriminate.
  - vm_compute. right. right. right. left. reflexivity.
Defined.

(** ** What wait_backup_feedback reports *)

Lemma wbf_body_next (p : procs) (o : observation) (st : wbf_state) (written : bool)
    (name : string) :
  wbf_body p o = (TurnNext st, written) ->
  run_error st = Some name ->
  reports p o name = true.
Proof.
  unfold wbf_body, reports, failed, poll_vm, poll_step.
  destruct p as [[] [] [] []], o as [r [h|] [a|] [v|] [s|]]; simpl;
    repeat match goal with
           | |- context [(?x =? 0)%Z] => destruct (x =? 0)%Z; simpl
           | |- context [String.length ?x <=? 0] => destruct (String.length x <=? 0); simpl
           end;
    intros [= <- <-]; simpl; intros [= <-]; reflexivity.
Qed.

Lemma wbf_body_return (p : procs) (o : observation) (name : string) (written : bool) :
  wbf_body p o = (TurnReturn (Some name), written) ->
  (name = "" /\ obs_read o = "") \/ reports p o name = true.
Proof.
  unfold wbf_body, reports, failed.
  destruct (has_streamproc p).
  - destruct (obs_streamproc o) as [rc|]; [|discriminate].
    destruct (rc =? 0)%Z; simpl.
    + destruct (String.length (obs_read o) <=? 0) eqn:E; [|discriminate].
      intros [= <- _]. left. split; [reflexivity|].
      destruct (obs_read o); [reflexivity|discriminate].
    + intros [= <- _]. right. reflexivity.
  - destruct (String.length (obs_read o) <=? 0) eqn:E; [|discriminate].
    intros [= <- _]. left. split; [reflexivity|].
    destruct (obs_read o); [reflexivity|discriminate].
Qed.

Lemma wbf_loop_reports (p : procs) (obs : list observation) (st : wbf_state)
    (out out' : wbf_output) (name : string) :
  wbf_loop p obs st out = (Some (Some name), out') ->
  name <> "" ->
  run_error st = Some name \/ exists o, In o obs /\ reports p o name = true.
Proof.
  revert st out. induction obs as [|o obs IH]; intros st out H Hn.
  - simpl in H. destruct (_ && _); [discriminate|]. left. now injection H.
  - simpl in H. destruct (_ && _) eqn:Econt; [|left; now injection H].
    right. destruct (wbf_body p o) as [[v|st'] written] eqn:Eb.
    + injection H as -> _.
      apply wbf_body_return in Eb as [[-> _]|Eb]; [contradiction|].
      exists o. split; [now left|exact Eb].
    + apply IH in H as [H|(o' & Hin & Hr)]; [| |exact Hn].
      * exists o. split; [now left|]. eapply wbf_body_next; eauto.
      * exists o'. split; [now right|exact Hr].
Qed.

(** X4: when [wait_backup_feedback] returns the name of a process, that
    process was given to the call and, in one of the turns the call has
    observed, its [poll()] gave an exit status other than 0; the name is one of
    [hmac], [addproc], [VM] and [streamproc]. *)
Theorem wait_backup_feedback_reports_failure (p : procs) (obs : list observation)
    (name : string) (out : wbf_output)
    (Hreturns : wait_backup_feedback p obs = (Some (Some name), out))
    (Hname : name <> "") :
  exists o, In o obs /\ reports p o name = true.
Proof.
  unfold wait_backup_feedback in Hreturns.
  apply wbf_loop_reports in Hreturns as [H|H]; [discriminate|exact H|exact Hname].
Qed.

Lemma wait_backup_feedback_reports_failure_witness :
  exists o, In o [obs_block "hello"; Observation "!" None (Some 2%Z) None None] /\
            reports (Procs true true false false) o "addproc" = true.
Proof.
  apply (wait_backup_feedback_reports_failure (Procs true true false false)
           [obs_block "hello"; Observation "!" None (Some 2%Z) None None]
           "addproc" (WbfOutput "hello!" [5; 1])).
  - reflexivity.
  - discriminate.
Defined.

Lemma wbf_body_next_written (p : procs) (o : observation) (st : wbf_state)
    (written : bool) :
  wbf_body p o = (TurnNext st, written) -> written = true.
Proof.
  unfold wbf_body. destruct (has_streamproc p).
  - destruct (obs_streamproc o) as [rc|]; [|now intros [= _ <-]].
    destruct (negb _); [discriminate|].
    destruct (_ <=? _); [discriminate|now intros [= _ <-]].
  - destruct (_ <=? _); [discriminate|now intros [= _ <-]].
Qed.

Lemma wbf_loop_clean_end (p : procs) (obs : list observation) (st : wbf_state)
    (out out' : wbf_output) :
  wbf_loop p obs st out = (Some (Some ""), out') ->
  run_error st <> Some "" ->
  exists consumed o rest,
    obs = consumed ++ o :: rest /\ obs_read o = "" /\
    out_target out' = out_target out +:+ blocks_read consumed /\
    out_progress out'
    = out_progress out ++ map (fun o => String.length (obs_read o)) (consumed ++ [o]).
Proof.
  revert st out. induction obs as [|o obs IH]; intros st out H Hst.
  - simpl in H. destruct (_ && _); [discriminate|]. injection H as H _. contradiction.
  - simpl in H. destruct (_ && _); [|injection H as H _; contradiction].
    destruct (wbf_body p o) as [[v|st'] written] eqn:Eb.
    + injection H as -> <-.
      apply wbf_body_return in Eb as [[_ Er]|Eb]; [|discriminate].
      exists [], o, obs. simpl. rewrite append_empty_r. auto.
    + pose proof (wbf_body_next_written _ _ _ _ Eb) as ->.
      apply IH in H as (consumed & o' & rest & -> & Er & Ht & Hp).
      * exists (o :: consumed), o', rest. simpl in *.
        rewrite Ht, Hp, append_assoc, <- app_assoc. auto.
      * intros E. apply (wbf_body_next _ _ _ _ _ Eb) in E. discriminate.
Qed.

(** X5: when [wait_backup_feedback] returns the empty string, the read of
    its last turn returned no data, [backup_target] has received every block
    read in the turns before, in the order they were read and nothing else,
    and [progress_callback] was called once per turn with the length of the
    block read. *)
Theorem wait_backup_feedback_clean_end (p : procs) (obs : list observation)
    (out : wbf_output) :
  wait_backup_feedback p obs = (Some (Some ""), out) ->
  exists consumed o rest,
    obs = consumed ++ o :: rest /\ obs_read o = "" /\
    out_target out = blocks_read consumed /\
    out_progress out = map (fun o => String.length (obs_read o)) (consumed ++ [o]).
Proof.
  unfold wait_backup_feedback. intros H.
  apply wbf_loop_clean_end in H; [|discriminate]. exact H.
Qed.

Lemma wait_backup_feedback_clean_end_witness :
  exists consumed o rest,
    [obs_block "hel"; obs_block "lo"; obs_done] = consumed ++ o :: rest /\
    obs_read o = "" /\
    out_target (WbfOutput "hello" [3; 2; 0]) = blocks_read consumed /\
    out_progress (WbfOutput "hello" [3; 2; 0])
    = map (fun o => String.length (obs_read o)) (consumed ++ [o]).
Proof.
  apply (wait_backup_feedback_clean_end (Procs true true false false)
           [obs_block "hel"; obs_block "lo"; obs_done] (WbfOutput "hello" [3; 2; 0])).
  reflexivity.
Defined.

(** ** What exit code 0 of the sending worker means *)

Lemma send_loop_returns (tar_final : string -> Z) (base_dir : string)
    (items : list string) (w w' : world) :
  SendWorker.loop tar_final base_dir items w = (Returns tt, w') ->
  exists sent rest,
    items = sent ++ "FINISHED" :: rest /\
    Forall (fun f => f <> "FINISHED" /\ (tar_final f < 2)%Z) sent /\
    (forall p, w_fs w' !! p
               = if existsb (fun f => String.eqb p (path_join base_dir f)) sent
                 then None else w_fs w !! p) /\
    w_queue w' = w_queue w.
Proof.
  revert w. induction items as [|f items IH]; intros w H; [discriminate|].
  simpl in H. destruct (String.eqb_spec f "FINISHED") as [->|Hf].
  - injection H as <-. exists [], items. simpl. auto.
  - destruct w as [fs q log].
    cbv beta iota zeta delta
      [bind get_fs lift unlink emit set_fs ret throw w_fs w_queue w_log] in H.
    destruct (2 <=? tar_final f)%Z eqn:Et; [discriminate|].
    destruct (fs !! path_join base_dir f) as [[| |]|] eqn:El; try discriminate.
    all: apply IH in H as (sent & rest & -> & Hall & Hfs & Hq);
      exists (f :: sent), rest; simpl in *;
      (split; [reflexivity|]);
      (split; [constructor; [split; [exact Hf|lia]|exact Hall]|]);
      (split; [|exact Hq]);
      intros p; rewrite Hfs;
      destruct (String.eqb_spec p (path_join base_dir f)) as [->|Hp]; simpl;
      [rewrite lookup_delete_eq; now destruct (existsb _ _)
      |rewrite lookup_delete_ne by congruence; reflexivity].
Qed.

(** X6: when the sending worker ends with exit code 0, the queue held a
    [FINISHED] marker; every item before the first marker was archived by a
    [tar] that ended with a status below 2 and was then removed from the
    working directory; no other path of the file system was touched, and
    what follows the marker was not looked at. *)
Theorem send_worker_exit_zero (tar_final : string -> Z) (base_dir : string)
    (items : list string) (w w' : world) :
  SendWorker.run tar_final base_dir items w = (Returns 0%Z, w') ->
  exists sent rest,
    items = sent ++ "FINISHED" :: rest /\
    Forall (fun f => f <> "FINISHED" /\ (tar_final f < 2)%Z) sent /\
    (forall p, w_fs w' !! p
               = if existsb (fun f => String.eqb p (path_join base_dir f)) sent
                 then None else w_fs w !! p).
Proof.
  unfold SendWorker.run, try_except. intros H.
  destruct (bind _ _ w) as [[z|e|] w1] eqn:E; try discriminate.
  injection H as -> ->.
  apply bind_returns in E as ([] & w1 & Hloop & Hret).
  injection Hret as <-.
  apply send_loop_returns in Hloop as (sent & rest & ? & ? & ? & _). eauto.
Qed.

Lemma send_worker_exit_zero_witness :
  exists sent rest,
    ["backup-header"; "FINISHED"; "late"] = sent ++ "FINISHED" :: rest /\
    Forall (fun f => f <> "FINISHED" /\ ((fun _ : string => 1%Z) f < 2)%Z) sent /\
    (forall p,
        w_fs (World (<["/var/tmp/backup_abc/late" := File "z"]> ∅) []
                [EvSpawn (SendWorker.tar_final_cmd "/var/tmp/backup_abc" "backup-header");
                 EvUnlink "/var/tmp/backup_abc/backup-header"]) !! p
        = if existsb (fun f => String.eqb p (path_join "/var/tmp/backup_abc" f)) sent
          then None
          else w_fs (World (<["/var/tmp/backup_abc/backup-header" := File "x"]>
                            (<["/var/tmp/backup_abc/late" := File "z"]> ∅)) [] []) !! p).
Proof.
  apply (send_worker_exit_zero (fun _ => 1%Z) "/var/tmp/backup_abc"
           ["backup-header"; "FINISHED"; "late"]).
  vm_compute. reflexivity.
Defined.

(** ** Restoring through a VM after the header analysis *)

Lemma restore_header_nextfile (dgst : string -> string -> string -> string * string)
    (module_name : string) (args : restore_args) (env : restore_env) (w w' : world)
    (loc : restore_locals) (pipe : list string) :
  restore_header dgst module_name args env w = (Returns (loc, pipe), w') ->
  l_nextfile loc
  = Some (fst (readline (snd (readline (snd (readline (re_filelist env))))))).
Proof.
  unfold restore_header.
  destruct (readline (re_filelist env)) as [f p1]. simpl.
  destruct (readline p1) as [hf p2]. simpl.
  destruct (readline p2) as [nf p3]. simpl.
  destruct (is_end f || is_end hf); [discriminate|].
  intros H. apply bind_returns in H as ([a|] & w1 & _ & H); [|discriminate].
  destruct (String.eqb _ HEADER_FILENAME).
  - apply bind_returns in H as (hd & w2 & _ & H).
    apply bind_returns in H as ([] & w3 & _ & H).
    now injection H as <- _ _.
  - apply bind_returns in H as ([] & w2 & _ & H).
    now injection H as <- _ _.
Qed.

Lemma restore_loop_sticky (dgst : string -> string -> string -> string * string)
    (fuel : nat) (args : restore_args) (hmac_algorithm nextfile : string)
    (pipe : list string) (w w' : world) (filename : string) :
  ra_appvm args = true ->
  restore_loop dgst fuel args hmac_algorithm (Some nextfile) pipe w
  = (Returns filename, w') ->
  filename = nextfile.
Proof.
  intros Happvm. revert pipe w.
  induction fuel as [|fuel IH]; intros pipe w H; [discriminate|].
  simpl in H. destruct (is_end nextfile); [now injection H|].
  destruct (readline pipe) as [hmacfile pipe2]. rewrite Happvm in H. simpl in H.
  destruct (is_end hmacfile); [now injection H|].
  destruct (negb (existsb _ _)).
  - apply bind_returns in H as ([] & w1 & _ & H).
    apply bind_returns in H as ([] & w2 & _ & H).
    eapply IH; eauto.
  - apply bind_returns in H as (ok & w1 & _ & H).
    apply bind_returns in H as ([] & w2 & _ & H).
    eapply IH; eauto.
Qed.

(** X7: when the backup is read through a VM ([appvm] given) and the header
    is analysed, [restore_vm_dirs] returns only if the demultiplexer announces
    nothing after the header and its HMAC file.  The third name read during
    the header analysis stays in [nextfile], which the loop only renews when
    no VM is used: the loop takes it as [filename] in every turn, and leaves
    with "Premature end of archive" or an HMAC error. *)
Theorem restore_through_vm_after_header
    (dgst : string -> string -> string -> string * string) (module_name : string)
    (args : restore_args) (env : restore_env) (w w' : world)
    (header_data : option (gmap string pyval))
    (Happvm : ra_appvm args = true)
    (Hheader : header_requested args = true)
    (Hreturns : restore_vm_dirs dgst module_name args env w = (Returns header_data, w')) :
  is_end (fst (readline (snd (readline (snd (readline (re_filelist env))))))) = true.
Proof.
  unfold restore_vm_dirs in Hreturns. rewrite Happvm, Hheader in Hreturns.
  apply bind_returns in Hreturns as ([] & w1 & _ & H).
  apply bind_returns in H as ([] & w2 & _ & H).
  apply bind_returns in H as ([loc pipe] & w3 & Hhdr & H).
  apply restore_header_nextfile in Hhdr.
  apply bind_returns in H as (worker & w4 & _ & H).
  apply bind_returns in H as ([] & w5 & Htry & _).
  unfold try_except in Htry.
  destruct (bind _ _ w4) as [[[]|e|] w6] eqn:Ebody; try discriminate.
  - apply bind_returns in Ebody as (filename & w7 & Hloop & Hrest).
    rewrite Hhdr in Hloop. apply restore_loop_sticky in Hloop; [|exact Happvm].
    subst filename.
    apply bind_returns in Hrest as ([] & w8 & _ & Hrest).
    apply bind_returns in Hrest as ([] & w9 & _ & Hrest).
    destruct (is_end _); [reflexivity|discriminate].
  - apply bind_returns in Htry as ([] & w7 & _ & Htry).
    apply bind_returns in Htry as (z & w8 & _ & Htry). discriminate.
Qed.

Lemma restore_through_vm_after_header_witness :
  is_end (fst (readline (snd (readline (snd (readline
            (re_filelist sample_vm_restore_env))))))) = true.
Proof.
  apply (restore_through_vm_after_header toy_dgst installed_module_name
           sample_vm_restore_args sample_vm_restore_env
           (World sample_written_fs [] [])
           (snd (restore_vm_dirs toy_dgst installed_module_name sample_vm_restore_args
                   sample_vm_restore_env (World sample_written_fs [] [])))
           (Some (written_header "SHA512" "aes-256-cbc" true false))).
  - reflexivity.
  - reflexivity.
  - vm_compute. reflexivity.
Defined.

(** ** What a backup needs to come to its end *)

(** X9: [backup_do] returns only if the sizes of the plan add up to more
    than 0 and a progress callback is given, although the parameter defaults
    to [None]: the first progress report divides by the total size and calls
    the callback.  It also needs a target directory that exists when no VM
    is used, not both of [compressed] and [encrypted], and a digest tool
    that exits with 0 on the header. *)
Theorem backup_do_returns_only_if
    (dgst : string -> string -> string -> string * string)
    (args : backup_args) (env : backup_env) (w w' : world)
    (Hreturns : backup_do dgst args env w = (Returns tt, w')) :
  0 < total_size (ba_files_to_backup args) /\
  ba_progress_callback args = true /\
  (ba_compressed args = false \/ ba_encrypted args = false) /\
  (ba_appvm args = false -> be_dir_exists env = true) /\
  be_header_hmac_wait env = 0%Z.
Proof.
  unfold backup_do in Hreturns.
  destruct (ba_compressed args) eqn:Ec, (ba_encrypted args) eqn:Ee;
    try discriminate; simpl in Hreturns.
  all: apply bind_returns in Hreturns as ([] & w1 & Htarget & H);
    apply bind_returns in H as ([] & w2 & Hprogress & H);
    apply bind_returns in H as ([] & w3 & _ & H);
    apply bind_returns in H as (tmp & w4 & _ & H);
    apply bind_returns in H as ([] & w5 & _ & H);
    apply bind_returns in H as (hf & w6 & Hheader & _);
    unfold prepare_backup_header in Hheader;
    apply bind_returns in Hheader as ([] & w7 & _ & Hheader);
    apply bind_returns in Hheader as ([] & w8 & _ & Hheader);
    apply bind_returns in Hheader as ([] & w9 & _ & Hheader);
    destruct (be_header_hmac_wait env =? 0)%Z eqn:Ew; try discriminate;
    destruct (total_size (ba_files_to_backup args)) as [|n] eqn:Et; try discriminate;
    simpl in Hprogress;
    destruct (ba_progress_callback args); try discriminate;
    (split; [lia|]); (split; [reflexivity|]); (split; [auto|]);
    (split; [|lia]);
    intros Ha; rewrite Ha in Htarget;
    destruct (be_dir_exists env); [reflexivity|discriminate].
Qed.

Lemma backup_do_returns_only_if_witness :
  0 < total_size (ba_files_to_backup sample_plain_args) /\
  ba_progress_callback sample_plain_args = true /\
  (ba_compressed sample_plain_args = false \/ ba_encrypted sample_plain_args = false) /\
  (ba_appvm sample_plain_args = false -> be_dir_exists sample_backup_env = true) /\
  be_header_hmac_wait sample_backup_env = 0%Z.
Proof.
  apply (backup_do_returns_only_if toy_dgst sample_plain_args sample_backup_env
           (World ∅ [] [])
           (snd (backup_do toy_dgst sample_plain_args sample_backup_env (World ∅ [] [])))).
  vm_compute. reflexivity.
Defined.

(** ** Computations that leave the queue alone *)

Lemma keeps_queue_bind {A B} (m : M A) (k : A -> M B) :
  keeps_queue m -> (forall a, keeps_queue (k a)) -> keeps_queue (bind m k).
Proof.
  intros Hm Hk w b w' H. apply bind_returns in H as (a & w1 & H1 & H2).
  rewrite (Hk a _ _ _ H2). exact (Hm _ _ _ H1).
Qed.

Lemma keeps_queue_ret {A} (a : A) : keeps_queue (ret a).
Proof. intros w b w' [= _ <-]. reflexivity. Qed.

Lemma keeps_queue_throw {A} (e : exn) : keeps_queue (@throw A e).
Proof. intros w b w' H. discriminate. Qed.

Lemma keeps_queue_lift {A} (r : result A) : keeps_queue (lift r).
Proof. destruct r; [apply keeps_queue_ret|apply keeps_queue_throw]. Qed.

Lemma keeps_queue_emit (ev : event) : keeps_queue (emit ev).
Proof. intros w b w' [= _ <-]. reflexivity. Qed.

Lemma keeps_queue_get_fs : keeps_queue get_fs.
Proof. intros w b w' [= _ <-]. reflexivity. Qed.

Lemma keeps_queue_set_fs (fs : gmap string node) : keeps_queue (set_fs fs).
Proof. intros w b w' [= _ <-]. reflexivity. Qed.

Lemma keeps_queue_get_queue : keeps_queue get_queue.
Proof. intros w b w' [= _ <-]. reflexivity. Qed.

Create HintDb queue.

#[local] Hint Resolve keeps_queue_ret keeps_queue_throw keeps_queue_lift
  keeps_queue_emit keeps_queue_get_fs keeps_queue_set_fs keeps_queue_get_queue : queue.

Ltac queue_tac :=
  repeat first
    [ apply keeps_queue_bind; [|intros ?]
    | solve [auto with queue]
    | match goal with
      | |- keeps_queue (match ?x with _ => _ end) => destruct x
      | |- keeps_queue (if ?b then _ else _) => destruct b
      end ].

Lemma keeps_queue_write_file (path content : string) :
  keeps_queue (write_file path content).
Proof. unfold write_file. queue_tac. Qed.

Lemma keeps_queue_mkdtemp (path : string) : keeps_queue (mkdtemp path).
Proof. unfold mkdtemp. queue_tac. Qed.

Lemma keeps_queue_mkfifo (path : string) : keeps_queue (mkfifo path).
Proof. unfold mkfifo. queue_tac. Qed.

Lemma keeps_queue_makedirs (path : string) : keeps_queue (makedirs path).
Proof. unfold makedirs. queue_tac. Qed.

Lemma keeps_queue_isdir (path : string) : keeps_queue (isdir path).
Proof. unfold isdir. queue_tac. Qed.

Lemma keeps_queue_rmtree (d : string) : keeps_queue (rmtree d).
Proof. unfold rmtree. queue_tac. Qed.

#[local] Hint Resolve keeps_queue_write_file keeps_queue_mkdtemp keeps_queue_mkfifo
  keeps_queue_makedirs keeps_queue_isdir keeps_queue_rmtree : queue.

Lemma keeps_queue_progress (sizes : list nat) :
  keeps_queue (fold_right (fun n k => emit (EvComputeProgress n);; k) (ret tt) sizes).
Proof. induction sizes; simpl; queue_tac. Qed.

Lemma keeps_queue_prepare_backup_header
    (dgst : string -> string -> string -> string * string) (env : backup_env)
    (target_directory passphrase : string) (compressed encrypted : bool)
    (hmac_algorithm crypto_algorithm : string) :
  keeps_queue (prepare_backup_header dgst env target_directory passphrase
                 compressed encrypted hmac_algorithm crypto_algorithm).
Proof. unfold prepare_backup_header. queue_tac. Qed.

Lemma prepare_backup_header_names
    (dgst : string -> string -> string -> string * string) (env : backup_env)
    (target_directory passphrase : string) (compressed encrypted : bool)
    (hmac_algorithm crypto_algorithm : string) (w w' : world) (r : string * string) :
  prepare_backup_header dgst env target_directory passphrase
    compressed encrypted hmac_algorithm crypto_algorithm w = (Returns r, w') ->
  r = (HEADER_FILENAME, HEADER_FILENAME +:+ ".hmac").
Proof.
  unfold prepare_backup_header. intros H.
  do 3 (apply bind_returns in H as (? & ? & _ & H)).
  destruct (negb _); [discriminate|]. now injection H.
Qed.

(** ** The names of the chunks *)

Lemma string_of_uint_digits (d : Decimal.uint) :
  all_digits (NilEmpty.string_of_uint d) = true.
Proof. induction d; simpl; auto. Qed.

Lemma all_digits_append (a b : string) :
  all_digits (a +:+ b) = all_digits a && all_digits b.
Proof.
  induction a as [|c a IH]; [reflexivity|].
  rewrite append_cons. simpl. now rewrite IH, andb_assoc.
Qed.

(** The number is read back from its [%03d] form. *)
Lemma fmt_03d_read_back (i : nat) :
  option_map Nat.of_uint (NilEmpty.uint_of_string (fmt_03d i)) = Some i.
Proof.
  unfold fmt_03d.
  assert (H : option_map Nat.of_uint
                (NilEmpty.uint_of_string (NilEmpty.string_of_uint (Nat.to_uint i)))
              = Some i).
  { rewrite NilEmpty.usu. simpl. f_equal. apply DecimalNat.Unsigned.of_to. }
  destruct (String.length _) as [|[|[|n]]]; try exact H.
  - change ("00" +:+ ?d) with (String "0"%char (String "0"%char d)).
    simpl. destruct (NilEmpty.uint_of_string _); [exact H|discriminate].
  - change ("0" +:+ ?d) with (String "0"%char d).
    simpl. destruct (NilEmpty.uint_of_string _); [exact H|discriminate].
Qed.

Lemma fmt_03d_inj (i j : nat) : fmt_03d i = fmt_03d j -> i = j.
Proof.
  intros H. pose proof (fmt_03d_read_back i) as Hi.
  rewrite H, fmt_03d_read_back in Hi. now injection Hi.
Qed.

Lemma fmt_03d_digits (i : nat) : all_digits (fmt_03d i) = true.
Proof.
  unfold fmt_03d. pose proof (string_of_uint_digits (Nat.to_uint i)) as H.
  destruct (String.length _) as [|[|[|n]]]; try exact H;
    rewrite all_digits_append, H; reflexivity.
Qed.

Lemma fmt_03d_length (i : nat) : 3 <= String.length (fmt_03d i).
Proof.
  unfold fmt_03d.
  destruct (String.length (NilEmpty.string_of_uint (Nat.to_uint i)))
    as [|[|[|n]]] eqn:E; rewrite ?length_append, ?E; simpl; try lia.
  exfalso. destruct (NilEmpty.string_of_uint (Nat.to_uint i)) eqn:Es; [|discriminate].
  pose proof (NilEmpty.usu (Nat.to_uint i)) as Hu. rewrite Es in Hu.
  injection Hu as Hu. pose proof (DecimalNat.Unsigned.of_to i) as Hi.
  rewrite <- Hu in Hi. simpl in Hi. subst i. discriminate.
Qed.

Lemma substring_skip (a b : string) (n k : nat) :
  String.substring (String.length a + n) k (a +:+ b) = String.substring n k b.
Proof. induction a as [|c a IH]; [reflexivity|]. rewrite append_cons. exact IH. Qed.

(** [endswith] only looks at the end. *)
Lemma endswith_append (a b suffix : string) :
  String.length suffix <= String.length b ->
  endswith (a +:+ b) suffix = endswith b suffix.
Proof.
  intros H. unfold endswith. rewrite length_append.
  replace (String.length a + String.length b - String.length suffix)
    with (String.length a + (String.length b - String.length suffix)) by lia.
  rewrite substring_skip.
  destruct (Nat.leb_spec (String.length suffix) (String.length b)); [|lia].
  destruct (Nat.leb_spec (String.length suffix) (String.length a + String.length b));
    [reflexivity|lia].
Qed.

Lemma substring_split (s : string) (m : nat) :
  m <= String.length s ->
  s = String.substring 0 m s +:+ String.substring m (String.length s - m) s.
Proof.
  revert m. induction s as [|c s IH]; intros m Hm.
  - destruct m; [reflexivity|simpl in Hm; lia].
  - destruct m as [|m].
    + change ("" +:+ ?x) with x. rewrite Nat.sub_0_r. now rewrite substring_all.
    + simpl in *. rewrite append_cons. f_equal. apply IH. lia.
Qed.

Lemma endswith_inv (s suffix : string) :
  endswith s suffix = true -> exists t, s = t +:+ suffix.
Proof.
  unfold endswith. intros H. apply andb_prop in H as [Hle Heq].
  apply Nat.leb_le in Hle. apply String.eqb_eq in Heq.
  exists (String.substring 0 (String.length s - String.length suffix) s).
  pose proof (substring_split s (String.length s - String.length suffix)) as Hs.
  replace (String.length s - (String.length s - String.length suffix))
    with (String.length suffix) in Hs by lia.
  rewrite Heq in Hs. apply Hs. lia.
Qed.

(** X11: the chunk of a plan entry whose name ends in [.000] is its first
    one, and no other: the test by which [ExtractWorker] starts a new inner
    tar singles out exactly the chunks to which [backup_do] gives the number
    0, whatever the number of chunks. *)
Theorem first_chunk_recognised (backup_tempfile : string) (i : nat) :
  endswith (chunk_name backup_tempfile i) ".000" = (i =? 0).
Proof.
  unfold chunk_name.
  pose proof (fmt_03d_length i) as Hlen.
  pose proof (fmt_03d_digits i) as Hdig.
  destruct (Nat.eq_dec (String.length (fmt_03d i)) 3) as [H3|H3].
  - rewrite endswith_append
      by (change ("." +:+ ?x) with (String "."%char x); simpl; lia).
    unfold endswith. change ("." +:+ ?x) with (String "."%char x).
    simpl String.length. rewrite H3. simpl.
    pose proof (substring_all (fmt_03d i)) as Hs. rewrite H3 in Hs. rewrite Hs.
    destruct (Nat.eqb_spec i 0) as [->|Hi]; [reflexivity|].
    apply String.eqb_neq. intros E. apply Hi. apply fmt_03d_inj. exact E.
  - rewrite endswith_append
      by (rewrite length_append; simpl; lia).
    rewrite endswith_append by (simpl; lia).
    destruct (Nat.eqb_spec i 0) as [->|Hi]; [now elim H3|].
    destruct (endswith (fmt_03d i) ".000") eqn:E; [|reflexivity].
    apply endswith_inv in E as [t E]. rewrite E, all_digits_append in Hdig.
    simpl in Hdig. now rewrite andb_false_r in Hdig.
Qed.

Lemma append_inj_l (a b c : string) : a +:+ b = a +:+ c -> b = c.
Proof.
  induction a as [|x a IH]; [trivial|]. rewrite !append_cons. intros [= H]. auto.
Qed.

Lemma append_inj_r (a b c : string) : a +:+ c = b +:+ c -> a = b.
Proof.
  revert b. induction a as [|x a IH]; intros [|y b] H.
  - reflexivity.
  - apply (f_equal String.length) in H. rewrite !length_append in H. simpl in H. lia.
  - apply (f_equal String.length) in H. rewrite !length_append in H. simpl in H. lia.
  - rewrite !append_cons in H. injection H as -> H. f_equal. auto.
Qed.

Lemma chunk_name_inj (backup_tempfile : string) (i j : nat) :
  chunk_name backup_tempfile i = chunk_name backup_tempfile j -> i = j.
Proof.
  unfold chunk_name. intros H. apply append_inj_l in H.
  apply (append_inj_l ".") in H. now apply fmt_03d_inj.
Qed.

Lemma chunk_name_not_hmac (backup_tempfile : string) (i j : nat) :
  chunk_name backup_tempfile i <> chunk_name backup_tempfile j +:+ ".hmac".
Proof.
  unfold chunk_name. rewrite !append_assoc. intros H.
  apply append_inj_l in H. apply (append_inj_l ".") in H.
  pose proof (fmt_03d_digits i) as Hd. rewrite H, all_digits_append in Hd.
  simpl in Hd. now rewrite andb_false_r in Hd.
Qed.

Lemma keeps_fs_emit (ev : event) (w w' : world) (a : unit) :
  emit ev w = (Returns a, w') -> w_fs w' = w_fs w.
Proof. now intros [= _ <-]. Qed.

Lemma keeps_fs_put (item : string) (w w' : world) (a : unit) :
  put item w = (Returns a, w') -> w_fs w' = w_fs w.
Proof. now intros [= _ <-]. Qed.

Lemma keeps_fs_lift {A} (r : result A) (w w' : world) (a : A) :
  lift r w = (Returns a, w') -> w_fs w' = w_fs w.
Proof. destruct r; [now intros [= _ <-]|discriminate]. Qed.

Lemma keeps_fs_progress (sizes : list nat) (w w' : world) (a : unit) :
  fold_right (fun n k => emit (EvComputeProgress n);; k) (ret tt) sizes w
  = (Returns a, w') ->
  w_fs w' = w_fs w.
Proof.
  revert w. induction sizes as [|n sizes IH]; intros w H.
  - now injection H as _ <-.
  - simpl in H. apply bind_returns in H as ([] & w1 & H1 & H).
    apply keeps_fs_emit in H1. rewrite (IH _ H). exact H1.
Qed.

Lemma write_file_fs (path content : string) (w w' : world) (a : unit) :
  write_file path content w = (Returns a, w') ->
  w_fs w' = <[path := File content]> (w_fs w).
Proof. now intros [= _ <-]. Qed.

Lemma lift_returns {A} (r : result A) (w w' : world) (a : A) :
  lift r w = (Returns a, w') -> r = Ok a /\ w' = w.
Proof. destruct r; [now intros [= <- <-]|discriminate]. Qed.

(** One turn of the chunk loop that does not raise: the chunk file holds
    what was copied to it, its HMAC file what the digest tool gave for these
    bytes, the two names are queued one after the other, and the loop goes
    on with the next number when [tar_sparse] is still alive and ends
    otherwise. *)
Lemma chunk_loop_step (dgst : string -> string -> string -> string * string)
    (args : backup_args) (env : backup_env) (backup_tmpdir backup_tempfile : string)
    (ce : chunk_env) (chunks : list chunk_env) (i : nat) (w w' : world) :
  chunk_loop dgst args env backup_tmpdir backup_tempfile i (ce :: chunks) w
  = (Returns tt, w') ->
  exists rel w1,
    relpath (be_cwd env) (chunk_name backup_tempfile i) backup_tmpdir = Ok rel /\
    w_fs w1
    = <[chunk_name backup_tempfile i +:+ ".hmac"
        := File (fst (dgst (ba_hmac_algorithm args) (ba_passphrase args)
                        (chunk_data args ce)))]>
      (<[chunk_name backup_tempfile i := File (chunk_data args ce)]>
       (<[chunk_name backup_tempfile i := File ""]> (w_fs w))) /\
    w_queue w1 = w_queue w ++ [rel; rel +:+ ".hmac"] /\
    if ce_tar_alive ce
    then chunk_loop dgst args env backup_tmpdir backup_tempfile (S i) chunks w1
         = (Returns tt, w')
    else w' = w1.
Proof.
  intros H. cbn [chunk_loop] in H.
  fold (chunk_name backup_tempfile i) in H.
  apply bind_returns in H as ([] & w1 & H1 & H). injection H1 as <-.
  apply bind_returns in H as ([] & w2 & H2 & H). injection H2 as <-.
  apply bind_returns in H as ([] & w3 & H3 & H). injection H3 as <-.
  apply bind_returns in H as ([] & w4 & H4 & H).
  assert (Hw4 : w_fs w4 = <[chunk_name backup_tempfile i := File ""]> (w_fs w) /\
                w_queue w4 = w_queue w).
  { destruct (ba_encrypted args); [now injection H4 as <-|].
    destruct (ba_compressed args); [now injection H4 as <-|].
    now injection H4 as <-. }
  clear H4. destruct Hw4 as [Hf4 Hq4].
  unfold chunk_data. revert H.
  destruct (wait_backup_feedback _ _) as [run_error out]. intros H. cbn [snd].
  apply bind_returns in H as (fs & w5 & H5 & H). injection H5 as <- <-.
  apply bind_returns in H as ([] & w6 & H6 & H). injection H6 as <-.
  apply bind_returns in H as ([] & w7 & H7 & H).
  pose proof (keeps_queue_progress _ _ _ _ H7) as Hq7.
  apply keeps_fs_progress in H7. simpl in H7, Hq7. rewrite Hf4 in H7. rewrite Hq4 in Hq7.
  clear Hf4 Hq4.
  destruct run_error as [[e|]|]; try discriminate.
  destruct (0 <? String.length e).
  { apply bind_returns in H as ([] & w8 & _ & H).
    destruct (_ && _); discriminate. }
  apply bind_returns in H as (rel & w8 & H8 & H).
  apply lift_returns in H8 as [Hrel ->].
  apply bind_returns in H as ([] & w9 & H9 & H). injection H9 as <-.
  apply bind_returns in H as ([] & w10 & H10 & H). injection H10 as <-.
  apply bind_returns in H as ([] & w11 & H11 & H). injection H11 as <-.
  cbn [w_fs w_queue w_log] in H.
  destruct (ce_tar_alive ce).
  - apply bind_returns in H as ([] & w12 & H12 & H). injection H12 as <-.
    eexists rel, _. split; [exact Hrel|]. split; [|split; [|exact H]].
    + cbn [w_fs]. now rewrite H7.
    + cbn [w_queue]. rewrite Hq7, <- app_assoc. reflexivity.
  - injection H as <-.
    eexists rel, _. split; [exact Hrel|]. split; [|split; [|reflexivity]].
    + cbn [w_fs]. now rewrite H7.
    + cbn [w_queue]. rewrite Hq7, <- app_assoc. reflexivity.
Qed.

(** The turns that follow only write chunks with higher numbers, and their
    HMAC files. *)
Lemma chunk_loop_frame (dgst : string -> string -> string -> string * string)
    (args : backup_args) (env : backup_env) (backup_tmpdir backup_tempfile : string)
    (chunks : list chunk_env) (i : nat) (w w' : world) (p : string) :
  chunk_loop dgst args env backup_tmpdir backup_tempfile i chunks w = (Returns tt, w') ->
  (forall j, i <= j -> p <> chunk_name backup_tempfile j /\
                       p <> chunk_name backup_tempfile j +:+ ".hmac") ->
  w_fs w' !! p = w_fs w !! p.
Proof.
  revert i w. induction chunks as [|ce chunks IH]; intros i w H Hp; [discriminate|].
  apply chunk_loop_step in H as (rel & w1 & _ & Hfs & _ & H).
  assert (H1 : w_fs w1 !! p = w_fs w !! p).
  { destruct (Hp i (le_n i)) as [Ha Hb].
    rewrite Hfs, !lookup_insert_ne by congruence. reflexivity. }
  destruct (ce_tar_alive ce); [|now subst w'].
  rewrite <- H1. apply (IH (S i) w1 H). intros j Hj. apply Hp. lia.
Qed.

(** X12: when the chunk loop of [backup_do] returns for a plan entry, it has
    made [chunk_numbers chunks] turns -- at least one, the last being the
    first after which [tar_sparse] was found to have ended -- and written the
    chunks numbered consecutively from [i], one per turn.  The removals of
    the sending worker set aside (its steps are placed where it is joined),
    for every chunk number used the chunk file holds the bytes copied to it
    in its turn and stands beside an HMAC file that holds what the digest
    tool gave, under the algorithm and the passphrase of the backup, for
    these very bytes: later chunks overwrite neither. *)
Theorem chunk_loop_writes_hmac (dgst : string -> string -> string -> string * string)
    (args : backup_args) (env : backup_env) (backup_tmpdir backup_tempfile : string)
    (chunks : list chunk_env) (i : nat) (w w' : world)
    (Hreturns : chunk_loop dgst args env backup_tmpdir backup_tempfile i chunks w
                = (Returns tt, w')) :
  0 < chunk_numbers chunks <= length chunks /\
  forall j ce,
    j < chunk_numbers chunks -> chunks !! j = Some ce ->
    w_fs w' !! chunk_name backup_tempfile (i + j) = Some (File (chunk_data args ce)) /\
    w_fs w' !! (chunk_name backup_tempfile (i + j) +:+ ".hmac")
    = Some (File (fst (dgst (ba_hmac_algorithm args) (ba_passphrase args)
                         (chunk_data args ce)))).
Proof.
  revert i w Hreturns.
  induction chunks as [|ce chunks IH]; intros i w H; [discriminate|].
  apply chunk_loop_step in H as (rel & w1 & _ & Hfs & _ & H).
  assert (Hne : chunk_name backup_tempfile i
                <> chunk_name backup_tempfile i +:+ ".hmac")
    by (apply append_neq_self; discriminate).
  assert (Hc : w_fs w1 !! chunk_name backup_tempfile i = Some (File (chunk_data args ce))).
  { rewrite Hfs, lookup_insert_ne by congruence. apply lookup_insert_eq. }
  assert (Hh : w_fs w1 !! (chunk_name backup_tempfile i +:+ ".hmac")
               = Some (File (fst (dgst (ba_hmac_algorithm args) (ba_passphrase args)
                                    (chunk_data args ce))))).
  { rewrite Hfs. apply lookup_insert_eq. }
  cbn [chunk_numbers length]. destruct (ce_tar_alive ce).
  - destruct (IH _ _ H) as (Hn & Hlater).
    split; [lia|]. intros [|j] ce' Hj Hce.
    + injection Hce as <-. rewrite Nat.add_0_r. split.
      * rewrite <- Hc. apply (chunk_loop_frame _ _ _ _ _ _ _ _ _ _ H).
        intros k Hk. split.
        -- intros E. apply chunk_name_inj in E. lia.
        -- apply chunk_name_not_hmac.
      * rewrite <- Hh. apply (chunk_loop_frame _ _ _ _ _ _ _ _ _ _ H).
        intros k Hk. split.
        -- intros E. symmetry in E. revert E. apply chunk_name_not_hmac.
        -- intros E. apply append_inj_r in E. apply chunk_name_inj in E. lia.
    + replace (i + S j) with (S i + j) by lia. apply Hlater; [lia|exact Hce].
  - subst w'. split; [lia|]. intros [|j] ce' Hj Hce; [|lia].
    injection Hce as <-. rewrite Nat.add_0_r. auto.
Qed.

Lemma chunk_loop_writes_hmac_witness :
  0 < chunk_numbers sample_two_chunks <= length sample_two_chunks /\
  forall j ce,
    j < chunk_numbers sample_two_chunks -> sample_two_chunks !! j = Some ce ->
    w_fs (snd (chunk_loop toy_dgst sample_plain_args sample_backup_env
                 "/var/tmp/backup_abc" "/var/tmp/backup_abc/vm1/private.img"
                 0 sample_two_chunks (World ∅ [] [])))
    !! chunk_name "/var/tmp/backup_abc/vm1/private.img" (0 + j)
    = Some (File (chunk_data sample_plain_args ce)) /\
    w_fs (snd (chunk_loop toy_dgst sample_plain_args sample_backup_env
                 "/var/tmp/backup_abc" "/var/tmp/backup_abc/vm1/private.img"
                 0 sample_two_chunks (World ∅ [] [])))
    !! (chunk_name "/var/tmp/backup_abc/vm1/private.img" (0 + j) +:+ ".hmac")
    = Some (File (fst (toy_dgst (ba_hmac_algorithm sample_plain_args)
                         (ba_passphrase sample_plain_args)
                         (chunk_data sample_plain_args ce)))).
Proof.
  apply (chunk_loop_writes_hmac toy_dgst sample_plain_args sample_backup_env
           "/var/tmp/backup_abc" "/var/tmp/backup_abc/vm1/private.img"
           sample_two_chunks 0 (World ∅ [] [])).
  vm_compute. reflexivity.
Defined.

(** ** The order in which a backup hands its files to the sending worker *)

Lemma with_hmac_app (a b : list string) :
  with_hmac (a ++ b) = with_hmac a ++ with_hmac b.
Proof. induction a; simpl; congruence. Qed.

(** The names the chunk loop queues for a plan entry: chunk by chunk, the
    path of the chunk relative to the working directory and that of its HMAC
    file. *)
Lemma chunk_loop_queue (dgst : string -> string -> string -> string * string)
    (args : backup_args) (env : backup_env) (backup_tmpdir backup_tempfile : string)
    (chunks : list chunk_env) (i : nat) (w w' : world) :
  chunk_loop dgst args env backup_tmpdir backup_tempfile i chunks w = (Returns tt, w') ->
  0 < chunk_numbers chunks /\
  exists names,
    Forall2 (fun chunkfile name =>
               relpath (be_cwd env) chunkfile backup_tmpdir = Ok name)
            (map (chunk_name backup_tempfile) (seq i (chunk_numbers chunks))) names /\
    w_queue w' = w_queue w ++ with_hmac names.
Proof.
  revert i w. induction chunks as [|ce chunks IH]; intros i w H; [discriminate|].
  apply chunk_loop_step in H as (rel & w1 & Hrel & _ & Hq & H).
  cbn [chunk_numbers]. destruct (ce_tar_alive ce).
  - apply IH in H as (_ & names & Hnames & Hq').
    split; [lia|]. exists (rel :: names). split.
    + cbn [seq map]. now constructor.
    + rewrite Hq', Hq, <- app_assoc. reflexivity.
  - subst w'. split; [lia|]. exists [rel]. split.
    + cbn [seq map]. repeat constructor. exact Hrel.
    + exact Hq.
Qed.

Lemma entry_loop_queue (dgst : string -> string -> string -> string * string)
    (args : backup_args) (env : backup_env) (backup_tmpdir : string)
    (files : list fileinfo) (chunks : list (list chunk_env)) (w w' : world) :
  entry_loop dgst args env backup_tmpdir files chunks w = (Returns tt, w') ->
  Forall (fun chunkfiles => chunkfiles <> [])
         (entry_chunks backup_tmpdir files chunks) /\
  exists names,
    Forall2 (fun chunkfile name =>
               relpath (be_cwd env) chunkfile backup_tmpdir = Ok name)
            (concat (entry_chunks backup_tmpdir files chunks)) names /\
    w_queue w' = w_queue w ++ with_hmac names.
Proof.
  revert chunks w. induction files as [|file files IH]; intros chunks w H.
  - injection H as <-. split; [constructor|]. exists []. simpl.
    split; [constructor|now rewrite app_nil_r].
  - cbn [entry_loop] in H. fold (entry_tempfile backup_tmpdir file) in H.
    apply bind_returns in H as (present & w1 & H1 & H). apply keeps_queue_isdir in H1.
    apply bind_returns in H as ([] & w2 & H2 & H).
    assert (Hq2 : w_queue w2 = w_queue w1).
    { match type of H2 with ?m _ = _ => assert (Hk : keeps_queue m) by queue_tac end.
      exact (Hk _ _ _ H2). }
    apply bind_returns in H as ([] & w3 & H3 & H). apply keeps_queue_emit in H3.
    apply bind_returns in H as ([] & w4 & H4 & H).
    apply chunk_loop_queue in H4 as (Hn & names1 & Hnames1 & Hq1).
    apply IH in H as (Hall & names2 & Hnames2 & Hq2').
    cbn [entry_chunks concat]. split.
    + constructor; [|exact Hall].
      destruct (chunk_numbers (hd [] chunks)); [lia|discriminate].
    + exists (names1 ++ names2). split.
      * apply Forall2_app; assumption.
      * rewrite Hq2', Hq1, H3, Hq2, H1, with_hmac_app, <- app_assoc. reflexivity.
Qed.

(** X10: when [backup_do] returns, every entry of the plan has been written
    as a run of chunks that is not empty and is numbered from [000] without
    a gap, and what [backup_do] has put on the queue of the sending worker
    is the header followed by its HMAC file; then, for every chunk of every
    entry, in the order of the plan and of the numbers, the path of the chunk
    relative to the working directory immediately followed by that of its
    HMAC file, and nothing else; and [FINISHED] at the very end -- the
    pairing [restore_vm_dirs] and [verify_hmac] expect. *)
Theorem backup_do_queue_layout (dgst : string -> string -> string -> string * string)
    (args : backup_args) (env : backup_env) (w w' : world)
    (Hreturns : backup_do dgst args env w = (Returns tt, w')) :
  Forall (fun chunkfiles => chunkfiles <> [])
         (entry_chunks ("/var/tmp/backup_" +:+ be_tmp_suffix env)
                       (ba_files_to_backup args) (be_chunks env)) /\
  exists names,
    Forall2 (fun chunkfile name =>
               relpath (be_cwd env) chunkfile ("/var/tmp/backup_" +:+ be_tmp_suffix env)
               = Ok name)
            (concat (entry_chunks ("/var/tmp/backup_" +:+ be_tmp_suffix env)
                                  (ba_files_to_backup args) (be_chunks env)))
            names /\
    w_queue w' = with_hmac (HEADER_FILENAME :: names) ++ ["FINISHED"].
Proof.
  unfold backup_do in Hreturns.
  destruct (_ && _); [discriminate|].
  apply bind_returns in Hreturns as ([] & w1 & _ & H).
  apply bind_returns in H as ([] & w2 & _ & H).
  apply bind_returns in H as ([] & w3 & _ & H).
  apply bind_returns in H as (tmp & w4 & Htmp & H).
  apply mkdtemp_returns in Htmp. subst tmp.
  apply bind_returns in H as ([] & w5 & _ & H).
  apply bind_returns in H as (hf & w6 & Hhf & H).
  apply prepare_backup_header_names in Hhf. subst hf.
  apply bind_returns in H as ([] & w7 & H7 & H). injection H7 as <-.
  apply bind_returns in H as ([] & w8 & H8 & H). injection H8 as <-.
  apply bind_returns in H as ([] & w9 & H9 & H). injection H9 as <-.
  apply bind_returns in H as ([] & w10 & H10 & H).
  apply entry_loop_queue in H10 as (Hall & names & Hnames & Hq10). simpl in Hq10.
  apply bind_returns in H as ([] & w11 & H11 & H). injection H11 as <-.
  apply bind_returns in H as (items & w12 & H12 & H). injection H12 as <- <-.
  apply bind_returns in H as (exitcode & w13 & Hrun & H).
  destruct (exitcode =? 0)%Z eqn:Ez; [|discriminate]. simpl in H.
  apply Z.eqb_eq in Ez. subst exitcode.
  unfold SendWorker.run, try_except in Hrun.
  match type of Hrun with
  | match ?m with _ => _ end = _ => destruct m as [[z|e|] w14] eqn:Eloop
  end; try discriminate.
  injection Hrun as -> ->.
  apply bind_returns in Eloop as ([] & w15 & Hloop & Hret). injection Hret as <-.
  apply send_loop_returns in Hloop as (_ & _ & _ & _ & _ & Hq).
  apply bind_returns in H as ([] & w16 & H16 & H).
  assert (Hq16 : w_queue w16 = w_queue w15).
  { match type of H16 with ?m _ = _ => assert (Hk : keeps_queue m) by queue_tac end.
    exact (Hk _ _ _ H16). }
  apply keeps_queue_rmtree in H.
  split; [exact Hall|]. exists names. split; [exact Hnames|].
  rewrite H, Hq16, Hq. simpl. rewrite Hq10. reflexivity.
Qed.

Lemma backup_do_queue_layout_witness :
  Forall (fun chunkfiles => chunkfiles <> [])
         (entry_chunks ("/var/tmp/backup_" +:+ be_tmp_suffix sample_backup_env)
                       (ba_files_to_backup sample_plain_args)
                       (be_chunks sample_backup_env)) /\
  exists names,
    Forall2 (fun chunkfile name =>
               relpath (be_cwd sample_backup_env) chunkfile
                       ("/var/tmp/backup_" +:+ be_tmp_suffix sample_backup_env)
               = Ok name)
            (concat (entry_chunks ("/var/tmp/backup_" +:+ be_tmp_suffix sample_backup_env)
                                  (ba_files_to_backup sample_plain_args)
                                  (be_chunks sample_backup_env)))
            names /\
    w_queue (snd (backup_do toy_dgst sample_plain_args sample_backup_env (World ∅ [] [])))
    = with_hmac (HEADER_FILENAME :: names) ++ ["FINISHED"].
Proof.
  apply (backup_do_queue_layout toy_dgst sample_plain_args sample_backup_env
           (World ∅ [] [])).
  vm_compute. reflexivity.
Defined.

(** ** When the inner tar is given the logical name *)

Lemma rstrip_by_fixpoint (p : ascii -> bool) (s : string) :
  rstrip_by p s = s <-> (forall t c, s = t +:+ String c "" -> p c = false).
Proof.
  induction s as [|c s IH].
  - split; [|reflexivity]. intros _ [|d t] c' H; discriminate.
  - simpl. split.
    + intros H t c' Hs. destruct (rstrip_by p s) as [|d r] eqn:Er.
      * destruct (p c) eqn:Ep; [discriminate|]. injection H as <-.
        destruct t as [|d t]; [now injection Hs as <-|].
        rewrite append_cons in Hs. injection Hs as _ Hs. destruct t; discriminate.
      * injection H as H. destruct t as [|d' t].
        { injection Hs as _ Hs. subst s. discriminate. }
        rewrite append_cons in Hs. injection Hs as _ Hs.
        apply (proj1 IH H t c' Hs).
    + intros H. destruct s as [|d s].
      * simpl. now rewrite (H "" c eq_refl).
      * assert (Hs : rstrip_by p (String d s) = String d s).
        { apply IH. intros t c' E. apply (H (String c t) c').
          rewrite append_cons. now rewrite E. }
        rewrite Hs. reflexivity.
Qed.

Lemma endswith_self (a suffix : string) : endswith (a +:+ suffix) suffix = true.
Proof.
  rewrite endswith_append by lia. unfold endswith.
  rewrite Nat.leb_refl, Nat.sub_diag, substring_all. apply String.eqb_refl.
Qed.

(** X13: for a first chunk named [logical.000], [filename.rstrip('.000')]
    gives back [logical] exactly when [logical] ends neither in ['0'] nor in
    ['.']; and when it ends in neither, the member [ExtractWorker] names to
    the inner tar is [os.path.relpath] of [logical].  (For the other names
    only the stripping is characterised, not the member: [relpath]
    normalises its argument, so that distinct strings can name one member.) *)
Theorem tar2_member_exact (s : ExtractWorker.self) (logical : string) :
  (rstrip ".000" (logical +:+ ".000") = logical <->
   endswith logical "0" = false /\ endswith logical "." = false) /\
  (endswith logical "0" = false -> endswith logical "." = false ->
   ExtractWorker.tar2_member s (logical +:+ ".000")
   = relpath (ExtractWorker.base_dir s) logical ".").
Proof.
  assert (Hiff : rstrip ".000" (logical +:+ ".000") = logical <->
                 endswith logical "0" = false /\ endswith logical "." = false).
  { rewrite rstrip_000_suffix. unfold rstrip. rewrite rstrip_by_fixpoint. split.
    - intros H. split.
      + destruct (endswith logical "0") eqn:E; [|reflexivity].
        apply endswith_inv in E as [t E]. now apply H in E.
      + destruct (endswith logical ".") eqn:E; [|reflexivity].
        apply endswith_inv in E as [t E]. now apply H in E.
    - intros [H0 Hdot] t c ->. simpl.
      destruct (Ascii.eqb_spec c "."%char) as [->|_];
        [now rewrite endswith_self in Hdot|].
      destruct (Ascii.eqb_spec c "0"%char) as [->|_];
        [now rewrite endswith_self in H0|reflexivity]. }
  split; [exact Hiff|].
  intros H0 Hdot. unfold ExtractWorker.tar2_member.
  now rewrite (proj2 Hiff (conj H0 Hdot)).
Qed.

(** ** What exit code 0 of the extraction worker means *)

Lemma extract_step_returns (env : extract_env) (s s' : ExtractWorker.self)
    (filename : string) (w w' : world) :
  ExtractWorker.step env s filename w = (Returns s', w') ->
  w_fs w' = delete filename (w_fs w) /\
  (ExtractWorker.tar2_process s = None -> endswith filename ".000" = true) /\
  ExtractWorker.tar2_process s' <> None /\
  ExtractWorker.restore_pipe s' = ExtractWorker.restore_pipe s /\
  ExtractWorker.encrypted s' = ExtractWorker.encrypted s /\
  ExtractWorker.compressed s' = ExtractWorker.compressed s /\
  fst (wait_backup_feedback
         (Procs false true false
                (ExtractWorker.encrypted s || ExtractWorker.compressed s))
         (ee_obs env filename)) = Some (Some "") /\
  (if endswith filename ".000"
   then ExtractWorker.tar2_process s' = Some filename /\
        forall started, ExtractWorker.tar2_process s = Some started ->
                        ee_tar2_wait env started = 0%Z
   else ExtractWorker.tar2_process s' = ExtractWorker.tar2_process s).
Proof.
  unfold ExtractWorker.step. intros H.
  apply bind_returns in H as (s1 & w1 & H1 & H).
  assert (Hs1 : w_fs w1 = w_fs w /\
                (ExtractWorker.tar2_process s = None -> endswith filename ".000" = true) /\
                ExtractWorker.tar2_process s1 <> None /\
                ExtractWorker.restore_pipe s1 = ExtractWorker.restore_pipe s /\
                ExtractWorker.encrypted s1 = ExtractWorker.encrypted s /\
                ExtractWorker.compressed s1 = ExtractWorker.compressed s /\
                (if endswith filename ".000"
                 then ExtractWorker.tar2_process s1 = Some filename /\
                      forall started, ExtractWorker.tar2_process s = Some started ->
                                      ee_tar2_wait env started = 0%Z
                 else ExtractWorker.tar2_process s1 = ExtractWorker.tar2_process s)).
  { destruct (endswith filename ".000").
    - apply bind_returns in H1 as (s0 & w0 & H0 & H1).
      assert (w_fs w0 = w_fs w /\
              ExtractWorker.restore_pipe s0 = ExtractWorker.restore_pipe s /\
              ExtractWorker.encrypted s0 = ExtractWorker.encrypted s /\
              ExtractWorker.compressed s0 = ExtractWorker.compressed s /\
              forall started, ExtractWorker.tar2_process s = Some started ->
                              ee_tar2_wait env started = 0%Z)
        as (Hw0 & Hp0 & He0 & Hc0 & Hwait).
      { destruct (ExtractWorker.tar2_process s) as [started|].
        - destruct (ee_tar2_wait env started =? 0)%Z eqn:Ez; [|discriminate].
          apply Z.eqb_eq in Ez. injection H0 as <- <-.
          repeat split. now intros ? [= <-].
        - injection H0 as <- <-. repeat split. discriminate. }
      apply bind_returns in H1 as (cmdline & w2 & H2 & H1). apply keeps_fs_lift in H2.
      apply bind_returns in H1 as ([] & w3 & H3 & H1). apply keeps_fs_emit in H3.
      injection H1 as <- <-. simpl.
      repeat split; [congruence|discriminate|exact Hp0|exact He0|exact Hc0|exact Hwait].
    - destruct (ExtractWorker.tar2_process s) as [started|] eqn:Et; [|discriminate].
      apply bind_returns in H1 as ([] & w2 & H2 & H1). apply keeps_fs_emit in H2.
      injection H1 as <- <-.
      repeat split; [exact H2|discriminate|now rewrite Et|exact Et]. }
  destruct Hs1 as (Hw1 & Hfirst & Htar & Hpipe & Henc & Hcomp & Hstarted).
  apply bind_returns in H as ([] & w2 & H2 & H). apply keeps_fs_emit in H2.
  apply bind_returns in H as (content & w3 & H3 & H).
  assert (Hw3 : w3 = w2).
  { unfold read_file, bind, get_fs in H3.
    destruct (w_fs w2 !! filename) as [[| |]|]; try discriminate. now injection H3. }
  subst w3. clear H3.
  apply bind_returns in H as ([] & w4 & H4 & H). apply keeps_fs_emit in H4.
  apply bind_returns in H as ([] & w5 & H5 & H).
  assert (Hw5 : w_fs w5 = w_fs w4).
  { simpl in H5. destruct (ExtractWorker.encrypted s1); [now apply keeps_fs_emit in H5|].
    destruct (ExtractWorker.compressed s1); [now apply keeps_fs_emit in H5|].
    now injection H5 as <-. }
  clear H5. cbn [ExtractWorker.set_tar2 ExtractWorker.encrypted
                 ExtractWorker.compressed] in H.
  rewrite Henc, Hcomp in H. revert H.
  destruct (wait_backup_feedback _ _) as [[[e|]|] out]; try discriminate.
  destruct e as [|c e]; [|discriminate]. cbn [String.length Nat.ltb Nat.leb].
  intros H.
  apply bind_returns in H as ([] & w6 & H6 & H). injection H as <- <-.
  assert (Hw6 : w_fs w6 = delete filename (w_fs w5)).
  { unfold unlink, bind, get_fs in H6.
    destruct (w_fs w5 !! filename) as [[| |]|]; try discriminate;
      now injection H6 as <-. }
  simpl.
  repeat split; [congruence|exact Hfirst|exact Htar|exact Hpipe|exact Henc|exact Hcomp|].
  exact Hstarted.
Qed.

Lemma extract_loop_returns (env : extract_env) (items : list string)
    (s s' : ExtractWorker.self) (last : string) (w w' : world) :
  ExtractWorker.loop env s items w = (Returns (s', last), w') ->
  exists chunks rest,
    items = chunks ++ last :: rest /\
    is_sentinel last = true /\
    Forall (fun f => is_sentinel f = false) chunks /\
    match chunks with
    | first :: _ => ExtractWorker.tar2_process s = None -> endswith first ".000" = true
    | [] => s' = s
    end /\
    (forall p, w_fs w' !! p
               = if existsb (String.eqb p) chunks then None else w_fs w !! p) /\
    ExtractWorker.restore_pipe s' = ExtractWorker.restore_pipe s /\
    ExtractWorker.encrypted s' = ExtractWorker.encrypted s /\
    ExtractWorker.compressed s' = ExtractWorker.compressed s /\
    Forall (fun f =>
              fst (wait_backup_feedback
                     (Procs false true false
                            (ExtractWorker.encrypted s || ExtractWorker.compressed s))
                     (ee_obs env f)) = Some (Some "")) chunks /\
    (forall started, ExtractWorker.tar2_process s = Some started ->
                     ee_tar2_wait env started = 0%Z \/
                     ExtractWorker.tar2_process s' = Some started) /\
    Forall (fun f => endswith f ".000" = true ->
                     ee_tar2_wait env f = 0%Z \/
                     ExtractWorker.tar2_process s' = Some f) chunks.
Proof.
  revert s w. induction items as [|f items IH]; intros s w H; [discriminate|].
  simpl in H. fold (is_sentinel f) in H. destruct (is_sentinel f) eqn:Ef.
  - injection H as <- <- <-. exists [], items. simpl.
    split; [reflexivity|]. split; [exact Ef|]. split; [constructor|].
    do 5 (split; [reflexivity|]). split; [constructor|].
    split; [now right|constructor].
  - apply bind_returns in H as (s1 & w1 & Hstep & H).
    apply extract_step_returns in Hstep
      as (Hfs & Hfirst & _ & Hpipe & Henc & Hcomp & Hfed & Hstarted).
    apply IH in H as (chunks & rest & -> & Hlast & Hall & _ & Hlook & Hpipe'
                      & Henc' & Hcomp' & Hfeds & Hrunning & Htars).
    exists (f :: chunks), rest. simpl.
    split; [reflexivity|]. split; [exact Hlast|]. split; [now constructor|].
    split; [exact Hfirst|]. split.
    { intros p. rewrite Hlook, Hfs.
      destruct (String.eqb_spec p f) as [->|Hp]; simpl.
      + rewrite lookup_delete_eq. now destruct (existsb _ _).
      + rewrite lookup_delete_ne by congruence. reflexivity. }
    split; [congruence|]. split; [congruence|]. split; [congruence|]. split.
    { constructor; [exact Hfed|]. now rewrite Henc, Hcomp in Hfeds. }
    destruct (endswith f ".000") eqn:E000.
    + destruct Hstarted as [Hs1 Hwait]. split.
      * intros started Hs. left. now apply Hwait.
      * constructor; [|exact Htars]. intros _. now apply Hrunning.
    + rewrite Hstarted in Hrunning. split; [exact Hrunning|].
      constructor; [intros E; congruence|exact Htars].
Qed.

(** X14: when the extraction worker, started with no inner tar, ends with
    exit code 0, the queue held a [FINISHED] or [ERROR] marker; every item
    before the first marker is a chunk for which [wait_backup_feedback]
    returned the empty string -- no process was reported as failed while it
    was fed to the inner tar -- and which was then removed, the first of them
    being a chunk ending in [.000]; every inner tar, one being started for
    each chunk ending in [.000], was waited for and had ended with status 0;
    the pipe is removed as well, no other path was touched, and what follows
    the marker was not looked at. *)
Theorem extract_worker_exit_zero (env : extract_env) (s : ExtractWorker.self)
    (items : list string) (w w' : world)
    (Hfresh : ExtractWorker.tar2_process s = None)
    (Hexit : ExtractWorker.run env s items w = (Returns 0%Z, w')) :
  exists chunks last rest,
    items = chunks ++ last :: rest /\
    is_sentinel last = true /\
    Forall (fun f => is_sentinel f = false) chunks /\
    match chunks with
    | first :: _ => endswith first ".000" = true
    | [] => True
    end /\
    Forall (fun f =>
              fst (wait_backup_feedback
                     (Procs false true false
                            (ExtractWorker.encrypted s || ExtractWorker.compressed s))
                     (ee_obs env f)) = Some (Some "")) chunks /\
    Forall (fun f => endswith f ".000" = true -> ee_tar2_wait env f = 0%Z) chunks /\
    (forall p, w_fs w' !! p
               = if String.eqb p (ExtractWorker.restore_pipe s)
                    || existsb (String.eqb p) chunks
                 then None else w_fs w !! p).
Proof.
  unfold ExtractWorker.run, try_except in Hexit.
  match type of Hexit with
  | match ?m with _ => _ end = _ => destruct m as [[z|e|] w1] eqn:E
  end; try discriminate.
  injection Hexit as -> ->.
  apply bind_returns in E as ([] & w2 & Hrun & Hret). injection Hret as <-.
  unfold ExtractWorker.__run__ in Hrun.
  apply bind_returns in Hrun as ([s' last] & w3 & Hloop & Hrun).
  apply extract_loop_returns in Hloop
    as (chunks & rest & -> & Hlast & Hall & Hfirst & Hlook & Hpipe
        & _ & _ & Hfeds & _ & Htars).
  apply bind_returns in Hrun as ([] & w4 & Hunlink & Hrun).
  assert (Hw4 : w_fs w4 = delete (ExtractWorker.restore_pipe s) (w_fs w3)).
  { rewrite Hpipe in Hunlink. unfold unlink, bind, get_fs in Hunlink.
    destruct (w_fs w3 !! ExtractWorker.restore_pipe s) as [[| |]|]; try discriminate;
      now injection Hunlink as <-. }
  assert (w_fs w2 = w_fs w4 /\
          forall started, ExtractWorker.tar2_process s' = Some started ->
                          ee_tar2_wait env started = 0%Z) as [Hw2 Hfinal].
  { destruct (ExtractWorker.tar2_process s') as [started|].
    - apply bind_returns in Hrun as ([] & w5 & H5 & Hrun).
      destruct (ee_tar2_wait env started =? 0)%Z eqn:Ez; [|discriminate].
      apply Z.eqb_eq in Ez. injection Hrun as <-. split.
      + destruct (String.eqb last "ERROR"); [now apply keeps_fs_emit in H5|].
        now injection H5 as <-.
      + intros ? Hs. now injection Hs as <-.
    - injection Hrun as <-. split; [reflexivity|discriminate]. }
  exists chunks, last, rest.
  split; [reflexivity|]. split; [exact Hlast|]. split; [exact Hall|]. split.
  { destruct chunks; [exact I|auto]. }
  split; [exact Hfeds|]. split.
  { eapply Forall_impl; [exact Htars|]. intros f Hf H000.
    destruct (Hf H000) as [Hz|Hs]; [exact Hz|now apply Hfinal]. }
  intros p. rewrite Hw2, Hw4.
  destruct (String.eqb_spec p (ExtractWorker.restore_pipe s)) as [->|Hp]; simpl.
  - apply lookup_delete_eq.
  - rewrite lookup_delete_ne by congruence. apply Hlook.
Qed.

Lemma extract_worker_exit_zero_witness :
  exists chunks last rest,
    ["/var/tmp/restore_x/qubes.xml.000"; "FINISHED"] = chunks ++ last :: rest /\
    is_sentinel last = true /\
    Forall (fun f => is_sentinel f = false) chunks /\
    match chunks with
    | first :: _ => endswith first ".000" = true
    | [] => True
    end /\
    Forall (fun f =>
              fst (wait_backup_feedback
                     (Procs false true false
                            (ExtractWorker.encrypted sample_worker
                             || ExtractWorker.compressed sample_worker))
                     (ee_obs sample_extract_env f)) = Some (Some "")) chunks /\
    Forall (fun f => endswith f ".000" = true -> ee_tar2_wait sample_extract_env f = 0%Z)
           chunks /\
    (forall p,
        w_fs (snd (ExtractWorker.run sample_extract_env sample_worker
                     ["/var/tmp/restore_x/qubes.xml.000"; "FINISHED"]
                     (World sample_extract_fs [] []))) !! p
        = if String.eqb p (ExtractWorker.restore_pipe sample_worker)
             || existsb (String.eqb p) chunks
          then None else w_fs (World sample_extract_fs [] []) !! p).
Proof.
  apply (extract_worker_exit_zero sample_extract_env sample_worker
           ["/var/tmp/restore_x/qubes.xml.000"; "FINISHED"]
           (World sample_extract_fs [] [])).
  - reflexivity.
  - vm_compute. reflexivity.
Defined.

(** ** The size read from the output of du *)

Lemma span_digits_append (digits : string) (c : ascii) (rest : string) :
  all_digits digits = true -> is_digit c = false ->
  span_digits (digits +:+ String c rest) = (digits, String c rest).
Proof.
  intros Hd Hc. induction digits as [|d digits IH].
  - change ("" +:+ ?x) with x. simpl. now rewrite Hc.
  - simpl in Hd. apply andb_prop in Hd as [Hd Hds].
    rewrite append_cons. simpl. rewrite Hd, IH by exact Hds. reflexivity.
Qed.

Lemma fmt_d_nonempty (n : nat) : fmt_d n <> "".
Proof.
  unfold fmt_d. intros E.
  pose proof (NilEmpty.usu (Nat.to_uint n)) as Hu. rewrite E in Hu.
  injection Hu as Hu. pose proof (DecimalNat.Unsigned.of_to n) as Hn.
  rewrite <- Hu in Hn. simpl in Hn. subst n. discriminate.
Qed.

Lemma int_of_digits_fmt_d (n : nat) : int_of_digits (fmt_d n) = n.
Proof.
  unfold int_of_digits, fmt_d. rewrite NilEmpty.usu.
  apply DecimalNat.Unsigned.of_to.
Qed.

Lemma isspace_not_digit (c : ascii) : isspace c = true -> is_digit c = false.
Proof.
  destruct c as [[] [] [] [] [] [] [] []]; try discriminate; reflexivity.
Qed.

(** X15: [get_disk_usage] returns the number that [du] prints: for an
    output made of the decimal form of [n], a white-space character and
    anything after it, the result is [n], whatever [n]; the result is 0 when
    the path does not exist and when the output does not begin with a
    digit. *)
Theorem get_disk_usage_reads_du (n : nat) (sep : ascii) (rest output : string) :
  (isspace sep = true ->
   get_disk_usage true (fmt_d n +:+ String sep rest) = n) /\
  get_disk_usage false output = 0 /\
  (forall c, is_digit c = false -> get_disk_usage true (String c output) = 0).
Proof.
  split; [|split].
  - intros Hsep. unfold get_disk_usage. simpl.
    rewrite span_digits_append
      by (try apply string_of_uint_digits; now apply isspace_not_digit).
    pose proof (fmt_d_nonempty n) as Hne.
    destruct (fmt_d n) eqn:E; [contradiction|].
    rewrite Hsep, <- E. apply int_of_digits_fmt_d.
  - reflexivity.
  - intros c Hc. unfold get_disk_usage. simpl. now rewrite Hc.
Qed.

(** ** Checking the entries of restore_info *)

Lemma lookup_set_entry_ne (name vm : string) (e : vm_entry) (info : vms_to_restore) :
  name <> vm ->
  lookup_entry name (vr_entries (set_entry vm e info))
  = lookup_entry name (vr_entries info).
Proof.
  intros Hne. unfold lookup_entry, set_entry. simpl.
  induction (vr_entries info) as [|[k v] l IH]; [reflexivity|]. simpl.
  destruct (String.eqb_spec k vm) as [->|Hk]; simpl.
  - destruct (String.eqb_spec vm name) as [->|_]; [contradiction|exact IH].
  - destruct (String.eqb k name); [reflexivity|exact IH].
Qed.

Lemma lookup_set_entry_eq (vm : string) (e e0 : vm_entry) (info : vms_to_restore) :
  lookup_entry vm (vr_entries info) = Some e0 ->
  lookup_entry vm (vr_entries (set_entry vm e info)) = Some e.
Proof.
  unfold lookup_entry, set_entry. simpl.
  induction (vr_entries info) as [|[k v] l IH]; [discriminate|]. simpl.
  destruct (String.eqb_spec k vm) as [->|Hk]; simpl.
  - now rewrite String.eqb_refl.
  - destruct (String.eqb_spec k vm); [contradiction|exact IH].
Qed.

Lemma lookup_entry_In (name : string) (entries : list (string * vm_entry))
    (e : vm_entry) :
  lookup_entry name entries = Some e -> In name (map fst entries).
Proof.
  unfold lookup_entry. induction entries as [|[k v] l IH]; [discriminate|]. simpl.
  destruct (String.eqb_spec k name) as [->|_]; [now left|]. intros H. right. auto.
Qed.

Lemma in_backup_set_entry (info : vms_to_restore) (vm : string) (e e0 : vm_entry)
    (name : string) (kind : backup_vm -> bool) :
  lookup_entry vm (vr_entries info) = Some e0 ->
  kind (e_vm e) = kind (e_vm e0) ->
  in_backup (set_entry vm e info) name kind = in_backup info name kind.
Proof.
  intros Hl Hk. unfold in_backup.
  change (vr_options (set_entry vm e info)) with (vr_options info).
  change (vr_has_dom0 (set_entry vm e info)) with (vr_has_dom0 info).
  destruct (String.eqb name "$OPTIONS$"); [reflexivity|].
  destruct (String.eqb name "dom0" && vr_has_dom0 info); [reflexivity|].
  destruct (String.eqb_spec name vm) as [->|Hne].
  - rewrite (lookup_set_entry_eq _ _ _ _ Hl), Hl. now rewrite Hk.
  - now rewrite lookup_set_entry_ne.
Qed.

Lemma verify_entry_agree (info1 info2 : vms_to_restore) (hc : host_collection)
    (vm : string) (e : vm_entry) :
  agree info1 info2 -> verify_entry info1 hc vm e = verify_entry info2 hc vm e.
Proof.
  intros [Ho Hb]. unfold verify_entry.
  assert (Ht : check_template info1 hc e = check_template info2 hc e).
  { unfold check_template. destruct (e_template e) as [t|]; [|reflexivity].
    rewrite Ho, Hb by auto. reflexivity. }
  assert (Hn : check_netvm info1 hc e = check_netvm info2 hc e).
  { unfold check_netvm. destruct (e_netvm e) as [n|]; [|reflexivity].
    rewrite Ho, Hb by auto. reflexivity. }
  rewrite Ho, Ht, Hn. reflexivity.
Qed.

Lemma verify_entry_vm (info : vms_to_restore) (hc : host_collection)
    (vm : string) (e e' : vm_entry) :
  verify_entry info hc vm e = Ok e' ->
  bvm_is_template (e_vm e') = bvm_is_template (e_vm e) /\
  bvm_is_netvm (e_vm e') = bvm_is_netvm (e_vm e).
Proof.
  unfold verify_entry. intros H.
  apply rbind_ok in H as (excluded & _ & H).
  apply rbind_ok in H as ([[t o] mt] & _ & H).
  apply rbind_ok in H as ([[n u] mn] & _ & H).
  injection H as <-. split; reflexivity.
Qed.

Lemma agree_set_entry (info info0 : vms_to_restore) (hc : host_collection)
    (vm : string) (e e' : vm_entry) :
  agree info info0 ->
  lookup_entry vm (vr_entries info) = Some e ->
  verify_entry info hc vm e = Ok e' ->
  agree (set_entry vm e' info) info0.
Proof.
  intros [Ho Hb] Hl Hv. apply verify_entry_vm in Hv as [Ht Hn]. split; [exact Ho|].
  intros name kind Hkind. rewrite <- Hb by exact Hkind.
  apply (in_backup_set_entry _ _ _ _ _ _ Hl).
  destruct Hkind as [->| ->]; assumption.
Qed.

(** In spite of the changes made in place, every entry is judged as if the
    loop had started with it. *)
Lemma verify_loop_spec (hc : host_collection) (info0 : vms_to_restore)
    (keys : list string) (info info' : vms_to_restore) :
  agree info info0 ->
  verify_loop hc keys info = Ok info' ->
  NoDup keys ->
  agree info' info0 /\
  (forall name, ~ In name keys \/ is_special name = true ->
                lookup_entry name (vr_entries info')
                = lookup_entry name (vr_entries info)) /\
  (forall name, In name keys -> is_special name = false ->
                exists e e',
                  lookup_entry name (vr_entries info) = Some e /\
                  lookup_entry name (vr_entries info') = Some e' /\
                  verify_entry info0 hc name e = Ok e').
Proof.
  revert info. induction keys as [|vm keys IH]; intros info Hagree H Hnodup.
  - injection H as <-. split; [exact Hagree|]. split; [reflexivity|]. intros ? [].
  - apply NoDup_cons in Hnodup as [Hnotin Hnodup].
    rewrite list_elem_of_In in Hnotin. simpl in H.
    destruct (is_special vm) eqn:Es.
    + destruct (IH _ Hagree H Hnodup) as (Ha & Hsame & Hdone).
      split; [exact Ha|]. split.
      * intros name [Hn|Hn]; apply Hsame; [left; intros Hin; apply Hn; now right|now right].
      * intros name [<-|Hin] Hs; [congruence|]. now apply Hdone.
    + destruct (lookup_entry vm (vr_entries info)) as [e|] eqn:El; [|discriminate].
      apply rbind_ok in H as (e' & Hv & H).
      pose proof (agree_set_entry _ _ _ _ _ _ Hagree El Hv) as Hagree'.
      destruct (IH _ Hagree' H Hnodup) as (Ha & Hsame & Hdone).
      split; [exact Ha|]. split.
      * intros name Hn.
        assert (Hne : name <> vm).
        { intros ->. destruct Hn as [Hn|Hn]; [apply Hn; now left|congruence]. }
        rewrite Hsame.
        -- now apply lookup_set_entry_ne.
        -- destruct Hn as [Hn|Hn]; [left; intros Hin; apply Hn; now right|now right].
      * intros name [<-|Hin] Hs.
        -- exists e, e'. split; [exact El|]. split.
           ++ rewrite Hsame by now left. apply (lookup_set_entry_eq _ _ _ _ El).
           ++ rewrite <- (verify_entry_agree _ _ _ _ _ Hagree). exact Hv.
        -- destruct (Hdone name Hin Hs) as (e1 & e1' & H1 & H2 & H3).
           exists e1, e1'. split; [|split; assumption].
           rewrite <- H1. symmetry. apply lookup_set_entry_ne.
           intros ->. contradiction.
Qed.

Lemma agree_refl (info : vms_to_restore) : agree info info.
Proof. split; reflexivity. Qed.

(** X16: [restore_info_verify] changes the entries in place while it goes
    through the keys, and looks into the same dict for the templates and
    netvms that come with the backup; still, whatever the order of the keys,
    every VM entry ends as the result of the checks made on it against the
    dict as it was passed. *)
Theorem restore_info_verify_entrywise (info info' : vms_to_restore)
    (hc : host_collection) (name : string) (e : vm_entry)
    (Hkeys : NoDup (map fst (vr_entries info)))
    (Hverify : restore_info_verify info hc = Ok info')
    (Hentry : lookup_entry name (vr_entries info) = Some e)
    (Hname : is_special name = false) :
  exists e', lookup_entry name (vr_entries info') = Some e' /\
             verify_entry info hc name e = Ok e'.
Proof.
  destruct (verify_loop_spec hc info _ _ _ (agree_refl info) Hverify Hkeys)
    as (_ & _ & Hdone).
  destruct (Hdone name (lookup_entry_In _ _ _ Hentry) Hname) as (e1 & e' & H1 & H2 & H3).
  exists e'. split; [exact H2|]. congruence.
Qed.

Lemma restore_info_verify_entrywise_witness :
  exists e',
    lookup_entry "work"
      (vr_entries (VmsToRestore (backup_restore_set_defaults ∅)
         [("work", VmEntry (BackupVm false false false) (Some "fedora-18-x64")
                     (Some "netvm") None false false false false (Some true));
          ("fedora-18-x64", VmEntry (BackupVm true false false) None None None
                              false false false false (Some true))]
         false)) = Some e' /\
    verify_entry sample_vms_to_restore sample_host "work" sample_work_entry = Ok e'.
Proof.
  apply (restore_info_verify_entrywise sample_vms_to_restore _ sample_host "work"
           sample_work_entry).
  - compute_done.
  - vm_compute. reflexivity.
  - reflexivity.
  - reflexivity.
Defined.

Lemma in_backup_true (info : vms_to_restore) (name : string)
    (kind : backup_vm -> bool) :
  in_backup info name kind = Ok true ->
  exists e, lookup_entry name (vr_entries info) = Some e /\ kind (e_vm e) = true.
Proof.
  unfold in_backup. destruct (String.eqb name "$OPTIONS$").
  { destruct (vr_options info !! "vm"); discriminate. }
  destruct (_ && _); [discriminate|].
  destruct (lookup_entry name (vr_entries info)) as [e|]; [|discriminate].
  intros [= H]. eauto.
Qed.

Lemma check_template_resolvable (info : vms_to_restore) (hc : host_collection)
    (e : vm_entry) (template orig : option string) :
  check_template info hc e = Ok (template, orig, false) ->
  resolvable info hc hv_is_template bvm_is_template (get_default_template hc) template.
Proof.
  unfold check_template.
  destruct (e_template e) as [t|] eqn:Et; [|now intros [= <- _]].
  destruct (String.eqb_spec t "") as [->|_]; [intros [= <- _]; now left|].
  destruct (get_vm_by_name hc t) as [hv|] eqn:Eh.
  - destruct (hv_is_template hv) eqn:Ek.
    + intros [= <- _]. right. left. eauto.
    + intros H. apply rbind_ok in H as ([] & Hb & H).
      * injection H as <- _. right. right. left. now apply in_backup_true.
      * apply rbind_ok in H as ([] & _ & H); [|discriminate].
        destruct (get_default_template hc); [|discriminate].
        injection H as <- _. now repeat right.
  - intros H. apply rbind_ok in H as ([] & Hb & H).
    + injection H as <- _. right. right. left. now apply in_backup_true.
    + apply rbind_ok in H as ([] & _ & H); [|discriminate].
      destruct (get_default_template hc); [|discriminate].
      injection H as <- _. now repeat right.
Qed.

Lemma check_netvm_resolvable (info : vms_to_restore) (hc : host_collection)
    (e : vm_entry) (netvm : option string) (uses_default : bool) :
  check_netvm info hc e = Ok (netvm, uses_default, false) ->
  resolvable info hc hv_is_netvm bvm_is_netvm (get_default_netvm hc) netvm.
Proof.
  unfold check_netvm.
  destruct (e_netvm e) as [n|] eqn:En; [|now intros [= <- _]].
  destruct (String.eqb_spec n "") as [->|_]; [intros [= <- _]; now left|].
  assert (Hrest :
    rbind (in_backup info n bvm_is_netvm) (fun found =>
      if found : bool then Ok (Some n, bvm_uses_default_netvm (e_vm e), false)
      else
        rbind (option_set (vr_options info) "use-default-netvm") (fun use_default =>
        if use_default : bool then
          match get_default_netvm hc with
          | Some default => Ok (Some default, true, false)
          | None => Raise AttributeError
          end
        else
          rbind (option_set (vr_options info) "use-none-netvm") (fun use_none =>
          if use_none : bool
          then Ok (None, bvm_uses_default_netvm (e_vm e), false)
          else Ok (Some n, bvm_uses_default_netvm (e_vm e), true))))
    = Ok (netvm, uses_default, false) ->
    resolvable info hc hv_is_netvm bvm_is_netvm (get_default_netvm hc) netvm).
  { intros H. apply rbind_ok in H as ([] & Hb & H).
    - injection H as <- _. right. right. left. now apply in_backup_true.
    - apply rbind_ok in H as ([] & _ & H).
      + destruct (get_default_netvm hc); [|discriminate].
        injection H as <- _. now repeat right.
      + apply rbind_ok in H as ([] & _ & H); [|discriminate].
        now injection H as <- _. }
  destruct (get_vm_by_name hc n) as [hv|] eqn:Eh; [|exact Hrest].
  destruct (hv_is_netvm hv) eqn:Ek; [|exact Hrest].
  intros [= <- _]. right. left. eauto.
Qed.

(** X17: a VM entry that [restore_info_verify] marks as good to go can be
    restored: its name is not in the ['exclude'] list and no VM of the host
    has it, and its template and its netvm, as the entry names them after the
    check, are each empty, a VM of that kind on the host, a VM of that kind
    that comes with the backup, or the host's default. *)
Theorem good_to_go_is_restorable (info info' : vms_to_restore)
    (hc : host_collection) (name : string) (e' : vm_entry)
    (Hkeys : NoDup (map fst (vr_entries info)))
    (Hverify : restore_info_verify info hc = Ok info')
    (Hentry : lookup_entry name (vr_entries info') = Some e')
    (Hname : is_special name = false)
    (Hgood : e_good_to_go e' = Some true) :
  (forall l, vr_options info !! "exclude" = Some (PyList l) -> str_in name l = false) /\
  get_vm_by_name hc name = None /\
  resolvable info hc hv_is_template bvm_is_template (get_default_template hc)
             (e_template e') /\
  resolvable info hc hv_is_netvm bvm_is_netvm (get_default_netvm hc) (e_netvm e').
Proof.
  destruct (verify_loop_spec hc info _ _ _ (agree_refl info) Hverify Hkeys)
    as (_ & Hsame & Hdone).
  destruct (in_dec string_dec name (map fst (vr_entries info))) as [Hin|Hout].
  - destruct (Hdone name Hin Hname) as (e & e1 & _ & H2 & Hv).
    rewrite Hentry in H2. injection H2 as <-.
    unfold verify_entry in Hv.
    apply rbind_ok in Hv as (excluded & Hex & Hv).
    apply rbind_ok in Hv as ([[t o] mt] & Ht & Hv).
    apply rbind_ok in Hv as ([[n u] mn] & Hn & Hv).
    injection Hv as <-. simpl in *. injection Hgood as Hgood.
    apply negb_true_iff in Hgood.
    apply orb_false_elim in Hgood as [Hgood ->].
    apply orb_false_elim in Hgood as [Hgood Hex'].
    apply orb_false_elim in Hgood as [-> ->].
    repeat split.
    + intros l Hl. rewrite Hl in Hex. now injection Hex.
    + destruct (get_vm_by_name hc name); [discriminate|reflexivity].
    + eapply check_template_resolvable; eauto.
    + eapply check_netvm_resolvable; eauto.
  - exfalso. apply Hout. rewrite Hsame in Hentry by now left.
    eapply lookup_entry_In; eauto.
Qed.

Lemma good_to_go_is_restorable_witness :
  (forall l, vr_options sample_vms_to_restore !! "exclude" = Some (PyList l) ->
             str_in "work" l = false) /\
  get_vm_by_name sample_host "work" = None /\
  resolvable sample_vms_to_restore sample_host hv_is_template bvm_is_template
             (get_default_template sample_host) (Some "fedora-18-x64") /\
  resolvable sample_vms_to_restore sample_host hv_is_netvm bvm_is_netvm
             (get_default_netvm sample_host) (Some "netvm").
Proof.
  apply (good_to_go_is_restorable sample_vms_to_restore
           (VmsToRestore (backup_restore_set_defaults ∅)
              [("work", VmEntry (BackupVm false false false) (Some "fedora-18-x64")
                          (Some "netvm") None false false false false (Some true));
               ("fedora-18-x64", VmEntry (BackupVm true false false) None None None
                                   false false false false (Some true))]
              false)
           sample_host "work"
           (VmEntry (BackupVm false false false) (Some "fedora-18-x64")
              (Some "netvm") None false false false false (Some true))).
  - compute_done.
  - vm_compute. reflexivity.
  - reflexivity.
  - reflexivity.
  - reflexivity.
Defined.

(** ** Which files the restore loop hands to extraction *)




(** ** The plan made with hide_vm_names *)

Lemma adds_hidden_refl (files : list fileinfo) : adds_hidden files files.
Proof. exists []. rewrite app_nil_r. auto. Qed.

Lemma adds_hidden_trans (a b c : list fileinfo) :
  adds_hidden a b -> adds_hidden b c -> adds_hidden a c.
Proof.
  intros (x & -> & Hx) (y & -> & Hy). exists (x ++ y).
  rewrite app_assoc. split; [reflexivity|]. apply Forall_app. auto.
Qed.

Lemma add_file_hidden (env : prepare_env) (cond : bool) (path : string) (qid : nat)
    (files files' : list fileinfo) :
  add_file env cond path (Some ("vm" +:+ fmt_d qid +:+ "/")) files = Ok files' ->
  adds_hidden files files'.
Proof.
  unfold add_file. destruct cond; [|intros [= <-]; apply adds_hidden_refl].
  intros H. apply rbind_ok in H as (l & Hl & [= <-]).
  exists l. split; [reflexivity|].
  unfold file_to_backup in Hl.
  change ("vm" +:+ fmt_d qid +:+ "/") with (("vm" +:+ fmt_d qid) +:+ "/") in Hl.
  rewrite endswith_slash_app, andb_false_r in Hl. injection Hl as <-.
  constructor; [|constructor]. right. now exists qid.
Qed.

Lemma vm_files_hidden (env : prepare_env) (v : vm) (files files' : list fileinfo) :
  vm_files_to_backup env true v files = Ok files' -> adds_hidden files files'.
Proof.
  unfold vm_files_to_backup. intros E.
  apply rbind_ok in E as (f1 & E1 & E).
  assert (H1 : adds_hidden files f1).
  { destruct (vm_private_img v); [now apply add_file_hidden in E1|].
    injection E1 as <-. apply adds_hidden_refl. }
  apply rbind_ok in E as (f2 & E2 & E). apply add_file_hidden in E2.
  apply rbind_ok in E as (f3 & E3 & E). apply add_file_hidden in E3.
  apply rbind_ok in E as (f4 & E4 & E). apply add_file_hidden in E4.
  apply rbind_ok in E as (f5 & E5 & E). apply add_file_hidden in E5.
  apply rbind_ok in E as (f6 & E6 & E). apply add_file_hidden in E6.
  apply rbind_ok in E as (f7 & E7 & E).
  assert (H7 : adds_hidden f6 f7).
  { destruct (pe_appmenus_whitelist env); [now apply add_file_hidden in E7|].
    injection E7 as <-. apply adds_hidden_refl. }
  apply add_file_hidden in E.
  repeat (eapply adds_hidden_trans; [eassumption|]). apply adds_hidden_refl.
Qed.

Lemma plain_vms_loop_hidden (env : prepare_env) (vms : list vm) :
  forall files files',
    plain_vms_loop env true vms files = Ok files' -> adds_hidden files files'.
Proof.
  induction vms as [|v vms IH]; intros files files'; simpl.
  - intros [= <-]. apply adds_hidden_refl.
  - destruct (_ || _); [apply IH|].
    intros E. apply rbind_ok in E as (f & Ef & E).
    eapply adds_hidden_trans; [eapply vm_files_hidden; eauto|now apply IH].
Qed.

Lemma template_vms_loop_hidden (env : prepare_env) (vms : list vm) :
  forall files files',
    template_vms_loop env true vms files = Ok files' -> adds_hidden files files'.
Proof.
  induction vms as [|v vms IH]; intros files files'; simpl.
  - intros [= <-]. apply adds_hidden_refl.
  - destruct (_ || _); [apply IH|].
    intros E. apply IH in E.
    eapply adds_hidden_trans; [|exact E].
    eexists. split; [reflexivity|]. constructor; [|constructor].
    right. now exists (vm_qid v).
Qed.

(** X19: with [hide_vm_names], the plan of [backup_prepare] begins with the
    entry of the inventory file, and the subdir of every entry after it is
    [vm<qid>/] for some number, or [dom0-home/]: no subdir is derived from
    the name or the directory of a VM. *)
Theorem backup_prepare_hides_names (env : prepare_env)
    (vms_list : option (list vm)) (exclude_list : list string)
    (files : list fileinfo)
    (Hplan : backup_prepare env vms_list exclude_list true = Ok files) :
  exists store rest,
    files = store ++ rest /\
    file_to_backup env (pe_qubes_store_filename env) None = Ok store /\
    Forall (fun fi => hidden_subdir (fi_subdir fi)) rest.
Proof.
  unfold backup_prepare in Hplan.
  apply rbind_ok in Hplan as (store & Hstore & Hplan).
  apply rbind_ok in Hplan as (vl & _ & Hplan).
  apply rbind_ok in Hplan as (f1 & H1 & Hplan). apply plain_vms_loop_hidden in H1.
  apply rbind_ok in Hplan as (f2 & H2 & Hplan). apply template_vms_loop_hidden in H2.
  destruct (existsb (fun v => negb (vm_qid v =? 0) && vm_is_running v) _);
    [discriminate|].
  destruct (forallb _ _); [|discriminate]. injection Hplan as <-.
  assert (H3 : adds_hidden store
                 (if existsb (fun v => vm_qid v =? 0)
                       match exclude_list with
                       | [] => vl
                       | _ :: _ =>
                           filter (fun v => negb (str_in (vm_name v) exclude_list) = true) vl
                       end
                  then f2 ++ [FileInfo (pe_home_dir env)
                                (pe_disk_usage env (pe_home_dir env)) "dom0-home/"]
                  else f2)).
  { eapply adds_hidden_trans; [exact H1|]. eapply adds_hidden_trans; [exact H2|].
    destruct (existsb _ _); [|apply adds_hidden_refl].
    eexists. split; [reflexivity|]. constructor; [|constructor]. now left. }
  destruct H3 as (rest & Hrest & Hall). exists store, rest. auto.
Qed.

Lemma backup_prepare_hides_names_witness :
  exists store rest,
    [FileInfo "/var/lib/qubes/qubes.xml" 10 "";
     FileInfo "/var/lib/qubes/appvms/work/private.img" 10 "vm1/";
     FileInfo "/var/lib/qubes/appvms/work/icon.png" 10 "vm1/";
     FileInfo "/var/lib/qubes/appvms/work/firewall.xml" 10 "vm1/";
     FileInfo "/home/user" 10 "dom0-home/"] = store ++ rest /\
    file_to_backup sample_prepare_env (pe_qubes_store_filename sample_prepare_env) None
    = Ok store /\
    Forall (fun fi => hidden_subdir (fi_subdir fi)) rest.
Proof.
  apply (backup_prepare_hides_names sample_prepare_env None []).
  vm_compute. reflexivity.
Defined.

(** ** The default selection *)

(** X20: when no list of VMs is given, dom0 is part of the selection whether
    or not it is flagged for backups: unless a VM with qid 0 is excluded by
    name, the plan ends with the entry of the home directory of the first
    member of group [qubes], archived under [dom0-home/]. *)
Theorem backup_prepare_default_includes_dom0 (env : prepare_env)
    (exclude_list : list string) (hide_vm_names : bool) (files : list fileinfo)
    (Hplan : backup_prepare env None exclude_list hide_vm_names = Ok files)
    (Hkept : forall v, In v (pe_collection env) -> vm_qid v = 0 ->
                       str_in (vm_name v) exclude_list = false) :
  exists before,
    files = before ++ [FileInfo (pe_home_dir env)
                         (pe_disk_usage env (pe_home_dir env)) "dom0-home/"].
Proof.
  unfold backup_prepare in Hplan.
  apply rbind_ok in Hplan as (store & _ & Hplan).
  apply rbind_ok in Hplan as (vl & Hvl & Hplan).
  destruct (List.find (fun v => vm_qid v =? 0) (pe_collection env)) as [dom0|] eqn:Ef;
    [|discriminate].
  injection Hvl as <-.
  apply List.find_some in Ef as [Hin Hq]. apply Nat.eqb_eq in Hq.
  apply rbind_ok in Hplan as (f1 & _ & Hplan).
  apply rbind_ok in Hplan as (f2 & _ & Hplan).
  match type of Hplan with
  | context [existsb (fun v => vm_qid v =? 0) ?l] =>
      assert (Hdom0 : existsb (fun v => vm_qid v =? 0) l = true)
  end.
  { apply existsb_exists. exists dom0. split; [|now apply Nat.eqb_eq].
    destruct exclude_list as [|x xs].
    - rewrite !in_app_iff. do 3 right. now left.
    - apply list_elem_of_In, list_elem_of_filter. split.
      + now rewrite (Hkept dom0 Hin Hq).
      + apply list_elem_of_In. rewrite !in_app_iff. do 3 right. now left. }
  rewrite Hdom0 in Hplan.
  destruct (existsb (fun v => negb (vm_qid v =? 0) && vm_is_running v) _);
    [discriminate|].
  destruct (forallb _ _); [|discriminate]. injection Hplan as <-.
  now exists f2.
Qed.

Lemma backup_prepare_default_includes_dom0_witness :
  exists before,
    [FileInfo "/var/lib/qubes/qubes.xml" 10 "";
     FileInfo "/var/lib/qubes/appvms/work/private.img" 10 "vm1/";
     FileInfo "/var/lib/qubes/appvms/work/icon.png" 10 "vm1/";
     FileInfo "/var/lib/qubes/appvms/work/firewall.xml" 10 "vm1/";
     FileInfo "/home/user" 10 "dom0-home/"]
    = before ++ [FileInfo (pe_home_dir sample_prepare_env)
                   (pe_disk_usage sample_prepare_env (pe_home_dir sample_prepare_env))
                   "dom0-home/"].
Proof.
  apply (backup_prepare_default_includes_dom0 sample_prepare_env [] true).
  - vm_compute. reflexivity.
  - reflexivity.
Defined.

(** ** Replacing templates *)

Lemma first_line_id (s : string) : count "010"%char s = 0 -> first_line s = s.
Proof.
  induction s as [|c s IH]; [reflexivity|]. simpl.
  destruct (Ascii.eqb c "010"%char); [discriminate|].
  intros H. now rewrite IH.
Qed.

Lemma rsplit_colon_none (s : string) : count ":"%char s = 0 -> rsplit_colon s = None.
Proof.
  induction s as [|c s IH]; [reflexivity|]. simpl.
  destruct (Ascii.eqb c ":"%char); [discriminate|].
  intros H. now rewrite IH.
Qed.

Lemma rsplit_colon_rule (old new : string) :
  count ":"%char new = 0 -> rsplit_colon (old +:+ ":" +:+ new) = Some (old, new).
Proof.
  intros Hn. induction old as [|c old IH].
  - change ("" +:+ ":" +:+ new) with (String ":"%char new). simpl.
    now rewrite rsplit_colon_none.
  - rewrite append_cons. simpl. now rewrite IH.
Qed.

(** X21: a list of rules [old:new] without line feeds, and without [':'] in
    the new names, acts as an association list read from the left:
    [find_template_name] gives the new name of the first rule whose old name
    is the template, and the template itself when there is none.  An old
    name may hold a [':'], the rule being split at its last one. *)
Theorem find_template_name_rules (template : string) (rules : list (string * string))
    (Hplain : forallb plain_rule rules = true) :
  find_template_name template (map (fun rule => fst rule +:+ ":" +:+ snd rule) rules)
  = Ok match List.find (fun rule => String.eqb (fst rule) template) rules with
       | Some rule => snd rule
       | None => template
       end.
Proof.
  induction rules as [|[old new] rules IH]; [reflexivity|].
  simpl in Hplain. apply andb_prop in Hplain as [Hrule Hrules].
  unfold plain_rule in Hrule. simpl in Hrule.
  apply andb_prop in Hrule as [Hrule Hcolon]. apply andb_prop in Hrule as [Ho Hn].
  apply Nat.eqb_eq in Hcolon, Ho, Hn.
  simpl. unfold rx_replace_match.
  rewrite first_line_id.
  - rewrite rsplit_colon_rule by exact Hcolon.
    destruct (String.eqb old template); [reflexivity|]. now apply IH.
  - rewrite !count_append, Ho, Hn. reflexivity.
Qed.

Lemma find_template_name_rules_witness :
  find_template_name "fedora-18-x64"
    (map (fun rule => fst rule +:+ ":" +:+ snd rule)
         [("debian-7", "debian-8"); ("fedora-18-x64", "fedora-20-x64")])
  = Ok match List.find (fun rule => String.eqb (fst rule) "fedora-18-x64")
               [("debian-7", "debian-8"); ("fedora-18-x64", "fedora-20-x64")] with
       | Some rule => snd rule
       | None => "fedora-18-x64"
       end.
Proof.
  apply (find_template_name_rules "fedora-18-x64"
           [("debian-7", "debian-8"); ("fedora-18-x64", "fedora-20-x64")]).
  reflexivity.
Defined.

(** ** When the check of restore_info comes to its end *)

Lemma lookup_set_default (key key' : string) (v : pyval) (options : gmap string pyval) :
  set_default key v options !! key'
  = match options !! key' with
    | Some x => Some x
    | None => if String.eqb key key' then Some v else None
    end.
Proof.
  unfold set_default. destruct (String.eqb_spec key key') as [<-|Hne].
  - destruct (options !! key) eqn:E; [now rewrite E|]. now rewrite lookup_insert_eq.
  - destruct (options !! key) eqn:E; [now destruct (options !! key')|].
    rewrite lookup_insert_ne by exact Hne. now destruct (options !! key').
Qed.

Lemma option_set_defaults (options : gmap string pyval) (key : string) :
  key = "use-default-template" \/ key = "use-default-netvm" \/ key = "use-none-netvm" ->
  exists b, option_set (backup_restore_set_defaults options) key = Ok b.
Proof.
  unfold option_set, backup_restore_set_defaults.
  intros [->|[->| ->]]; rewrite !lookup_set_default; simpl;
    destruct (options !! _); eauto.
Qed.

Lemma exclude_set_defaults (options : gmap string pyval) :
  backup_restore_set_defaults options !! "exclude" = options !! "exclude".
Proof.
  unfold backup_restore_set_defaults. rewrite !lookup_set_default. simpl.
  now destruct (options !! "exclude").
Qed.

Lemma in_backup_plain (info : vms_to_restore) (name : string)
    (kind : backup_vm -> bool) :
  is_special name = false -> exists b, in_backup info name kind = Ok b.
Proof.
  unfold is_special, in_backup. intros H. apply orb_false_elim in H as [-> ->].
  simpl. destruct (lookup_entry name (vr_entries info)); eauto.
Qed.

Lemma verify_entry_succeeds (options : gmap string pyval)
    (entries : list (string * vm_entry)) (dom0 : bool) (hc : host_collection)
    (vm : string) (e : vm_entry) :
  (forall v, options !! "exclude" = Some v -> exists l, v = PyList l) ->
  names_plain e = true ->
  get_default_template hc <> None -> get_default_netvm hc <> None ->
  exists e',
    verify_entry (VmsToRestore (backup_restore_set_defaults options) entries dom0)
                 hc vm e = Ok e'.
Proof.
  intros Hex Hplain Ht Hn. unfold names_plain in Hplain.
  apply andb_prop in Hplain as [Hpt Hpn].
  set (info := VmsToRestore (backup_restore_set_defaults options) entries dom0).
  assert (Hexcluded : exists b,
             match vr_options info !! "exclude" with
             | None => Ok false
             | Some (PyList l) => Ok (str_in vm l)
             | Some (PyStr s) => Ok (contains vm s)
             | Some _ => Raise TypeError
             end = Ok b).
  { simpl. rewrite exclude_set_defaults.
    destruct (options !! "exclude") as [v|] eqn:E; [|eauto].
    destruct (Hex v eq_refl) as [l ->]. eauto. }
  assert (Htemplate : exists t, check_template info hc e = Ok t).
  { unfold check_template. destruct (e_template e) as [t|]; [|eauto].
    destruct (String.eqb t ""); [eauto|].
    destruct (match get_vm_by_name hc t with
              | Some host_template => hv_is_template host_template
              | None => false
              end); [eauto|].
    apply negb_true_iff in Hpt.
    destruct (in_backup_plain info t bvm_is_template Hpt) as [[] ->]; simpl; [eauto|].
    destruct (option_set_defaults options "use-default-template") as [[] Hb];
      [auto|simpl in *; rewrite Hb; simpl..]; [|eauto].
    destruct (get_default_template hc); [eauto|contradiction]. }
  assert (Hnetvm : exists n, check_netvm info hc e = Ok n).
  { unfold check_netvm. destruct (e_netvm e) as [n|]; [|eauto].
    destruct (String.eqb n ""); [eauto|].
    destruct (match get_vm_by_name hc n with
              | Some netvm_on_host => hv_is_netvm netvm_on_host
              | None => false
              end); [eauto|].
    apply negb_true_iff in Hpn.
    destruct (in_backup_plain info n bvm_is_netvm Hpn) as [[] ->]; simpl; [eauto|].
    destruct (option_set_defaults options "use-default-netvm") as [[] Hb];
      [auto|simpl in *; rewrite Hb; simpl..].
    - destruct (get_default_netvm hc); [eauto|contradiction].
    - destruct (option_set_defaults options "use-none-netvm") as [[] Hb'];
        [auto|simpl in *; rewrite Hb'; simpl; eauto..]. }
  unfold verify_entry.
  destruct Hexcluded as [b ->], Htemplate as [[[t o] mt] ->], Hnetvm as [[[n u] mn] ->].
  simpl. eauto.
Qed.

Lemma lookup_entry_elem (name : string) (entries : list (string * vm_entry))
    (e : vm_entry) :
  lookup_entry name entries = Some e -> In (name, e) entries.
Proof.
  unfold lookup_entry. induction entries as [|[k v] l IH]; [discriminate|]. simpl.
  destruct (String.eqb_spec k name) as [->|_]; [intros [= ->]; now left|].
  intros H. right. auto.
Qed.

Lemma In_lookup_entry (name : string) (entries : list (string * vm_entry)) :
  In name (map fst entries) -> exists e, lookup_entry name entries = Some e.
Proof.
  unfold lookup_entry. induction entries as [|[k v] l IH]; [intros []|]. simpl.
  destruct (String.eqb_spec k name) as [->|Hne]; [eauto|].
  intros [H|H]; [contradiction|auto].
Qed.

Lemma verify_loop_succeeds (hc : host_collection) (info0 : vms_to_restore)
    (keys : list string) (info : vms_to_restore) :
  agree info info0 ->
  NoDup keys ->
  (forall name, In name keys -> is_special name = false ->
                exists e e', lookup_entry name (vr_entries info) = Some e /\
                             verify_entry info0 hc name e = Ok e') ->
  exists info', verify_loop hc keys info = Ok info'.
Proof.
  revert info. induction keys as [|vm keys IH]; intros info Hagree Hnodup Hall.
  - now exists info.
  - apply NoDup_cons in Hnodup as [Hnotin Hnodup].
    rewrite list_elem_of_In in Hnotin. simpl.
    destruct (is_special vm) eqn:Es.
    + apply IH; [exact Hagree|exact Hnodup|]. intros name Hin. apply Hall. now right.
    + destruct (Hall vm (or_introl eq_refl) Es) as (e & e' & Hl & Hv).
      rewrite Hl. rewrite (verify_entry_agree _ _ _ _ _ Hagree), Hv. simpl.
      apply IH; [|exact Hnodup|].
      * apply (agree_set_entry info info0 hc vm e e' Hagree Hl).
        rewrite (verify_entry_agree _ _ _ _ _ Hagree). exact Hv.
      * intros name Hin Hs.
        destruct (Hall name (or_intror Hin) Hs) as (e1 & e1' & H1 & H2).
        exists e1, e1'. split; [|exact H2].
        rewrite lookup_set_entry_ne; [exact H1|]. intros ->. contradiction.
Qed.

(** X22: [restore_info_verify] comes to its end without raising when the
    options went through [backup_restore_set_defaults], ['exclude'], if
    given, is a list, no entry names ['$OPTIONS$'] or ['dom0'] as its template
    or netvm, and the host has a default template and a default netvm. *)
Theorem restore_info_verify_succeeds (options : gmap string pyval)
    (entries : list (string * vm_entry)) (dom0 : bool) (hc : host_collection)
    (Hexclude : forall v, options !! "exclude" = Some v -> exists l, v = PyList l)
    (Hnames : forallb (fun entry => names_plain (snd entry)) entries = true)
    (Hkeys : NoDup (map fst entries))
    (Htemplate : get_default_template hc <> None)
    (Hnetvm : get_default_netvm hc <> None) :
  exists info',
    restore_info_verify
      (VmsToRestore (backup_restore_set_defaults options) entries dom0) hc = Ok info'.
Proof.
  unfold restore_info_verify. simpl.
  apply (verify_loop_succeeds hc _ _ _ (agree_refl _) Hkeys).
  intros name Hin _. simpl.
  destruct (In_lookup_entry _ _ Hin) as [e He].
  destruct (verify_entry_succeeds options entries dom0 hc name e Hexclude)
    as [e' He']; [|exact Htemplate|exact Hnetvm|eauto].
  rewrite forallb_forall in Hnames.
  apply (Hnames (name, e)). now apply lookup_entry_elem.
Qed.

Lemma restore_info_verify_succeeds_witness :
  exists info',
    restore_info_verify
      (VmsToRestore (backup_restore_set_defaults ∅)
         [("work", sample_work_entry); ("fedora-18-x64", sample_template_entry)]
         false) sample_host = Ok info'.
Proof.
  apply (restore_info_verify_succeeds ∅
           [("work", sample_work_entry); ("fedora-18-x64", sample_template_entry)]
           false sample_host).
  - intros v H. vm_compute in H. discriminate.
  - reflexivity.
  - compute_done.
  - discriminate.
  - discriminate.
Defined.

(** ** When wait_backup_feedback returns None *)

Lemma wbf_body_never_none (p : procs) (o : observation) (written : bool) :
  wbf_body p o <> (TurnReturn None, written).
Proof.
  unfold wbf_body. destruct (has_streamproc p).
  - destruct (obs_streamproc o) as [rc|]; [|discriminate].
    destruct (negb _); [discriminate|]. destruct (_ <=? _); discriminate.
  - destruct (_ <=? _); discriminate.
Qed.

Lemma wbf_body_idle (p : procs) (o : observation) (st : wbf_state) (written : bool) :
  wbf_body p o = (TurnNext st, written) ->
  run_count st = 0 -> run_error st = None ->
  has_streamproc p = false /\ obs_read o <> "" /\
  finished (has_hmac p) (obs_hmac o) = true /\
  finished (has_addproc p) (obs_addproc o) = true /\
  failed (has_vmproc p) (obs_vmproc o) = false.
Proof.
  unfold wbf_body, finished, failed, poll_vm, poll_step.
  destruct p as [[] [] [] []], o as [r [h|] [a|] [v|] [s|]]; simpl;
    repeat match goal with
           | |- context [(?x =? 0)%Z] => destruct (x =? 0)%Z; simpl
           | |- context [String.length ?x <=? 0] =>
               destruct (String.length x <=? 0) eqn:?; simpl
           end;
    intros [= <- <-]; simpl; intros Hc He; try discriminate;
    (repeat split; try reflexivity); intros ->; discriminate.
Qed.

Lemma wbf_loop_none (p : procs) (obs : list observation) (st : wbf_state)
    (out out' : wbf_output) :
  wbf_loop p obs st out = (Some None, out') ->
  (run_count st = 0 /\ run_error st = None) \/
  (has_streamproc p = false /\
   exists o, In o obs /\ obs_read o <> "" /\
             finished (has_hmac p) (obs_hmac o) = true /\
             finished (has_addproc p) (obs_addproc o) = true /\
             failed (has_vmproc p) (obs_vmproc o) = false).
Proof.
  revert st out. induction obs as [|o obs IH]; intros st out H.
  - simpl in H. destruct (0 <? run_count st) eqn:Ec; simpl in H.
    + destruct (run_error st); [now injection H|discriminate].
    + injection H as H _. left. split; [|exact H].
      apply Nat.ltb_ge in Ec. lia.
  - simpl in H. destruct (0 <? run_count st) eqn:Ec; simpl in H.
    + destruct (run_error st) eqn:Ee; [now injection H|].
      destruct (wbf_body p o) as [[v|st'] written] eqn:Eb.
      * injection H as -> _. now apply wbf_body_never_none in Eb.
      * right. apply IH in H as [[Hc He]|(Hs & o' & Hin & Hrest)].
        -- destruct (wbf_body_idle _ _ _ _ Eb Hc He) as (Hs & Hrest).
           split; [exact Hs|]. exists o. split; [now left|exact Hrest].
        -- split; [exact Hs|]. exists o'. split; [now right|exact Hrest].
    + injection H as H _. left. split; [|exact H].
      apply Nat.ltb_ge in Ec. lia.
Qed.

(** X23: [wait_backup_feedback] returns [None] -- on which both callers
    fail with a [TypeError], taking [len(run_error)] -- only when no
    [streamproc] was given and, in one of the turns, a block that is not
    empty was read while [hmac] and [addproc], as far as they were given, had
    both exited with status 0 and [vmproc] had not failed. *)
Theorem wait_backup_feedback_returns_none (p : procs) (obs : list observation)
    (out : wbf_output)
    (Hreturns : wait_backup_feedback p obs = (Some None, out)) :
  has_streamproc p = false /\
  exists o, In o obs /\ obs_read o <> "" /\
            finished (has_hmac p) (obs_hmac o) = true /\
            finished (has_addproc p) (obs_addproc o) = true /\
            failed (has_vmproc p) (obs_vmproc o) = false.
Proof.
  unfold wait_backup_feedback in Hreturns.
  apply wbf_loop_none in Hreturns as [[Hc _]|H]; [discriminate|exact H].
Qed.

Lemma wait_backup_feedback_returns_none_witness :
  has_streamproc (Procs false true false false) = false /\
  exists o, In o [Observation "tail" None (Some 0%Z) None None] /\
            obs_read o <> "" /\
            finished (has_hmac (Procs false true false false)) (obs_hmac o) = true /\
            finished (has_addproc (Procs false true false false)) (obs_addproc o) = true /\
            failed (has_vmproc (Procs false true false false)) (obs_vmproc o) = false.
Proof.
  apply (wait_backup_feedback_returns_none (Procs false true false false)
           [Observation "tail" None (Some 0%Z) None None] (WbfOutput "tail" [4])).
  reflexivity.
Defined.
